(** * Card layout and text fitting

    A shallow embedding of the two card generators of [pdf-generator/]:
    [generate_cards.py] (class [CardGenerator], the vector/PDF backend drawing
    on a ReportLab canvas) and [generate_png_cards.py] (class
    [PNGCardGenerator], the raster/PNG backend drawing on a PIL image).

    Conventions of the model

    - Python [str] is [string]; a character is an [ascii], read as the code
      point 0..255 (Latin-1).  [len], [' '.join], [strip], [replace], [lower]
      and [isalnum] are the Python methods restricted to that range.
    - Python [int] is [Z].  A JSON number that is used as a length is a
      rational [Q]: Python floats are idealised as exact rationals.  [int(x)]
      truncates toward zero, [//] on integers is [Z.div] (floor).
    - The configuration ([json.load]) is a [gmap string pyval]; [cfg['k']]
      raises [KeyError] on a missing key and [cfg.get('k', d)] does not.  A
      value of the wrong type is reported as [TypeError] at the read.
    - A drawing method is a writer over the list of canvas calls it performs,
      with exceptions: [M A = res A * list op].  The calls made before an
      exception stay in the trace, as they stay on the in-memory canvas.
    - What the program asks of the file system and of the font library
      (image validity and size, text measurement, the configuration and CSV
      files) is a record of functions, [env], that every method takes.
    - Colours stay the strings of the configuration in the drawing calls:
      the cards do not parse them ([HexColor], and [_hex_to_rgb], which is
      modelled on its own), so a card that a malformed colour would fail is
      not told apart here.  The progress messages printed along the way are
      left out. *)

From Stdlib Require Import ZArith QArith Qround Qabs Qpower String Ascii List Bool Lia Lqa.
From stdpp Require Import base gmap strings.
Import ListNotations.

Open Scope string_scope.
Open Scope list_scope.
Open Scope Z_scope.

(** ** Python values and built-ins *)
Module Py.

(** [int(x)] on a number: truncation toward zero. *)
Definition int (x : Q) : Z := Z.quot (Qnum x) (Z.pos (Qden x)).

(** [max(a, b)]: the first argument unless the second is strictly larger. *)
Definition max (a b : Q) : Q := if Qle_bool b a then a else b.
Definition min (a b : Q) : Q := if Qle_bool a b then a else b.

(** [a > b] and friends on numbers. *)
Definition gt (a b : Q) : bool := negb (Qle_bool a b).

Definition code (c : ascii) : N := N_of_ascii c.

Definition between (lo hi n : N) : bool := ((lo <=? n) && (n <=? hi))%N.

(** [c.isalnum()] on code points 0..255. *)
Definition isalnum (c : ascii) : bool :=
  let n := code c in
  between 48 57 n || between 65 90 n || between 97 122 n
  || (n =? 170)%N || (n =? 178)%N || (n =? 179)%N || (n =? 181)%N
  || (n =? 185)%N || (n =? 186)%N || between 188 190 n
  || between 192 214 n || between 216 246 n || between 248 255 n.

(** [c.isspace()] on code points 0..255. *)
Definition isspace (c : ascii) : bool :=
  let n := code c in
  between 9 13 n || between 28 32 n || (n =? 133)%N || (n =? 160)%N.

(** [c.lower()] on code points 0..255. *)
Definition lower_char (c : ascii) : ascii :=
  let n := code c in
  if between 65 90 n || between 192 214 n || between 216 222 n
  then ascii_of_N (n + 32) else c.

Fixpoint map_chars (f : ascii -> ascii) (s : string) : string :=
  match s with
  | EmptyString => EmptyString
  | String c s' => String (f c) (map_chars f s')
  end.

Definition lower (s : string) : string := map_chars lower_char s.

(** [s.replace(a, b)] for single characters [a] and [b]. *)
Definition replace_char (a b : ascii) (s : string) : string :=
  map_chars (fun c => if Ascii.eqb c a then b else c) s.

Fixpoint lstrip (s : string) : string :=
  match s with
  | EmptyString => EmptyString
  | String c s' => if isspace c then lstrip s' else s
  end.

Fixpoint rstrip (s : string) : string :=
  match s with
  | EmptyString => EmptyString
  | String c s' =>
      match rstrip s' with
      | EmptyString => if isspace c then EmptyString else String c EmptyString
      | r => String c r
      end
  end.

(** [s.strip()] *)
Definition strip (s : string) : string := rstrip (lstrip s).

(** [sep.join(l)] *)
Definition join (sep : string) (l : list string) : string := String.concat sep l.

Definition len (s : string) : nat := String.length s.

(** Truth value of a string and of a list. *)
Definition truthy (s : string) : bool :=
  match s with EmptyString => false | _ => true end.

Definition nonempty {A} (l : list A) : bool :=
  match l with [] => false | _ => true end.

(** [l[:k]] for an integer [k], negative [k] counting from the end. *)
Definition slice_to {A} (l : list A) (k : Z) : list A :=
  if 0 <=? k then firstn (Z.to_nat k) l
  else firstn (Z.to_nat (Z.of_nat (length l) + k)) l.

(** [s.replace(old, new)] for a non-empty [old]: occurrences are replaced
    left to right; [skip] counts the characters of a match still to pass. *)
Fixpoint replace_from (old new s : string) (skip : nat) : string :=
  match s with
  | EmptyString => EmptyString
  | String c s' =>
      match skip with
      | S k => replace_from old new s' k
      | O =>
          if String.prefix old s
          then new +:+ replace_from old new s' (String.length old - 1)
          else String c (replace_from old new s' 0)
      end
  end.

Definition replace (old new s : string) : string := replace_from old new s 0.

(** [s.split(sep)] for a single character [sep]. *)
Fixpoint split (sep : ascii) (s : string) : list string :=
  match s with
  | EmptyString => [EmptyString]
  | String c s' =>
      if Ascii.eqb c sep then EmptyString :: split sep s'
      else
        match split sep s' with
        | piece :: pieces => String c piece :: pieces
        | [] => [String c EmptyString]
        end
  end.

(** [x in l] for a list of strings. *)
Definition contains (x : string) (l : list string) : bool :=
  existsb (String.eqb x) l.

End Py.

(** ** Python floats *)
Module Float.

Local Open Scope Q_scope.

(** A Python [float] is a binary64 number: an arithmetic operation yields
    the representable number nearest to the exact result, a tie going to
    the one whose last binary place is even.  [round] is that rounding, on
    rationals; results stay within the range of binary64 (below [2^1024] in
    magnitude), beyond which Python yields [inf]. *)

(** [floor(log2 x)] for a positive [x]. *)
Definition ilog2 (x : Q) : Z :=
  let e := (Z.log2 (Qnum x) - Z.log2 (Z.pos (Qden x)))%Z in
  if Qle_bool (2 ^ e) x then e else (e - 1)%Z.

(** The nearest integer, a tie going to the even one. *)
Definition nearest_even (x : Q) : Z :=
  let f := Qfloor x in
  match Qcompare (x - inject_Z f) (1 # 2) with
  | Lt => f
  | Gt => (f + 1)%Z
  | Eq => if Z.even f then f else (f + 1)%Z
  end.

(** The exponent of the last binary place kept for [x]: 52 places below
    the leading one, and never below [2^-1074] (subnormal numbers). *)
Definition last_place (x : Q) : Z := (Z.max (ilog2 (Qabs x)) (-1022) - 52)%Z.

(** The float nearest to [x]. *)
Definition round (x : Q) : Q :=
  if Qeq_bool x 0 then 0
  else let q := 2 ^ last_place x in inject_Z (nearest_even (x / q)) * q.

(** [a * b] and [a / b] on floats, and on an integer below [2^53] in
    magnitude (which converts to a float exactly) and a float. *)
Definition mul (a b : Q) : Q := round (a * b).
Definition div (a b : Q) : Q := round (a / b).

End Float.

(** ** Text functions shared, word for word, by the two generators *)
Module Text.

Definition is_delim (c : ascii) : bool :=
  Ascii.eqb c " "%char || Ascii.eqb c ","%char.

(** The tokenising loop of [_optimal_line_break]: one step per character,
    carrying [tokens] and [current_token]. *)
Fixpoint tokenize_loop (text : string) (tokens : list string) (current_token : string)
  : list string * string :=
  match text with
  | EmptyString => (tokens, current_token)
  | String char rest =>
      if is_delim char then
        if Py.truthy current_token then
          if Ascii.eqb char ","%char
          then tokenize_loop rest (tokens ++ [current_token +:+ ","]) ""
          else tokenize_loop rest (tokens ++ [current_token]) ""
        else tokenize_loop rest tokens current_token
      else tokenize_loop rest tokens (current_token +:+ String char "")
  end.

Definition tokenize (text : string) : list string :=
  let '(tokens, current_token) := tokenize_loop text [] "" in
  if Py.truthy current_token then tokens ++ [current_token] else tokens.

(** [len(first_line) <= char_threshold] *)
Definition within (line : string) (char_threshold : Z) : bool :=
  Z.of_nat (Py.len line) <=? char_threshold.

(** Body of [for i in range(1, len(tokens))], on the pair
    [(best_break, best_first_line_len)]. *)
Definition break_step (tokens : list string) (char_threshold : Z)
    (st : nat * nat) (i : nat) : nat * nat :=
  let '(best_break, best_first_line_len) := st in
  let first_line := Py.join " " (firstn i tokens) in
  let first_line_len := Py.len first_line in
  if within first_line char_threshold then
    if (best_first_line_len <? first_line_len)%nat
    then (i, first_line_len)
    else (best_break, best_first_line_len)
  else (best_break, best_first_line_len).

Definition best_break (tokens : list string) (char_threshold : Z) : nat :=
  fst (fold_left (break_step tokens char_threshold)
                 (seq 1 (length tokens - 1)) (0%nat, 0%nat)).

Definition two_lines (tokens : list string) (char_threshold : Z) : list string :=
  let b := best_break tokens char_threshold in
  if (0 <? b)%nat then
    [Py.join " " (firstn b tokens); Py.join " " (skipn b tokens)]
  else
    let mid := (length tokens / 2)%nat in
    [Py.join " " (firstn mid tokens); Py.join " " (skipn mid tokens)].

(** The greedy loop, on [(lines, current_line)]; the [break] ends the
    recursion. *)
Fixpoint greedy_loop (tokens : list string) (char_threshold max_lines : Z)
    (lines current_line : list string) : list string * list string :=
  match tokens with
  | [] => (lines, current_line)
  | token :: rest =>
      let test_line := Py.join " " (current_line ++ [token]) in
      if within test_line char_threshold then
        greedy_loop rest char_threshold max_lines lines (current_line ++ [token])
      else
        let '(lines', current_line') :=
          if Py.nonempty current_line
          then (lines ++ [Py.join " " current_line], [token])
          else (lines ++ [token], current_line) in
        if max_lines <=? Z.of_nat (length lines')
        then (lines', current_line')
        else greedy_loop rest char_threshold max_lines lines' current_line'
  end.

Definition greedy (tokens : list string) (char_threshold max_lines : Z) : list string :=
  let '(lines, current_line) := greedy_loop tokens char_threshold max_lines [] [] in
  let lines :=
    if Py.nonempty current_line && (Z.of_nat (length lines) <? max_lines)
    then lines ++ [Py.join " " current_line]
    else lines in
  Py.slice_to lines max_lines.

(** [_optimal_line_break(text, char_threshold, max_lines)] *)
Definition _optimal_line_break (text : string) (char_threshold : Z) (max_lines : Z)
  : list string :=
  let tokens := tokenize text in
  if (length tokens =? 0)%nat then [text]
  else if (length tokens =? 1)%nat then [text]
  else if max_lines =? 2 then two_lines tokens char_threshold
  else greedy tokens char_threshold max_lines.

(** [_sanitize_filename(name)] *)
Definition safe_char (c : ascii) : ascii :=
  if Py.isalnum c || Ascii.eqb c " "%char || Ascii.eqb c "-"%char || Ascii.eqb c "_"%char
  then c else "_"%char.

Definition _sanitize_filename (name : string) : string :=
  let safe_name := Py.map_chars safe_char name in
  Py.lower (Py.replace_char " "%char "_"%char (Py.strip safe_name)).

End Text.

(** ** Specification vocabulary for the line breaker *)

(** The first line of a split at [i]: tokens [[0, i)] joined by single
    spaces; the second line is the rest. *)
Definition first_line (tokens : list string) (i : nat) : string :=
  Py.join " " (firstn i tokens).

Definition second_line (tokens : list string) (i : nat) : string :=
  Py.join " " (skipn i tokens).

(** A split point [i] in [[1, token_count)] whose first line does not exceed
    the threshold. *)
Definition valid_split (tokens : list string) (char_threshold : Z) (i : nat) : Prop :=
  (1 <= i < length tokens)%nat /\
  Z.of_nat (Py.len (first_line tokens i)) <= char_threshold.

(** What the search loop knows after the split points [1 .. k]: the pair is
    still [(0, 0)], or it holds a fitting split point and its length; and no
    fitting split point seen so far is longer. *)
Definition search_inv (tokens : list string) (thr : Z) (k : nat) (st : nat * nat) : Prop :=
  let '(b, L) := st in
  (b = 0%nat -> L = 0%nat) /\
  (b <> 0%nat -> (1 <= b <= k)%nat /\ Text.within (first_line tokens b) thr = true
                 /\ L = Py.len (first_line tokens b)) /\
  (forall i, (1 <= i <= k)%nat -> Text.within (first_line tokens i) thr = true ->
             (Py.len (first_line tokens i) <= L)%nat).

(** The greedy packer as the specification words it: tokens go to the current
    line while the joined length stays within the threshold; an overflow
    closes the line and starts a new one; once [room] lines are out, the
    remaining tokens are dropped. *)
Fixpoint greedy_pack (tokens : list string) (char_threshold : Z) (room : nat)
    (current : list string) : list string :=
  match tokens with
  | [] =>
      match room with
      | O => []
      | S _ => if Py.nonempty current then [Py.join " " current] else []
      end
  | token :: rest =>
      match room with
      | O => []
      | S room' =>
          if Text.within (Py.join " " (current ++ [token])) char_threshold
          then greedy_pack rest char_threshold room (current ++ [token])
          else if Py.nonempty current
               then Py.join " " current :: greedy_pack rest char_threshold room' [token]
               else token :: greedy_pack rest char_threshold room' []
      end
  end.

(** ** Exceptions, results and the drawing monad *)

Inductive exn : Type :=
| KeyError (key : string)
| TypeError
| ZeroDivisionError
| AttributeError
| ValueError.

Inductive res (A : Type) : Type :=
| Ok (a : A)
| Raise (e : exn).
Arguments Ok {A} a.
Arguments Raise {A} e.

(** A method that draws: its result and the canvas calls it made, in order. *)
Definition M (op A : Type) : Type := res A * list op.

Definition lift {op A} (r : res A) : M op A := (r, []).
Definition ret {op A} (a : A) : M op A := lift (Ok a).
Definition raise {op A} (e : exn) : M op A := lift (Raise e).
Definition call {op} (o : op) : M op unit := (Ok tt, [o]).

Definition bind {op A B} (m : M op A) (f : A -> M op B) : M op B :=
  match m with
  | (Ok a, t) => let '(r, t') := f a in (r, t ++ t')
  | (Raise e, t) => (Raise e, t)
  end.

(** [try: body except Exception as e: handler e] *)
Definition try_except {op A} (body : M op A) (handler : exn -> M op A) : M op A :=
  match body with
  | (Ok a, t) => (Ok a, t)
  | (Raise e, t) => let '(r, t') := handler e in (r, t ++ t')
  end.

Definition result {op A} (m : M op A) : res A := fst m.
Definition trace {op A} (m : M op A) : list op := snd m.

Declare Scope card_scope.
Delimit Scope card_scope with card.
Notation "'let!' x := m 'in' k" := (bind m (fun x => k))
  (at level 10, x pattern, m at level 100, k at level 200) : card_scope.
Notation "'do!' m 'in' k" := (bind m (fun _ => k))
  (at level 10, m at level 100, k at level 200) : card_scope.
Open Scope card_scope.

(** [for i, x in enumerate(l, start): body i x] *)
Fixpoint for_enumerate {op A} (l : list A) (start : Z) (body : Z -> A -> M op unit)
  : M op unit :=
  match l with
  | [] => ret tt
  | x :: l' => do! body start x in for_enumerate l' (start + 1) body
  end.

(** ** The configuration: the dict that [json.load] returns *)

Inductive pyval : Type :=
| VInt (z : Z)
| VFloat (q : Q)
| VStr (s : string)
| VList (l : list string).

Module Cfg.

Definition to_num (v : pyval) : res Q :=
  match v with
  | VInt z => Ok (inject_Z z)
  | VFloat q => Ok q
  | _ => Raise TypeError
  end.

Definition to_int (v : pyval) : res Z :=
  match v with VInt z => Ok z | _ => Raise TypeError end.

Definition to_str (v : pyval) : res string :=
  match v with VStr s => Ok s | _ => Raise TypeError end.

Definition to_list (v : pyval) : res (list string) :=
  match v with VList l => Ok l | _ => Raise TypeError end.

(** [cfg[key]] *)
Definition item (cfg : gmap string pyval) (key : string) : res pyval :=
  match cfg !! key with
  | Some v => Ok v
  | None => Raise (KeyError key)
  end.

(** [cfg.get(key, default)] *)
Definition get (cfg : gmap string pyval) (key : string) (default : pyval) : pyval :=
  match cfg !! key with
  | Some v => v
  | None => default
  end.

(** [cfg[key]], read as a number or as a string. *)
Definition num_at (cfg : gmap string pyval) (key : string) : res Q :=
  match item cfg key with Ok v => to_num v | Raise e => Raise e end.
Definition str_at (cfg : gmap string pyval) (key : string) : res string :=
  match item cfg key with Ok v => to_str v | Raise e => Raise e end.

(** [cfg.get(key, default)], read at the type of the default. *)
Definition num_or (cfg : gmap string pyval) (key : string) (default : Z) : res Q :=
  to_num (get cfg key (VInt default)).
Definition int_or (cfg : gmap string pyval) (key : string) (default : Z) : res Z :=
  to_int (get cfg key (VInt default)).
Definition str_or (cfg : gmap string pyval) (key : string) (default : string) : res string :=
  to_str (get cfg key (VStr default)).
Definition list_or (cfg : gmap string pyval) (key : string) (default : list string)
  : res (list string) :=
  to_list (get cfg key (VList default)).

(** The same reads inside a drawing method: they draw nothing. *)
Definition num {op} cfg key : M op Q := lift (num_at cfg key).
Definition str {op} cfg key : M op string := lift (str_at cfg key).
Definition get_num {op} cfg key default : M op Q := lift (num_or cfg key default).
Definition get_int {op} cfg key default : M op Z := lift (int_or cfg key default).
Definition get_str {op} cfg key default : M op string := lift (str_or cfg key default).
Definition get_list {op} cfg key default : M op (list string) :=
  lift (list_or cfg key default).

End Cfg.

(** ** A run of the program *)

(** How a call at the top level ends: it returns, an exception escapes (the
    interpreter prints the traceback and exits with status 1), or
    [sys.exit(code)] was called. *)
Inductive outcome (A : Type) : Type :=
| Returned (a : A)
| Uncaught (e : exn)
| SysExit (code : Z).
Arguments Returned {A} a.
Arguments Uncaught {A} e.
Arguments SysExit {A} code.

Definition exit_status {A} (o : outcome A) : Z :=
  match o with
  | Returned _ => 0
  | Uncaught _ => 1
  | SysExit code => code
  end.

(** What [open] and [json.load] make of the configuration file. *)
Inductive load_result : Type :=
| Loaded (cfg : gmap string pyval)
| FileNotFoundError
| JSONDecodeError.

(** The summary printed by [generate_all_cards], and the output files saved. *)
Record report : Type := {
  total : Z;
  success_count : Z;
  fail_count : Z;
  written : list string
}.

(** [row.get(key, '').strip()] on a row of [csv.DictReader]; a short row
    holds [None] for its missing fields. *)
Definition row_field (row : gmap string (option string)) (key : string) : outcome string :=
  match row !! key with
  | None => Returned (Py.strip "")
  | Some (Some s) => Returned (Py.strip s)
  | Some None => Uncaught AttributeError
  end.

(** ** The vector backend: [generate_cards.py] *)
Module Pdf.

Local Open Scope Q_scope.

(** What [CardGenerator] asks of its surroundings. *)
Record env : Type := {
  (** [self.base_dir / path] *)
  base_dir : string -> string;
  (** [_validate_image(path)] *)
  valid_image : string -> bool;
  (** [_get_image_dimensions(path)], in pixels *)
  image_size : string -> Z * Z;
  (** [c.stringWidth(text, font, font_size)] *)
  stringWidth : string -> string -> Q -> Q;
  (** [Paragraph(text, style).wrap(avail_width, avail_height)] for the
      centred Helvetica style of the given font size *)
  paragraph_wrap : string -> Q -> Q -> Q -> Q * Q;
  (** [json.load(open(config_path))] *)
  load_json : string -> load_result;
  (** the rows of the CSV file at a path, [None] when it does not exist *)
  read_csv : string -> option (list (gmap string (option string)))
}.

(** The calls made on the ReportLab canvas [c]. *)
Inductive op : Type :=
| Canvas (output_path : string) (page_width page_height : Q)
| setFillColor (color : string)
| setStrokeColor (color : string)
| setLineWidth (width : Q)
| setFont (font : string) (size : Q)
| rect (x y width height : Q)
| line (x1 y1 x2 y2 : Q)
| drawImage (path : string) (x y width height : Q)
| drawString (x y : Q) (text : string)
| drawOn (text : string) (font_size x y : Q)
| save.

(** The calls that put something on the page. *)
Definition paints (o : op) : bool :=
  match o with
  | rect _ _ _ _ | line _ _ _ _ | drawImage _ _ _ _ _
  | drawString _ _ _ | drawOn _ _ _ _ => true
  | _ => false
  end.

Definition is_save (o : op) : bool :=
  match o with save => true | _ => false end.

(** [a / b] *)
Definition div (a b : Q) : M op Q :=
  if Qeq_bool b 0 then raise ZeroDivisionError else ret (a / b).

(** [a / b] as the float that Python keeps, where an integer is taken from
    the result. *)
Definition float_div (a b : Q) : M op Q :=
  if Qeq_bool b 0 then raise ZeroDivisionError else ret (Float.div a b).

Definition when (b : bool) (m : M op unit) : M op unit :=
  if b then m else ret tt.

(** Geometry of [_draw_centered_image]: scale, final size and offset. *)
Record placement : Type := {
  scale : Q;
  final_width : Q;
  final_height : Q;
  x_offset : Q;
  y_offset : Q
}.

Definition fill_placement (img_width img_height : Z)
    (x y width height max_width max_height : Q) : M op placement :=
  let! scale_h := div max_height (inject_Z img_height) in
  let! scale_w := div max_width (inject_Z img_width) in
  let scale := Py.max scale_w scale_h in
  let final_width := inject_Z img_width * scale in
  let final_height := inject_Z img_height * scale in
  ret {| scale := scale;
         final_width := final_width;
         final_height := final_height;
         x_offset := x + (width - final_width) / 2;
         y_offset := y |}.

Definition _draw_centered_image (E : env) (image_path : string)
    (x y width height max_width max_height : Q) : M op unit :=
  let '(img_width, img_height) := image_size E image_path in
  let! p := fill_placement img_width img_height x y width height max_width max_height in
  call (drawImage image_path (x_offset p) (y_offset p) (final_width p) (final_height p)).

(** Single-line mode of [_draw_centered_text], up to the re-measure: the
    font size used and the text width at that size. *)
Definition fit_single_line (E : env) (text font : string)
    (width font_size text_padding : Q) : M op (Q * Q) :=
  let text_width := stringWidth E text font font_size in
  let max_width := width - 2 * text_padding in
  if Py.gt text_width max_width then
    let! scale_factor := float_div max_width text_width in
    let font_size := inject_Z (Py.int (Float.mul font_size scale_factor)) in
    do! call (setFont font font_size) in
    ret (font_size, stringWidth E text font font_size)
  else ret (font_size, text_width).

Definition _draw_centered_text (E : env) (text : string)
    (x y width height font_size : Q) (bold : bool) (text_padding : Q)
    (allow_multiline : bool) (max_lines char_threshold : Z) : M op unit :=
  let font := if bold then "Helvetica-Bold" else "Helvetica" in
  do! call (setFont font font_size) in
  if negb allow_multiline || (max_lines =? 1)%Z then
    let! (font_size, text_width) :=
      fit_single_line E text font width font_size text_padding in
    let text_x := x + (width - text_width) / 2 in
    let text_y := y + (height - font_size) / 2 in
    call (drawString text_x text_y text)
  else
    let lines := Text._optimal_line_break text char_threshold max_lines in
    let line_height := font_size * 1.2 in
    let n := inject_Z (Z.of_nat (length lines)) in
    let total_height := n * line_height in
    let start_y := y + (height - total_height) / 2 + (n - 1) * line_height in
    for_enumerate lines 0%Z (fun i line =>
      let line_width := stringWidth E line font font_size in
      let text_x := x + (width - line_width) / 2 in
      let text_y := start_y - inject_Z i * line_height in
      call (drawString text_x text_y line)).

Definition _draw_wrapped_text (E : env) (text : string)
    (x y width height font_size text_padding : Q) : M op unit :=
  let '(para_width, para_height) :=
    paragraph_wrap E text font_size (width - 2 * text_padding) height in
  let y_offset := y + (height - para_height) / 2 in
  call (drawOn text font_size (x + text_padding) y_offset).

(** The four border tests that follow each box of [generate_card]. *)
Definition draw_borders (sides : list string) (x y width height : Q) : M op unit :=
  do! when (Py.contains "left" sides) (call (line x y x (y + height))) in
  do! when (Py.contains "right" sides)
        (call (line (x + width) y (x + width) (y + height))) in
  do! when (Py.contains "top" sides)
        (call (line x (y + height) (x + width) (y + height))) in
  when (Py.contains "bottom" sides) (call (line x y (x + width) y)).

(** Name tier of [generate_card]: threshold, box height, font size,
    multiline flag. *)
Definition name_tier (cfg : gmap string pyval) (person_name : string)
  : M op (Z * Q * Q * bool) :=
  let! name_length_threshold := Cfg.get_int cfg "name_length_threshold" 22 in
  let is_long_name := (name_length_threshold <? Z.of_nat (Py.len person_name))%Z in
  if is_long_name then
    let! name_height := Cfg.num cfg "name_box_height_pt_long" in
    let! name_font_size := Cfg.num cfg "name_font_size_pt_long" in
    ret (name_length_threshold, name_height, name_font_size, true)
  else
    let! name_height := Cfg.num cfg "name_box_height_pt_short" in
    let! name_font_size := Cfg.num cfg "name_font_size_pt_short" in
    ret (name_length_threshold, name_height, name_font_size, false).

(** Top edges of the sections, measured from the top of the page. *)
Record tops : Type := {
  y_top_photo : Q;
  y_top_name : Q;
  y_top_qr : Q;
  y_top_message : Q;
  y_top_bottom_box : Q
}.

Definition section_tops (top_padding top_margin photo_height name_height
    qr_height gap_before_msg message_height : Q) : tops :=
  let y_top_photo := top_padding + top_margin in
  let y_top_name := y_top_photo + photo_height in
  let y_top_qr := y_top_name + name_height in
  let y_top_message := y_top_qr + qr_height + gap_before_msg in
  let y_top_bottom_box := y_top_message + message_height in
  {| y_top_photo := y_top_photo;
     y_top_name := y_top_name;
     y_top_qr := y_top_qr;
     y_top_message := y_top_message;
     y_top_bottom_box := y_top_bottom_box |}.

(** Conversion to ReportLab's bottom-up coordinate of a box's lower edge. *)
Definition bottom_up (page_height bottom_padding y_top height : Q) : Q :=
  page_height - y_top - height - bottom_padding.

(** The [try] block of [generate_card]. *)
Definition card_body (E : env) (cfg : gmap string pyval)
    (person_name full_image_path qr_code_path output_path : string) : M op bool :=
  let! page_width := Cfg.num cfg "page_width_pt" in
  let! page_height := Cfg.num cfg "page_height_pt" in
  let! h_padding := Cfg.num cfg "horizontal_padding_pt" in
  let! top_padding := Cfg.get_num cfg "top_padding_pt" 0 in
  let! bottom_padding := Cfg.get_num cfg "bottom_padding_pt" 0 in
  let! top_margin := Cfg.num cfg "top_margin_pt" in
  let! text_padding := Cfg.get_num cfg "text_horizontal_padding_pt" 10 in
  let content_width := page_width - 2 * h_padding in
  let! (name_length_threshold, name_height, name_font_size, name_multiline) :=
    name_tier cfg person_name in
  let! photo_height := Cfg.num cfg "photo_section_height_pt" in
  let! qr_height := Cfg.num cfg "qr_section_height_pt" in
  let! gap_before_msg := Cfg.num cfg "gap_before_message_pt" in
  let! message_height := Cfg.num cfg "message_box_height_pt" in
  let! bottom_box_height := Cfg.get_num cfg "bottom_box_height_pt" 0 in
  let t := section_tops top_padding top_margin photo_height name_height
             qr_height gap_before_msg message_height in
  let y_photo := bottom_up page_height bottom_padding (y_top_photo t) photo_height in
  let y_name := bottom_up page_height bottom_padding (y_top_name t) name_height in
  let y_qr := bottom_up page_height bottom_padding (y_top_qr t) qr_height in
  let y_message := bottom_up page_height bottom_padding (y_top_message t) message_height in
  let y_bottom_box :=
    bottom_up page_height bottom_padding (y_top_bottom_box t) bottom_box_height in
  do! call (Canvas output_path page_width page_height) in
  (* 1. page background *)
  let! background_color := Cfg.str cfg "background_color" in
  do! call (setFillColor background_color) in
  do! call (rect 0 0 page_width page_height) in
  (* 2. photo section *)
  do! _draw_centered_image E full_image_path h_padding y_photo
        content_width photo_height content_width photo_height in
  (* 3. name box *)
  let! name_h_margin := Cfg.get_num cfg "name_box_horizontal_margin_pt" 0 in
  let name_box_x := h_padding + name_h_margin in
  let name_box_width := content_width - 2 * name_h_margin in
  do! call (setFillColor "#FFFFFF") in
  do! call (rect name_box_x y_name name_box_width name_height) in
  let! name_border_sides := Cfg.get_list cfg "name_box_border_sides" [] in
  let! name_border_width := Cfg.get_num cfg "name_box_border_width_pt" 2 in
  let! name_border_color := Cfg.get_str cfg "name_box_border_color" "#000000" in
  do! call (setStrokeColor name_border_color) in
  do! call (setLineWidth name_border_width) in
  do! draw_borders name_border_sides name_box_x y_name name_box_width name_height in
  do! call (setFillColor "#000000") in
  let! name_max_lines := Cfg.get_int cfg "name_max_lines" 2 in
  do! _draw_centered_text E person_name name_box_x y_name name_box_width name_height
        name_font_size false text_padding name_multiline
        name_max_lines name_length_threshold in
  (* 4. QR section *)
  do! call (setFillColor "#FFFFFF") in
  do! call (rect h_padding y_qr content_width qr_height) in
  let! qr_border_sides := Cfg.get_list cfg "qr_section_border_sides" [] in
  let! qr_border_width := Cfg.get_num cfg "qr_section_border_width_pt" 2 in
  let! qr_border_color := Cfg.get_str cfg "qr_section_border_color" "#000000" in
  do! call (setStrokeColor qr_border_color) in
  do! call (setLineWidth qr_border_width) in
  do! draw_borders qr_border_sides h_padding y_qr content_width qr_height in
  let! qr_size := Cfg.num cfg "qr_code_size_pt" in
  let qr_x := h_padding + (content_width - qr_size) / 2 in
  let qr_y := y_qr + (qr_height - qr_size) / 2 in
  do! call (drawImage qr_code_path qr_x qr_y qr_size qr_size) in
  (* 5. message box *)
  do! call (setFillColor "#FFFFFF") in
  do! call (rect h_padding y_message content_width message_height) in
  let! msg_border_sides := Cfg.get_list cfg "message_box_border_sides" [] in
  let! msg_border_width := Cfg.get_num cfg "message_box_border_width_pt" 2 in
  let! msg_border_color := Cfg.get_str cfg "message_box_border_color" "#000000" in
  do! call (setStrokeColor msg_border_color) in
  do! call (setLineWidth msg_border_width) in
  do! draw_borders msg_border_sides h_padding y_message content_width message_height in
  do! call (setFillColor "#000000") in
  let! message_text := Cfg.str cfg "message_text" in
  let! message_font_size := Cfg.num cfg "message_font_size_pt" in
  do! _draw_wrapped_text E message_text h_padding y_message content_width
        message_height message_font_size text_padding in
  (* 6. bottom box *)
  do! when (Py.gt bottom_box_height 0)
        (let! bottom_h_margin := Cfg.get_num cfg "bottom_box_horizontal_margin_pt" 0 in
         let bottom_box_x := h_padding + bottom_h_margin in
         let bottom_box_width := content_width - 2 * bottom_h_margin in
         do! call (setFillColor "#FFFFFF") in
         call (rect bottom_box_x y_bottom_box bottom_box_width bottom_box_height)) in
  do! call save in
  ret true.

(** [generate_card(person_name, person_image_path, output_path)] *)
Definition generate_card (E : env) (cfg : gmap string pyval)
    (person_name person_image_path output_path : string) : M op bool :=
  let full_image_path := base_dir E person_image_path in
  if negb (valid_image E full_image_path) then ret false else
  let! qr_rel := Cfg.str cfg "qr_code_path" in
  let qr_code_path := base_dir E qr_rel in
  if negb (valid_image E qr_code_path) then ret false else
  try_except
    (card_body E cfg person_name full_image_path qr_code_path output_path)
    (fun _ => ret false).

(** The loop of [generate_all_cards], on the two counters and the files
    saved so far. *)
Fixpoint cards_loop (E : env) (cfg : gmap string pyval) (output_dir : string)
    (data : list (gmap string (option string)))
    (success_count fail_count : Z) (written : list string)
  : outcome (Z * Z * list string) :=
  match data with
  | [] => Returned (success_count, fail_count, written)
  | row :: rest =>
      match row_field row "name" with
      | Returned person_name =>
          match row_field row "image" with
          | Returned person_image =>
              if negb (Py.truthy person_name) || negb (Py.truthy person_image) then
                cards_loop E cfg output_dir rest success_count (fail_count + 1) written
              else
                let safe_name := Text._sanitize_filename person_name in
                let output_filename := safe_name +:+ ".pdf" in
                let output_path := output_dir +:+ "/" +:+ output_filename in
                match result (generate_card E cfg person_name person_image output_path) with
                | Ok true =>
                    cards_loop E cfg output_dir rest (success_count + 1) fail_count
                      (written ++ [output_path])
                | Ok false =>
                    cards_loop E cfg output_dir rest success_count (fail_count + 1) written
                | Raise e => Uncaught e
                end
          | Uncaught e => Uncaught e
          | SysExit code => SysExit code
          end
      | Uncaught e => Uncaught e
      | SysExit code => SysExit code
      end
  end.

(** [generate_all_cards()] *)
Definition generate_all_cards (E : env) (cfg : gmap string pyval) : outcome report :=
  match cfg !! "output_directory" with
  | None => Uncaught (KeyError "output_directory")
  | Some (VStr dir) =>
      let output_dir := base_dir E dir in
      match cfg !! "input_csv" with
      | None => Uncaught (KeyError "input_csv")
      | Some (VStr csv) =>
          match read_csv E (base_dir E csv) with
          | None => SysExit 1
          | Some data =>
              match cards_loop E cfg output_dir data 0 0 [] with
              | Returned (success_count, fail_count, written) =>
                  Returned {| total := Z.of_nat (length data);
                              success_count := success_count;
                              fail_count := fail_count;
                              written := written |}
              | Uncaught e => Uncaught e
              | SysExit code => SysExit code
              end
          end
      | Some _ => Uncaught TypeError
      end
  | Some _ => Uncaught TypeError
  end.

(** [sys.argv[1] if len(sys.argv) > 1 else "config.json"] *)
Definition config_file (argv : list string) : string :=
  match argv with
  | _ :: arg :: _ => arg
  | _ => "config.json"
  end.

(** [main()], with [argv = sys.argv]. *)
Definition main (E : env) (argv : list string) : outcome report :=
  match load_json E (config_file argv) with
  | Loaded cfg => generate_all_cards E cfg
  | FileNotFoundError => SysExit 1
  | JSONDecodeError => SysExit 1
  end.

End Pdf.

(** ** The raster backend: [generate_png_cards.py] *)
Module Png.

Local Open Scope Z_scope.

(** What [PNGCardGenerator] asks of its surroundings. *)
Record env : Type := {
  (** [self.base_dir / path] *)
  base_dir : string -> string;
  (** [_validate_image(path)] *)
  valid_image : string -> bool;
  (** [Image.open(path).size], in pixels *)
  image_size : string -> Z * Z;
  (** [draw.textbbox((0, 0), text, font=self._get_font(size, bold))] *)
  textbbox : string -> Z -> bool -> Z * Z * Z * Z;
  (** [json.load(open(config_path))] *)
  load_json : string -> load_result;
  (** the rows of the CSV file at a path, [None] when it does not exist *)
  read_csv : string -> option (list (gmap string (option string)))
}.

(** A fill: a colour name, or the RGB tuple of a configured hex colour. *)
Inductive colour : Type :=
| named (name : string)
| rgb (hex : string).

(** The calls made on the PIL image and its [ImageDraw]. *)
Inductive op : Type :=
| new_image (width height : Z) (background : option string)
| paste (path : string) (width height x y : Z)
| rectangle (x0 y0 x1 y1 : Z) (fill : colour)
| text (x y : Z) (s : string) (font_size : Z) (bold : bool)
| save (output_path : string).

Definition paints (o : op) : bool :=
  match o with
  | paste _ _ _ _ _ | rectangle _ _ _ _ _ | text _ _ _ _ _ => true
  | _ => false
  end.

(** [a / b] on two integers: true division, the float nearest to the
    quotient. *)
Definition div (a b : Z) : M op Q :=
  if b =? 0 then raise ZeroDivisionError else ret (Float.div (inject_Z a) (inject_Z b)).

Definition when (b : bool) (m : M op unit) : M op unit :=
  if b then m else ret tt.

(** The local function [scale] of [generate_card]. *)
Definition scale (scale_factor : Z) (val : Q) : Z :=
  Py.int (val * inject_Z scale_factor)%Q.

(** Geometry of [_paste_centered_image]. *)
Record placement : Type := {
  fill_scale : Q;
  final_width : Z;
  final_height : Z;
  x_offset : Z;
  y_offset : Z
}.

Definition fill_placement (img_width img_height : Z) (x y width height : Z)
  : M op placement :=
  let! scale_h := div height img_height in
  let! scale_w := div width img_width in
  let scale := Py.max scale_w scale_h in
  let final_width := Py.int (Float.mul (inject_Z img_width) scale) in
  let final_height := Py.int (Float.mul (inject_Z img_height) scale) in
  ret {| fill_scale := scale;
         final_width := final_width;
         final_height := final_height;
         x_offset := x + (width - final_width) / 2;
         y_offset := y |}.

Definition _paste_centered_image (E : env) (image_path : string)
    (x y width height : Z) : M op unit :=
  let '(img_width, img_height) := image_size E image_path in
  let! p := fill_placement img_width img_height x y width height in
  call (paste image_path (final_width p) (final_height p) (x_offset p) (y_offset p)).

Definition bbox_width (b : Z * Z * Z * Z) : Z :=
  let '(x0, y0, x1, y1) := b in x1 - x0.
Definition bbox_height (b : Z * Z * Z * Z) : Z :=
  let '(x0, y0, x1, y1) := b in y1 - y0.

(** Single-line mode of [_draw_centered_text], up to the re-measure: the
    font size used, the text width and the text height at that size. *)
Definition fit_single_line (E : env) (s : string) (bold : bool)
    (width font_size text_padding : Z) : M op (Z * Z * Z) :=
  let bbox := textbbox E s font_size bold in
  let text_width := bbox_width bbox in
  let text_height := bbox_height bbox in
  let max_width := width - 2 * text_padding in
  if max_width <? text_width then
    let! scale_factor := div max_width text_width in
    let new_font_size := Py.int (Float.mul (inject_Z font_size) scale_factor) in
    let bbox := textbbox E s new_font_size bold in
    ret (new_font_size, bbox_width bbox, bbox_height bbox)
  else ret (font_size, text_width, text_height).

Definition _draw_centered_text (E : env) (s : string)
    (x y width height font_size : Z) (bold : bool) (text_padding : Z)
    (allow_multiline : bool) (max_lines char_threshold : Z) : M op unit :=
  if negb allow_multiline || (max_lines =? 1) then
    let! (used_size, text_width, text_height) :=
      fit_single_line E s bold width font_size text_padding in
    let text_x := x + (width - text_width) / 2 in
    let text_y := y + (height - text_height) / 2 in
    call (text text_x text_y s used_size bold)
  else
    let lines := Text._optimal_line_break s char_threshold max_lines in
    let line_height := Py.int (inject_Z font_size * 1.2)%Q in
    let total_height := Z.of_nat (length lines) * line_height in
    let start_y := y + (height - total_height) / 2 in
    for_enumerate lines 0 (fun i line =>
      let line_width := bbox_width (textbbox E line font_size bold) in
      let text_x := x + (width - line_width) / 2 in
      let text_y := start_y + i * line_height in
      call (text text_x text_y line font_size bold)).

Definition _draw_wrapped_text (E : env) (s : string)
    (x y width height font_size text_padding : Z) : M op unit :=
  let s := Py.replace "<br/>" (String "010"%char "") s in
  let lines := Py.split "010"%char s in
  let line_height := Py.int (inject_Z font_size * 1.25)%Q in
  let total_height := Z.of_nat (length lines) * line_height in
  let start_y := y + (height - total_height) / 2 in
  for_enumerate lines 0 (fun i line =>
    let line_width := bbox_width (textbbox E line font_size false) in
    let text_x := x + (width - line_width) / 2 in
    let text_y := start_y + i * line_height in
    call (text text_x text_y line font_size false)).

(** The value of a hexadecimal digit. *)
Definition hex_digit (c : ascii) : option Z :=
  let n := Py.code c in
  if Py.between 48 57 n then Some (Z.of_N n - 48)
  else if Py.between 65 70 n then Some (Z.of_N n - 55)
  else if Py.between 97 102 n then Some (Z.of_N n - 87)
  else None.

(** The white space that [int] skips at either end of its argument. *)
Definition int_space (c : ascii) : bool :=
  let n := Py.code c in
  (Py.between 9 13 n || (n =? 32) || (n =? 133) || (n =? 160))%N.

(** [int(s, 16)] for a slice [s] of at most two characters, where neither a
    [0x] prefix nor an underscore can be part of a number; [None] stands for
    [ValueError]. *)
Definition int16 (s : string) : option Z :=
  match s with
  | String a EmptyString => hex_digit a
  | String a (String b EmptyString) =>
      match hex_digit a, hex_digit b with
      | Some x, Some y => Some (16 * x + y)
      | Some x, None => if int_space b then Some x else None
      | None, Some y =>
          if int_space a || Ascii.eqb a "+"%char then Some y
          else if Ascii.eqb a "-"%char then Some (- y)
          else None
      | None, None => None
      end
  | _ => None
  end.

(** [hex_color.lstrip('#')] *)
Fixpoint lstrip_hash (hex_color : string) : string :=
  match hex_color with
  | EmptyString => EmptyString
  | String c rest => if Ascii.eqb c "#"%char then lstrip_hash rest else hex_color
  end.

(** [_hex_to_rgb(hex_color)]: the three components, or [None] when one of
    the three conversions raises [ValueError]. *)
Definition _hex_to_rgb (hex_color : string) : option (Z * Z * Z) :=
  let hex_color := lstrip_hash hex_color in
  match int16 (substring 0 2 hex_color) with
  | Some r =>
      match int16 (substring 2 2 hex_color) with
      | Some g =>
          match int16 (substring 4 2 hex_color) with
          | Some b => Some (r, g, b)
          | None => None
          end
      | None => None
      end
  | None => None
  end.

(** The same call inside a drawing method. *)
Definition hex_to_rgb (hex_color : string) : M op (Z * Z * Z) :=
  match _hex_to_rgb hex_color with
  | Some c => ret c
  | None => raise ValueError
  end.

(** The border block that follows each box of [generate_card]: when the
    list of sides is not empty, the colour is converted and the four tests
    are run. *)
Definition draw_borders (sides : list string) (color : string)
    (x y width height border_width : Z) : M op unit :=
  when (Py.nonempty sides)
    (do! hex_to_rgb color in
     let border_rgb := rgb color in
     do! when (Py.contains "left" sides)
           (call (rectangle x y (x + border_width) (y + height) border_rgb)) in
     do! when (Py.contains "right" sides)
           (call (rectangle (x + width - border_width) y (x + width) (y + height)
                    border_rgb)) in
     do! when (Py.contains "top" sides)
           (call (rectangle x y (x + width) (y + border_width) border_rgb)) in
     when (Py.contains "bottom" sides)
       (call (rectangle x (y + height - border_width) (x + width) (y + height)
                border_rgb))).

(** The creation of the canvas in [generate_card]: transparent, or filled
    with the configured colour. *)
Definition new_canvas (page_width page_height : Z) (bg_color_str : string) : M op unit :=
  let use_transparent := Py.contains (Py.lower bg_color_str) ["transparent"; ""; "none"] in
  if use_transparent then call (new_image page_width page_height None)
  else
    do! hex_to_rgb bg_color_str in
    call (new_image page_width page_height (Some bg_color_str)).

(** Name tier of [generate_card]: threshold, box height and font size in
    points, multiline flag. *)
Definition name_tier (cfg : gmap string pyval) (person_name : string)
  : M op (Z * Q * Q * bool) :=
  let! name_length_threshold := Cfg.get_int cfg "name_length_threshold" 22 in
  let is_long_name := name_length_threshold <? Z.of_nat (Py.len person_name) in
  if is_long_name then
    let! name_height := Cfg.num cfg "name_box_height_pt_long" in
    let! name_font_size := Cfg.num cfg "name_font_size_pt_long" in
    ret (name_length_threshold, name_height, name_font_size, true)
  else
    let! name_height := Cfg.num cfg "name_box_height_pt_short" in
    let! name_font_size := Cfg.num cfg "name_font_size_pt_short" in
    ret (name_length_threshold, name_height, name_font_size, false).

(** Top edges of the sections, in pixels from the top of the image. *)
Record tops : Type := {
  y_photo : Z;
  y_name : Z;
  y_qr : Z;
  y_message : Z;
  y_bottom_box : Z
}.

Definition section_tops (top_padding top_margin photo_height name_height
    qr_height gap_before_msg message_height : Z) : tops :=
  let y_photo := top_padding + top_margin in
  let y_name := y_photo + photo_height in
  let y_qr := y_name + name_height in
  let y_message := y_qr + qr_height + gap_before_msg in
  let y_bottom_box := y_message + message_height in
  {| y_photo := y_photo;
     y_name := y_name;
     y_qr := y_qr;
     y_message := y_message;
     y_bottom_box := y_bottom_box |}.

(** The [try] block of [generate_card]. *)
Definition card_body (E : env) (scale_factor : Z) (cfg : gmap string pyval)
    (person_name full_image_path qr_code_path output_path : string) : M op bool :=
  let scale := scale scale_factor in
  let! page_width_pt := Cfg.num cfg "page_width_pt" in
  let page_width := scale page_width_pt in
  let! page_height_pt := Cfg.num cfg "page_height_pt" in
  let page_height := scale page_height_pt in
  let! h_padding_pt := Cfg.num cfg "horizontal_padding_pt" in
  let h_padding := scale h_padding_pt in
  let! top_padding_pt := Cfg.get_num cfg "top_padding_pt" 0 in
  let top_padding := scale top_padding_pt in
  let! bottom_padding_pt := Cfg.get_num cfg "bottom_padding_pt" 0 in
  let bottom_padding := scale bottom_padding_pt in
  let! top_margin_pt := Cfg.num cfg "top_margin_pt" in
  let top_margin := scale top_margin_pt in
  let! text_padding_pt := Cfg.get_num cfg "text_horizontal_padding_pt" 10 in
  let text_padding := scale text_padding_pt in
  let content_width := page_width - 2 * h_padding in
  let! (name_length_threshold, name_height_pt, name_font_size_pt, name_multiline) :=
    name_tier cfg person_name in
  let name_height := scale name_height_pt in
  let name_font_size := scale name_font_size_pt in
  let! photo_height_pt := Cfg.num cfg "photo_section_height_pt" in
  let photo_height := scale photo_height_pt in
  let! qr_height_pt := Cfg.num cfg "qr_section_height_pt" in
  let qr_height := scale qr_height_pt in
  let! gap_before_msg_pt := Cfg.num cfg "gap_before_message_pt" in
  let gap_before_msg := scale gap_before_msg_pt in
  let! message_height_pt := Cfg.num cfg "message_box_height_pt" in
  let message_height := scale message_height_pt in
  let! bottom_box_height_pt := Cfg.get_num cfg "bottom_box_height_pt" 0 in
  let bottom_box_height := scale bottom_box_height_pt in
  let t := section_tops top_padding top_margin photo_height name_height
             qr_height gap_before_msg message_height in
  (* canvas with its background *)
  let! bg_color_str := Cfg.get_str cfg "background_color" "#8DC5FE" in
  do! new_canvas page_width page_height bg_color_str in
  (* 1. photo section *)
  do! _paste_centered_image E full_image_path h_padding (y_photo t)
        content_width photo_height in
  (* 2. name box *)
  let! name_h_margin_pt := Cfg.get_num cfg "name_box_horizontal_margin_pt" 0 in
  let name_h_margin := scale name_h_margin_pt in
  let name_box_x := h_padding + name_h_margin in
  let name_box_width := content_width - 2 * name_h_margin in
  do! call (rectangle name_box_x (y_name t) (name_box_x + name_box_width)
             (y_name t + name_height) (named "white")) in
  let! name_border_sides := Cfg.get_list cfg "name_box_border_sides" [] in
  let! name_border_width_pt := Cfg.get_num cfg "name_box_border_width_pt" 2 in
  let name_border_width := scale name_border_width_pt in
  let! name_border_color := Cfg.get_str cfg "name_box_border_color" "#000000" in
  do! draw_borders name_border_sides name_border_color
        name_box_x (y_name t) name_box_width name_height name_border_width in
  let! name_max_lines := Cfg.get_int cfg "name_max_lines" 2 in
  do! _draw_centered_text E person_name name_box_x (y_name t) name_box_width name_height
        name_font_size false text_padding name_multiline
        name_max_lines name_length_threshold in
  (* 3. QR section *)
  do! call (rectangle h_padding (y_qr t) (h_padding + content_width)
             (y_qr t + qr_height) (named "white")) in
  let! qr_border_sides := Cfg.get_list cfg "qr_section_border_sides" [] in
  let! qr_border_width_pt := Cfg.get_num cfg "qr_section_border_width_pt" 2 in
  let qr_border_width := scale qr_border_width_pt in
  let! qr_border_color := Cfg.get_str cfg "qr_section_border_color" "#000000" in
  do! draw_borders qr_border_sides qr_border_color
        h_padding (y_qr t) content_width qr_height qr_border_width in
  let! qr_size_pt := Cfg.num cfg "qr_code_size_pt" in
  let qr_size := scale qr_size_pt in
  let qr_x := h_padding + (content_width - qr_size) / 2 in
  let qr_y_pos := y_qr t + (qr_height - qr_size) / 2 in
  do! call (paste qr_code_path qr_size qr_size qr_x qr_y_pos) in
  (* 4. message box *)
  do! call (rectangle h_padding (y_message t) (h_padding + content_width)
             (y_message t + message_height) (named "white")) in
  let! msg_border_sides := Cfg.get_list cfg "message_box_border_sides" [] in
  let! msg_border_width_pt := Cfg.get_num cfg "message_box_border_width_pt" 2 in
  let msg_border_width := scale msg_border_width_pt in
  let! msg_border_color := Cfg.get_str cfg "message_box_border_color" "#000000" in
  do! draw_borders msg_border_sides msg_border_color
        h_padding (y_message t) content_width message_height msg_border_width in
  let! message_font_size_pt := Cfg.num cfg "message_font_size_pt" in
  let message_font_size := scale message_font_size_pt in
  let! message_text := Cfg.str cfg "message_text" in
  do! _draw_wrapped_text E message_text h_padding (y_message t) content_width
        message_height message_font_size text_padding in
  (* 5. bottom box *)
  do! when (0 <? bottom_box_height)
        (let! bottom_h_margin_pt := Cfg.get_num cfg "bottom_box_horizontal_margin_pt" 0 in
         let bottom_h_margin := scale bottom_h_margin_pt in
         let bottom_box_x := h_padding + bottom_h_margin in
         let bottom_box_width := content_width - 2 * bottom_h_margin in
         call (rectangle bottom_box_x (y_bottom_box t) (bottom_box_x + bottom_box_width)
                 (y_bottom_box t + bottom_box_height) (named "white"))) in
  do! call (save output_path) in
  ret true.

(** [generate_card(person_name, person_image_path, output_path)] *)
Definition generate_card (E : env) (scale_factor : Z) (cfg : gmap string pyval)
    (person_name person_image_path output_path : string) : M op bool :=
  let full_image_path := base_dir E person_image_path in
  if negb (valid_image E full_image_path) then ret false else
  let! qr_rel := Cfg.str cfg "qr_code_path" in
  let qr_code_path := base_dir E qr_rel in
  if negb (valid_image E qr_code_path) then ret false else
  try_except
    (card_body E scale_factor cfg person_name full_image_path qr_code_path output_path)
    (fun _ => ret false).

(** The loop of [generate_all_cards], on the two counters and the files
    saved so far. *)
Fixpoint cards_loop (E : env) (scale_factor : Z) (cfg : gmap string pyval)
    (output_dir : string) (data : list (gmap string (option string)))
    (success_count fail_count : Z) (written : list string)
  : outcome (Z * Z * list string) :=
  match data with
  | [] => Returned (success_count, fail_count, written)
  | row :: rest =>
      match row_field row "name" with
      | Returned person_name =>
          match row_field row "image" with
          | Returned person_image =>
              if negb (Py.truthy person_name) || negb (Py.truthy person_image) then
                cards_loop E scale_factor cfg output_dir rest
                  success_count (fail_count + 1) written
              else
                let safe_name := Text._sanitize_filename person_name in
                let output_filename := safe_name +:+ ".png" in
                let output_path := output_dir +:+ "/" +:+ output_filename in
                match result (generate_card E scale_factor cfg person_name person_image
                                output_path) with
                | Ok true =>
                    cards_loop E scale_factor cfg output_dir rest
                      (success_count + 1) fail_count (written ++ [output_path])
                | Ok false =>
                    cards_loop E scale_factor cfg output_dir rest
                      success_count (fail_count + 1) written
                | Raise e => Uncaught e
                end
          | Uncaught e => Uncaught e
          | SysExit code => SysExit code
          end
      | Uncaught e => Uncaught e
      | SysExit code => SysExit code
      end
  end.

(** [generate_all_cards()] *)
Definition generate_all_cards (E : env) (scale_factor : Z) (cfg : gmap string pyval)
  : outcome report :=
  match cfg !! "output_directory" with
  | None => Uncaught (KeyError "output_directory")
  | Some (VStr dir) =>
      let output_dir := base_dir E dir in
      match cfg !! "input_csv" with
      | None => Uncaught (KeyError "input_csv")
      | Some (VStr csv) =>
          match read_csv E (base_dir E csv) with
          | None => SysExit 1
          | Some data =>
              match cards_loop E scale_factor cfg output_dir data 0 0 [] with
              | Returned (success_count, fail_count, written) =>
                  Returned {| total := Z.of_nat (length data);
                              success_count := success_count;
                              fail_count := fail_count;
                              written := written |}
              | Uncaught e => Uncaught e
              | SysExit code => SysExit code
              end
          end
      | Some _ => Uncaught TypeError
      end
  | Some _ => Uncaught TypeError
  end.

(** [sys.argv[1] if len(sys.argv) > 1 else "config.json"] *)
Definition config_file (argv : list string) : string :=
  match argv with
  | _ :: arg :: _ => arg
  | _ => "config.json"
  end.

(** [main()], with [argv = sys.argv]; the scale factor is fixed. *)
Definition main (E : env) (argv : list string) : outcome report :=
  let scale_factor := 4 in
  match load_json E (config_file argv) with
  | Loaded cfg => generate_all_cards E scale_factor cfg
  | FileNotFoundError => SysExit 1
  | JSONDecodeError => SysExit 1
  end.

(** *** Fonts *)

(** What [_get_font] asks of the file system and of the font loader. *)
Record font_files : Type := {
  (** [os.path.exists(font_path)] *)
  path_exists : string -> bool;
  (** whether [ImageFont.truetype(font_path, size)] returns rather than
      raises *)
  truetype_loads : string -> Z -> bool
}.

Inductive font : Type :=
| truetype (font_path : string) (size : Z)
| load_default.

Definition font_paths (bold : bool) : list string :=
  [ if bold then "/usr/share/fonts/truetype/liberation/LiberationSans-Bold.ttf"
    else "/usr/share/fonts/truetype/liberation/LiberationSans-Regular.ttf";
    if bold then "/usr/share/fonts/truetype/dejavu/DejaVuSans-Bold.ttf"
    else "/usr/share/fonts/truetype/dejavu/DejaVuSans.ttf";
    "/System/Library/Fonts/Helvetica.ttc" ].

(** The loop [for font_path in font_paths], with the fall-back after it. *)
Fixpoint first_font (F : font_files) (font_paths : list string) (size : Z) : font :=
  match font_paths with
  | [] => load_default
  | font_path :: rest =>
      if path_exists F font_path then
        if truetype_loads F font_path size then truetype font_path size
        else first_font F rest size
      else first_font F rest size
  end.

(** [_get_font(size, bold)] *)
Definition _get_font (F : font_files) (size : Z) (bold : bool) : font :=
  first_font F (font_paths bold) size.

End Png.

(** ** A sample installation, for the examples *)
Module Sample.

Definition cfg : gmap string pyval :=
  list_to_map [
    ("page_width_pt", VInt 216); ("page_height_pt", VInt 504);
    ("horizontal_padding_pt", VInt 8); ("top_margin_pt", VInt 4);
    ("photo_section_height_pt", VInt 200);
    ("name_box_height_pt_short", VInt 30); ("name_box_height_pt_long", VInt 48);
    ("name_font_size_pt_short", VInt 18); ("name_font_size_pt_long", VInt 14);
    ("name_length_threshold", VInt 22);
    ("qr_section_height_pt", VInt 120); ("qr_code_size_pt", VInt 100);
    ("gap_before_message_pt", VInt 6); ("message_box_height_pt", VInt 40);
    ("message_font_size_pt", VInt 10); ("message_text", VStr "Welcome");
    ("background_color", VStr "#8DC5FE");
    ("qr_code_path", VStr "qr.png"); ("input_csv", VStr "people.csv");
    ("output_directory", VStr "out")
  ].

(** The same with a horizontal padding of 10.3 points. *)
Definition fractional_cfg : gmap string pyval :=
  <["horizontal_padding_pt" := VFloat (103 # 10)]> cfg.

(** The same with a bottom padding of 5 points. *)
Definition lifted_cfg : gmap string pyval :=
  <["bottom_padding_pt" := VInt 5]> cfg.

Definition person (name image : string) : gmap string (option string) :=
  {[ "name" := Some name; "image" := Some image ]}.

(** Two people; the photo of the second one is missing. *)
Definition people : list (gmap string (option string)) :=
  [person "Ann Lee" "ann.png"; person "Bo" "missing.png"].

(** Two people whose names differ only in letter case. *)
Definition namesakes : list (gmap string (option string)) :=
  [person "Ann Lee" "ann.png"; person "ann lee" "ann2.png"].

(** Every glyph is half as wide as the font size; every image has the size
    [img_size]; the configuration file holds [config] and the CSV file the
    rows [rows]. *)
Definition pdf_env (config : gmap string pyval)
    (rows : list (gmap string (option string))) (img_size : Z * Z) : Pdf.env := {|
  Pdf.base_dir := fun p => "/app/" +:+ p;
  Pdf.valid_image := fun p => negb (String.eqb p "/app/missing.png");
  Pdf.image_size := fun _ => img_size;
  Pdf.stringWidth := fun text _ size =>
    (inject_Z (Z.of_nat (Py.len text)) * size * (1 # 2))%Q;
  Pdf.paragraph_wrap := fun _ font_size w _ => (w, font_size * (5 # 4))%Q;
  Pdf.load_json := fun p =>
    if String.eqb p "config.json" then Loaded config else FileNotFoundError;
  Pdf.read_csv := fun p =>
    if String.eqb p "/app/people.csv" then Some rows else None
|}.

Definition png_env (config : gmap string pyval) (img_size : Z * Z) : Png.env := {|
  Png.base_dir := fun p => "/app/" +:+ p;
  Png.valid_image := fun p => negb (String.eqb p "/app/missing.png");
  Png.image_size := fun _ => img_size;
  Png.textbbox := fun text size _ => (0, 0, Z.of_nat (Py.len text) * size / 2, size);
  Png.load_json := fun p =>
    if String.eqb p "config.json" then Loaded config else FileNotFoundError;
  Png.read_csv := fun p => None
|}.

End Sample.

(** ** Specification vocabulary for the layout, the fitter and the batch *)

(** Every call made by [m], whether it returns or raises, satisfies [P]. *)
Definition only {op : Type} (P : op -> Prop) (A : Type) (m : M op A) : Prop :=
  Forall P (trace m).

(** [m] raises. *)
Definition fails {op A} (m : M op A) : Prop := exists e, result m = Raise e.

(** The text width of the vector backend grows in proportion to the font
    size, as the width ReportLab computes from the glyph widths does. *)
Definition scalable (E : Pdf.env) (text font : string) : Prop :=
  forall size : Q,
    (Pdf.stringWidth E text font size == size * Pdf.stringWidth E text font 1)%Q.

(** The measured width of a text on the raster backend. *)
Definition text_width (G : Png.env) (s : string) (size : Z) (bold : bool) : Z :=
  Png.bbox_width (Png.textbbox G s size bold).

(** The keys that the [try] block of [generate_card] reads with [cfg[...]]
    whatever the name is, in the order of the first read. *)
Definition required_keys : list string :=
  ["page_width_pt"; "page_height_pt"; "horizontal_padding_pt"; "top_margin_pt";
   "photo_section_height_pt"; "qr_section_height_pt"; "gap_before_message_pt";
   "message_box_height_pt"; "background_color"; "qr_code_size_pt";
   "message_text"; "message_font_size_pt"].

(** Those read before the first call that paints. *)
Definition keys_read_before_painting : list string :=
  ["page_width_pt"; "page_height_pt"; "horizontal_padding_pt"; "top_margin_pt";
   "photo_section_height_pt"; "qr_section_height_pt"; "gap_before_message_pt";
   "message_box_height_pt"; "background_color"].

Definition no_save (o : Pdf.op) : Prop := Pdf.is_save o = false.
Definition no_paint (o : Pdf.op) : Prop := Pdf.paints o = false.

(** A card that returns [True] has saved, as its last call; any other has
    not saved at all. *)
Definition ends_with_save (m : M Pdf.op bool) : Prop :=
  match result m with
  | Ok true => exists t, trace m = t ++ [Pdf.save] /\ Forall no_save t
  | _ => Forall no_save (trace m)
  end.

(** A row whose [name] and [image] fields, when present, hold strings. *)
Definition complete_row (row : gmap string (option string)) : Prop :=
  row !! "name" <> Some None /\ row !! "image" <> Some None.

(** Two horizontal bands of the page, each a top edge and a height in
    top-down coordinates, that do not overlap. *)
Definition apart (a b : Q * Q) : Prop :=
  (fst a + snd a <= fst b \/ fst b + snd b <= fst a)%Q.

Definition apartZ (a b : Z * Z) : Prop :=
  fst a + snd a <= fst b \/ fst b + snd b <= fst a.

(** The filled rectangles of a vector page, in canonical top-down space:
    x, top, width, height. *)
Definition pdf_box (page_height : Q) (o : Pdf.op) : list (Q * Q * Q * Q) :=
  match o with
  | Pdf.rect x y width height => [(x, page_height - (y + height), width, height)%Q]
  | _ => []
  end.

Definition pdf_boxes (page_height : Q) (t : list Pdf.op) : list (Q * Q * Q * Q) :=
  flat_map (pdf_box page_height) t.

(** The image itself and the rectangles filled with a named colour, on a
    raster page. *)
Definition png_box (o : Png.op) : list (Z * Z * Z * Z) :=
  match o with
  | Png.new_image width height _ => [(0, 0, width, height)]
  | Png.rectangle x0 y0 x1 y1 (Png.named _) => [(x0, y0, x1 - x0, y1 - y0)]
  | _ => []
  end.

Definition png_boxes (t : list Png.op) : list (Z * Z * Z * Z) := flat_map png_box t.

(** The images placed on a page: file, then x, top, width, height. *)
Definition pdf_image (page_height : Q) (o : Pdf.op) : list (string * (Q * Q * Q * Q)) :=
  match o with
  | Pdf.drawImage path x y width height =>
      [(path, (x, page_height - (y + height), width, height)%Q)]
  | _ => []
  end.

Definition pdf_images (page_height : Q) (t : list Pdf.op)
  : list (string * (Q * Q * Q * Q)) :=
  flat_map (pdf_image page_height) t.

Definition png_image (o : Png.op) : list (string * (Z * Z * Z * Z)) :=
  match o with
  | Png.paste path width height x y => [(path, (x, y, width, height))]
  | _ => []
  end.

Definition png_images (t : list Png.op) : list (string * (Z * Z * Z * Z)) :=
  flat_map png_image t.

(** The raster rectangle is the vector rectangle times the scale factor. *)
Definition magnified (s : Z) (v : Q * Q * Q * Q) (r : Z * Z * Z * Z) : Prop :=
  let '(vx, vy, vw, vh) := v in
  let '(rx, ry, rw, rh) := r in
  (inject_Z rx == inject_Z s * vx /\ inject_Z ry == inject_Z s * vy /\
   inject_Z rw == inject_Z s * vw /\ inject_Z rh == inject_Z s * vh)%Q.

(** The same, with the corner rounded down to a whole pixel. *)
Definition magnified_floor (s : Z) (v : Q * Q * Q * Q) (r : Z * Z * Z * Z) : Prop :=
  let '(vx, vy, vw, vh) := v in
  let '(rx, ry, rw, rh) := r in
  rx = Qfloor (inject_Z s * vx) /\ ry = Qfloor (inject_Z s * vy) /\
  (inject_Z rw == inject_Z s * vw /\ inject_Z rh == inject_Z s * vh)%Q.

(** No value of the configuration is a float. *)
Definition integer_lengths (cfg : gmap string pyval) : Prop :=
  forall key q, cfg !! key <> Some (VFloat q).

(** Calls that fill no rectangle and place no image. *)
Definition no_rect (o : Pdf.op) : Prop := pdf_box 0 o = [] /\ pdf_image 0 o = [].
Definition no_box (o : Png.op) : Prop := png_box o = [] /\ png_image o = [].

(** The name tier as a function of the configuration and the name alone:
    what [name_tier] returns on either backend. *)
Definition tier_of (cfg : gmap string pyval) (person_name : string)
  : res (Z * Q * Q * bool) :=
  match Cfg.int_or cfg "name_length_threshold" 22 with
  | Ok threshold =>
      if threshold <? Z.of_nat (Py.len person_name) then
        match Cfg.num_at cfg "name_box_height_pt_long" with
        | Ok h =>
            match Cfg.num_at cfg "name_font_size_pt_long" with
            | Ok f => Ok (threshold, h, f, true)
            | Raise e => Raise e
            end
        | Raise e => Raise e
        end
      else
        match Cfg.num_at cfg "name_box_height_pt_short" with
        | Ok h =>
            match Cfg.num_at cfg "name_font_size_pt_short" with
            | Ok f => Ok (threshold, h, f, false)
            | Raise e => Raise e
            end
        | Raise e => Raise e
        end
  | Raise e => Raise e
  end.

(** ** Specification vocabulary for the further properties *)

(** The characters of a string, in order. *)
Definition chars (s : string) : list ascii := list_ascii_of_string s.

(** A token of the line breaker: a non-empty run of characters other than
    space and comma, with at most one comma, at its end. *)
Definition token_shape (t : string) : Prop :=
  exists body, (t = body \/ t = body +:+ ",") /\ body <> "" /\
               Forall (fun c => Text.is_delim c = false) (chars body).

(** The characters a sanitised file name is made of: letters and digits
    that [lower] leaves alone, the hyphen and the underscore. *)
Definition filename_char (c : ascii) : bool :=
  (Py.isalnum c && Ascii.eqb (Py.lower_char c) c)
  || Ascii.eqb c "-"%char || Ascii.eqb c "_"%char.

(** What the greedy loop keeps: every closed line fits the threshold or is
    one token, and so does the line being filled. *)
Definition fits_or_token (all : list string) (thr : Z) (line : string) : Prop :=
  Text.within line thr = true \/ In line all.

(** The 256 characters of the model. *)
Definition all_ascii : list ascii := map ascii_of_nat (seq 0 256).

(** What [_sanitize_filename] does to a character that [strip] leaves. *)
Definition sanitize_char (c : ascii) : ascii :=
  Py.lower_char (let s := Text.safe_char c in if Ascii.eqb s " " then "_"%char else s).

(** A string that does not start, or does not end, with white space. *)
Definition head_nonspace (s : string) : Prop :=
  match s with
  | EmptyString => True
  | String c _ => Py.isspace c = false
  end.

Fixpoint last_nonspace (s : string) : Prop :=
  match s with
  | EmptyString => True
  | String c EmptyString => Py.isspace c = false
  | String _ s' => last_nonspace s'
  end.

(** The strings drawn on a vector page, each with the font and the size in
    force when it is drawn: font, size, then x, y and the text. *)
Fixpoint pdf_strings (font : string) (size : Q) (t : list Pdf.op)
  : list (string * Q * (Q * Q * string)) :=
  match t with
  | [] => []
  | Pdf.setFont f s :: t' => pdf_strings f s t'
  | Pdf.drawString x y text :: t' => (font, size, (x, y, text)) :: pdf_strings font size t'
  | _ :: t' => pdf_strings font size t'
  end.

(** The strings drawn on a raster page: x, y, text, font size, bold. *)
Definition png_text (o : Png.op) : list (Z * Z * string * Z * bool) :=
  match o with
  | Png.text x y s font_size bold => [(x, y, s, font_size, bold)]
  | _ => []
  end.

Definition png_texts (t : list Png.op) : list (Z * Z * string * Z * bool) :=
  flat_map png_text t.

(** A vector string whose middle is the middle of the box that starts at
    [x] and is [width] wide. *)
Definition pdf_centred (E : Pdf.env) (x width : Q) (d : string * Q * (Q * Q * string)) : Prop :=
  let '(font, size, (text_x, _, text)) := d in
  (text_x + Pdf.stringWidth E text font size / 2 == x + width / 2)%Q.

(** A raster string whose left and right margins in the box differ by at
    most one pixel, the right one being the larger. *)
Definition png_centred (G : Png.env) (x width : Z) (d : Z * Z * string * Z * bool) : Prop :=
  let '(text_x, _, s, font_size, bold) := d in
  let line_width := text_width G s font_size bold in
  0 <= (x + width - (text_x + line_width)) - (text_x - x) <= 1.

Definition pdf_string_text (d : string * Q * (Q * Q * string)) : string := snd (snd d).
Definition png_string_text (d : Z * Z * string * Z * bool) : string :=
  let '(_, _, s, _, _) := d in s.

(** A row that the loop of [generate_all_cards] hands to [generate_card]
    with a readable photo: both fields are there, not empty once stripped,
    and the image file is valid. *)
Definition usable_row (E : Pdf.env) (row : gmap string (option string)) : Prop :=
  exists person_name person_image,
    row_field row "name" = Returned person_name /\
    row_field row "image" = Returned person_image /\
    Py.truthy person_name = true /\ Py.truthy person_image = true /\
    Pdf.valid_image E (Pdf.base_dir E person_image) = true.

(** A short row: [csv.DictReader] has filled one of the two fields with
    [None]. *)
Definition short_row (row : gmap string (option string)) : Prop :=
  row !! "name" = Some None \/ row !! "image" = Some None.

(** An output file and the row it was written for. *)
Definition written_for (E : Pdf.env) (cfg : gmap string pyval) (output_dir : string)
    (data : list (gmap string (option string))) (output_path : string) : Prop :=
  exists row person_name person_image,
    In row data /\
    row_field row "name" = Returned person_name /\
    row_field row "image" = Returned person_image /\
    Py.truthy person_name = true /\ Py.truthy person_image = true /\
    Pdf.valid_image E (Pdf.base_dir E person_image) = true /\
    output_path = output_dir +:+ "/" +:+ Text._sanitize_filename person_name +:+ ".pdf" /\
    result (Pdf.generate_card E cfg person_name person_image output_path) = Ok true.

(** A rectangle, given as x, top, width and height, whose middle is the
    middle of a page [page_width] wide. *)
Definition pdf_middle (page_width : Q) (b : Q * Q * Q * Q) : Prop :=
  let '(x, _, width, _) := b in (x + width / 2 == page_width / 2)%Q.

(** The same on the raster page, exactly or with one more pixel on the
    right than on the left. *)
Definition png_middle (page_width : Z) (b : Z * Z * Z * Z) : Prop :=
  let '(x, _, width, _) := b in 2 * x + width = page_width.

Definition png_near_middle (page_width : Z) (b : Z * Z * Z * Z) : Prop :=
  let '(x, _, width, _) := b in 0 <= page_width - (2 * x + width) <= 1.

Definition png_is_save (o : Png.op) : bool :=
  match o with Png.save _ => true | _ => false end.

Definition png_is_new_image (o : Png.op) : bool :=
  match o with Png.new_image _ _ _ => true | _ => false end.

Definition png_no_save (o : Png.op) : Prop := png_is_save o = false.
Definition png_no_new_image (o : Png.op) : Prop := png_is_new_image o = false.

(** A raster card that returns [True] has saved to [output_path], as its
    last call; any other has not saved at all. *)
Definition png_ends_with_save (output_path : string) (m : M Png.op bool) : Prop :=
  match result m with
  | Ok true => exists t, trace m = t ++ [Png.save output_path] /\ Forall png_no_save t
  | _ => Forall png_no_save (trace m)
  end.

(** The background that [generate_card] gives the image for a configured
    colour string: [None] is the transparent one. *)
Definition png_background (bg_color_str : string) : option string :=
  if Py.contains (Py.lower bg_color_str) ["transparent"; ""; "none"]
  then None else Some bg_color_str.

(** An output file of the raster run and the row it was written for. *)
Definition png_written_for (G : Png.env) (scale_factor : Z) (cfg : gmap string pyval)
    (output_dir : string) (data : list (gmap string (option string)))
    (output_path : string) : Prop :=
  exists row person_name person_image,
    In row data /\
    row_field row "name" = Returned person_name /\
    row_field row "image" = Returned person_image /\
    Py.truthy person_name = true /\ Py.truthy person_image = true /\
    output_path = output_dir +:+ "/" +:+ Text._sanitize_filename person_name +:+ ".png" /\
    result (Png.generate_card G scale_factor cfg person_name person_image output_path)
    = Ok true.

(** A font file that exists and loads at the size asked for. *)
Definition usable (F : Png.font_files) (size : Z) (font_path : string) : bool :=
  Png.path_exists F font_path && Png.truetype_loads F font_path size.

(** The hexadecimal digit of a value 0..15, in upper or lower case, and the
    two digits of a component 0..255: what [format(n, '02X')] and
    [format(n, '02x')] write. *)
Definition hex_char (upper : bool) (d : Z) : ascii :=
  if d <? 10 then ascii_of_N (Z.to_N (48 + d))
  else ascii_of_N (Z.to_N ((if upper then 55 else 87) + d)).

Definition hex2 (upper : bool) (n : Z) : string :=
  String (hex_char upper (n / 16)) (String (hex_char upper (n mod 16)) "").

(** A run of [n] hash signs. *)
Fixpoint hashes (n : nat) : string :=
  match n with
  | O => ""
  | S n' => String "#" (hashes n')
  end.

(** The values that a colour component takes. *)
Definition components : list Z := map Z.of_nat (seq 0 256).

Definition pdf_is_canvas (o : Pdf.op) : bool :=
  match o with Pdf.Canvas _ _ _ => true | _ => false end.

Definition pdf_no_canvas (o : Pdf.op) : Prop := pdf_is_canvas o = false.

(** The texts of the strings and of the paragraphs drawn on a vector
    page. *)
Definition pdf_text (o : Pdf.op) : list string :=
  match o with Pdf.drawString _ _ s => [s] | _ => [] end.

Definition pdf_texts (t : list Pdf.op) : list string := flat_map pdf_text t.

Definition pdf_paragraph (o : Pdf.op) : list string :=
  match o with Pdf.drawOn s _ _ _ => [s] | _ => [] end.

Definition pdf_paragraphs (t : list Pdf.op) : list string := flat_map pdf_paragraph t.

(** The lines in which [generate_card] has the name drawn, for the tier and
    the [name_max_lines] read from the configuration. *)
Definition name_lines (person_name : string) (name_multiline : bool)
    (name_max_lines name_length_threshold : Z) : list string :=
  if negb name_multiline || (name_max_lines =? 1) then [person_name]
  else Text._optimal_line_break person_name name_length_threshold name_max_lines.

(** The lines in which the raster backend draws the message. *)
Definition message_lines (message_text : string) : list string :=
  Py.split "010"%char (Py.replace "<br/>" (String "010"%char "") message_text).

(** A segment that joins two corners of the box at [(x, y)] of the given
    size. *)
Definition box_corner (x y width height : Q) (p : Q * Q) : Prop :=
  (fst p = x \/ fst p = (x + width)%Q) /\ (snd p = y \/ snd p = (y + height)%Q).

Definition along_box (x y width height : Q) (o : Pdf.op) : Prop :=
  match o with
  | Pdf.line x1 y1 x2 y2 =>
      box_corner x y width height (x1, y1) /\ box_corner x y width height (x2, y2) /\
      (x1 = x2 \/ y1 = y2)
  | _ => False
  end.

(** A filled rectangle that lies in the box at [(x, y)] of the given
    size. *)
Definition inside_box (x y width height : Z) (o : Png.op) : Prop :=
  match o with
  | Png.rectangle x0 y0 x1 y1 (Png.rgb _) =>
      x <= x0 <= x1 /\ x1 <= x + width /\ y <= y0 <= y1 /\ y1 <= y + height
  | _ => False
  end.

(** The sides of a box that a list of side names asks for. *)
Definition sides_drawn (sides : list string) : list string :=
  List.filter (fun side => Py.contains side sides) ["left"; "right"; "top"; "bottom"].

(** A row that [csv.DictReader] has read from a line with a single field:
    the image is [None]. *)
Definition short_person (name : string) : gmap string (option string) :=
  {[ "name" := Some name; "image" := None ]}.

(** The raster installation with a CSV file holding [rows]. *)
Definition png_batch_env (config : gmap string pyval)
    (rows : list (gmap string (option string))) : Png.env := {|
  Png.base_dir := fun p => "/app/" +:+ p;
  Png.valid_image := fun p => negb (String.eqb p "/app/missing.png");
  Png.image_size := fun _ => (200, 100);
  Png.textbbox := fun text size _ => (0, 0, Z.of_nat (Py.len text) * size / 2, size);
  Png.load_json := fun p =>
    if String.eqb p "config.json" then Loaded config else FileNotFoundError;
  Png.read_csv := fun p =>
    if String.eqb p "/app/people.csv" then Some rows else None
|}.

(** * Properties *)

(** ** Strings and tokens *)

Lemma len_append (a b : string) : Py.len (a +:+ b) = (Py.len a + Py.len b)%nat.
Proof.
  unfold Py.len. induction a as [|c a IH]; simpl; [reflexivity | now rewrite IH].
Qed.

Lemma truthy_len (s : string) : Py.truthy s = true <-> (0 < Py.len s)%nat.
Proof. destruct s; simpl; split; intros; try lia; try discriminate; reflexivity. Qed.

Lemma join_cons_len (t : string) (l : list string) :
  (Py.len t <= Py.len (Py.join " " (t :: l)))%nat.
Proof.
  unfold Py.join. destruct l as [|u l]; simpl; [lia|].
  rewrite len_append. lia.
Qed.

(** Every token that the tokenising loop appends is a non-empty string. *)
Lemma tokenize_loop_nonempty (text : string) :
  forall tokens cur,
    Forall (fun t => (0 < Py.len t)%nat) tokens ->
    Forall (fun t => (0 < Py.len t)%nat) (fst (Text.tokenize_loop text tokens cur)).
Proof.
  induction text as [|c rest IH]; intros tokens cur Htok; simpl; [exact Htok|].
  destruct (Text.is_delim c).
  - destruct (Py.truthy cur) eqn:Hcur.
    + apply truthy_len in Hcur.
      destruct (Ascii.eqb c ","); apply IH; apply Forall_app; split; auto;
        constructor; auto; rewrite ?len_append; lia.
    + now apply IH.
  - now apply IH.
Qed.

Lemma tokenize_nonempty (text : string) :
  Forall (fun t => (0 < Py.len t)%nat) (Text.tokenize text).
Proof.
  unfold Text.tokenize.
  pose proof (tokenize_loop_nonempty text [] "" ltac:(constructor)) as H.
  destruct (Text.tokenize_loop text [] "") as [tokens cur]; simpl in H.
  destruct (Py.truthy cur) eqn:Hcur; [|exact H].
  apply Forall_app; split; [exact H|]. constructor; [|constructor].
  now apply truthy_len.
Qed.

Lemma first_line_pos (tokens : list string) (i : nat) :
  Forall (fun t => (0 < Py.len t)%nat) tokens ->
  (1 <= i)%nat -> (1 <= length tokens)%nat ->
  (0 < Py.len (first_line tokens i))%nat.
Proof.
  intros Hne Hi Hn. unfold first_line.
  destruct tokens as [|t l]; [simpl in Hn; lia|].
  destruct i as [|i]; [lia|]. rewrite firstn_cons.
  inversion Hne; subst.
  pose proof (join_cons_len t (firstn i l)). lia.
Qed.

Lemma within_iff (line : string) (thr : Z) :
  Text.within line thr = true <-> Z.of_nat (Py.len line) <= thr.
Proof. unfold Text.within. apply Z.leb_le. Qed.

(** ** The two-line breaker *)

Lemma search_loop_inv (tokens : list string) (thr : Z) (k : nat) :
  search_inv tokens thr k
    (fold_left (Text.break_step tokens thr) (seq 1 k) (0%nat, 0%nat)).
Proof.
  induction k as [|k IH].
  - simpl. split; [|split]; intros; lia.
  - rewrite seq_S, fold_left_app. simpl.
    destruct (fold_left (Text.break_step tokens thr) (seq 1 k) (0%nat, 0%nat)) as [b L].
    destruct IH as (I1 & I2 & I3).
    unfold Text.break_step. fold (first_line tokens (S k)).
    destruct (Text.within (first_line tokens (S k)) thr) eqn:Hw;
      [destruct (Nat.ltb_spec L (Py.len (first_line tokens (S k)))) as [Hlt|Hge]|];
      (split; [|split]).
    + intros; lia.
    + intros _. split; [lia|]. split; [exact Hw|reflexivity].
    + intros i Hi Hwi. destruct (Nat.eq_dec i (S k)) as [->|Hne]; [lia|].
      specialize (I3 i ltac:(lia) Hwi). lia.
    + exact I1.
    + intros Hb. destruct (I2 Hb) as (? & ? & ?). split; [lia|]. split; assumption.
    + intros i Hi Hwi. destruct (Nat.eq_dec i (S k)) as [->|Hne]; [lia|].
      apply I3; [lia|assumption].
    + exact I1.
    + intros Hb. destruct (I2 Hb) as (? & ? & ?). split; [lia|]. split; assumption.
    + intros i Hi Hwi. destruct (Nat.eq_dec i (S k)) as [->|Hne]; [congruence|].
      apply I3; [lia|assumption].
Qed.

(** C1. For every text and threshold, [_optimal_line_break] with
    [max_lines = 2] returns the text unchanged as one line when it has zero
    or one token; otherwise, when some split point in [[1, token_count)] has a
    first line no longer than the threshold, it splits at such a point whose
    first line is the longest among them; and when none has, it splits at
    [token_count // 2].  Breaking "Alice, Bob Carter" at threshold 10 gives
    "Alice, Bob" and "Carter". *)
Theorem two_line_break_spec (text : string) (char_threshold : Z) :
  let tokens := Text.tokenize text in
  let lines := Text._optimal_line_break text char_threshold 2 in
  ((length tokens <= 1)%nat -> lines = [text]) /\
  ((2 <= length tokens)%nat ->
   (exists i, valid_split tokens char_threshold i) ->
   exists b, valid_split tokens char_threshold b /\
             (forall i, valid_split tokens char_threshold i ->
                        (Py.len (first_line tokens i) <= Py.len (first_line tokens b))%nat) /\
             lines = [first_line tokens b; second_line tokens b]) /\
  ((2 <= length tokens)%nat ->
   (forall i, ~ valid_split tokens char_threshold i) ->
   lines = [first_line tokens (length tokens / 2);
            second_line tokens (length tokens / 2)]) /\
  Text.tokenize "Alice, Bob Carter" = ["Alice,"; "Bob"; "Carter"] /\
  Text._optimal_line_break "Alice, Bob Carter" 10 2 = ["Alice, Bob"; "Carter"].
Proof.
  intros tokens lines.
  assert (Hres : (2 <= length tokens)%nat -> lines = Text.two_lines tokens char_threshold).
  { intros Hn. unfold lines, Text._optimal_line_break. fold tokens.
    destruct (Nat.eqb_spec (length tokens) 0); [lia|].
    destruct (Nat.eqb_spec (length tokens) 1); [lia|]. reflexivity. }
  pose proof (search_loop_inv tokens char_threshold (length tokens - 1)) as Hinv.
  unfold search_inv in Hinv.
  assert (Hb : Text.best_break tokens char_threshold =
               fst (fold_left (Text.break_step tokens char_threshold)
                              (seq 1 (length tokens - 1)) (0%nat, 0%nat))) by reflexivity.
  destruct (fold_left (Text.break_step tokens char_threshold)
                      (seq 1 (length tokens - 1)) (0%nat, 0%nat)) as [b L].
  simpl in Hb. destruct Hinv as (I1 & I2 & I3).
  split; [|split; [|split; [|split]]].
  - intros Hn. unfold lines, Text._optimal_line_break. fold tokens.
    destruct (Nat.eqb_spec (length tokens) 0); [reflexivity|].
    destruct (Nat.eqb_spec (length tokens) 1); [reflexivity|lia].
  - intros Hn [i [Hi Hfit]].
    assert (Hpos : (0 < Py.len (first_line tokens i))%nat).
    { apply first_line_pos; [apply tokenize_nonempty|lia|lia]. }
    assert (HiL : (Py.len (first_line tokens i) <= L)%nat).
    { apply I3; [lia|]. now apply within_iff. }
    assert (Hb0 : b <> 0%nat) by (intros ->; specialize (I1 eq_refl); lia).
    destruct (I2 Hb0) as (Hrange & Hwb & HL).
    exists b. split; [|split].
    + split; [lia|]. now apply within_iff.
    + intros j [Hj Hfj]. rewrite <- HL. apply I3; [lia|]. now apply within_iff.
    + rewrite (Hres Hn). unfold Text.two_lines. rewrite Hb.
      destruct (Nat.ltb_spec 0 b); [reflexivity|lia].
  - intros Hn Hnone.
    assert (Hb0 : b = 0%nat).
    { destruct (Nat.eq_dec b 0%nat) as [|Hne]; [assumption|].
      destruct (I2 Hne) as (Hrange & Hwb & _).
      exfalso. apply (Hnone b). split; [lia|]. now apply within_iff. }
    rewrite (Hres Hn). unfold Text.two_lines. rewrite Hb, Hb0. reflexivity.
  - reflexivity.
  - reflexivity.
Qed.

(** Both branches on small inputs: a fitting split, and the midpoint. *)
Example break_at_longest_fit :
  Text._optimal_line_break "Dr. Evelyn Alexandra Montgomery-Whitfield" 22 2
  = ["Dr. Evelyn Alexandra"; "Montgomery-Whitfield"].
Proof. reflexivity. Qed.

Example break_at_midpoint :
  Text._optimal_line_break "Montgomery Whitfield Alexandra Evelyn" 5 2
  = ["Montgomery Whitfield"; "Alexandra Evelyn"].
Proof. reflexivity. Qed.

Example single_token_unchanged :
  Text._optimal_line_break "Supercalifragilisticexpialidocious" 10 2
  = ["Supercalifragilisticexpialidocious"].
Proof. reflexivity. Qed.

(** ** The greedy packer *)

Lemma greedy_pack_length (tokens : list string) (thr : Z) :
  forall room current, (length (greedy_pack tokens thr room current) <= room)%nat.
Proof.
  induction tokens as [|token rest IH]; intros room current; simpl.
  - destruct room; simpl; [lia|]. destruct (Py.nonempty current); simpl; lia.
  - destruct room as [|room']; simpl; [lia|].
    destruct (Text.within _ thr).
    + apply IH.
    + destruct (Py.nonempty current); simpl; specialize (IH room');
        [specialize (IH [token]) | specialize (IH [])]; lia.
Qed.

Lemma slice_to_all {A} (l : list A) (k : Z) :
  Z.of_nat (length l) <= k -> Py.slice_to l k = l.
Proof.
  intros H. unfold Py.slice_to.
  destruct (Z.leb_spec 0 k); [|lia].
  apply firstn_all2. lia.
Qed.

(** From any state with room left, the loop and the lines that close the
    function produce what the specification's packer produces. *)
Lemma greedy_loop_pack (thr max_lines : Z) (tokens : list string) :
  forall lines current,
    Z.of_nat (length lines) < max_lines ->
    (let '(lines', current') := Text.greedy_loop tokens thr max_lines lines current in
     Py.slice_to
       (if Py.nonempty current' && (Z.of_nat (length lines') <? max_lines)
        then lines' ++ [Py.join " " current'] else lines')
       max_lines)
    = lines ++ greedy_pack tokens thr (Z.to_nat max_lines - length lines) current.
Proof.
  induction tokens as [|token rest IH]; intros lines current Hroom.
  - simpl. destruct (Z.to_nat max_lines - length lines)%nat as [|r] eqn:Er; [lia|].
    destruct (Z.ltb_spec (Z.of_nat (length lines)) max_lines); [|lia].
    destruct (Py.nonempty current); simpl.
    + apply slice_to_all. rewrite length_app. simpl. lia.
    + rewrite app_nil_r. apply slice_to_all. lia.
  - simpl. destruct (Z.to_nat max_lines - length lines)%nat as [|r] eqn:Er; [lia|].
    destruct (Text.within _ thr).
    + rewrite IH by assumption. rewrite Er. reflexivity.
    + set (x := if Py.nonempty current then Py.join " " current else token).
      set (cur' := if Py.nonempty current then [token] else []).
      assert (Hst : (if Py.nonempty current
                     then (lines ++ [Py.join " " current], [token])
                     else (lines ++ [token], current)) = (lines ++ [x], cur')).
      { unfold x, cur'. destruct current; reflexivity. }
      rewrite Hst.
      assert (Hpack : (if Py.nonempty current
                       then Py.join " " current :: greedy_pack rest thr r [token]
                       else token :: greedy_pack rest thr r [])
                      = x :: greedy_pack rest thr r cur').
      { unfold x, cur'. destruct (Py.nonempty current); reflexivity. }
      rewrite Hpack.
      assert (Hlen : length (lines ++ [x]) = S (length lines))
        by (rewrite length_app; simpl; lia).
      destruct (Z.leb_spec max_lines (Z.of_nat (length (lines ++ [x])))) as [Hfull|Hmore].
      * assert (r = 0%nat) by lia. subst r.
        destruct (Z.ltb_spec (Z.of_nat (length (lines ++ [x]))) max_lines); [lia|].
        rewrite andb_false_r.
        rewrite slice_to_all by lia.
        destruct rest; reflexivity.
      * rewrite IH by lia. rewrite Hlen.
        replace (Z.to_nat max_lines - S (length lines))%nat with r by lia.
        rewrite <- app_assoc. reflexivity.
Qed.

Lemma greedy_pack_no_room (tokens : list string) (thr : Z) (current : list string) :
  greedy_pack tokens thr 0 current = [].
Proof. destruct tokens; reflexivity. Qed.

(** When no line is requested the loop stops at the first overflow. *)
Lemma greedy_loop_no_room (thr max_lines : Z) (tokens : list string) :
  max_lines <= 0 ->
  forall current,
    (length (fst (Text.greedy_loop tokens thr max_lines [] current)) <= 1)%nat.
Proof.
  intros Hm. induction tokens as [|token rest IH]; intros current; simpl; [lia|].
  destruct (Text.within _ thr); [apply IH|].
  assert (Hfull : forall x : string, (max_lines <=? Z.of_nat (length [x])) = true).
  { intros x. apply Z.leb_le. simpl. lia. }
  destruct (Py.nonempty current); rewrite Hfull; simpl; lia.
Qed.

Lemma greedy_refines_pack (tokens : list string) (thr max_lines : Z) :
  Text.greedy tokens thr max_lines = greedy_pack tokens thr (Z.to_nat max_lines) [].
Proof.
  unfold Text.greedy.
  destruct (Z.ltb_spec 0 max_lines) as [Hpos|Hneg].
  - pose proof (greedy_loop_pack thr max_lines tokens [] [] ltac:(simpl; lia)) as H.
    destruct (Text.greedy_loop tokens thr max_lines [] []) as [lines current].
    simpl in H. rewrite Nat.sub_0_r in H. exact H.
  - pose proof (greedy_loop_no_room thr max_lines tokens Hneg []) as H.
    destruct (Text.greedy_loop tokens thr max_lines [] []) as [lines current].
    simpl in H.
    replace (Z.to_nat max_lines) with 0%nat by lia.
    rewrite greedy_pack_no_room.
    destruct (Z.ltb_spec (Z.of_nat (length lines)) max_lines); [lia|].
    rewrite andb_false_r. unfold Py.slice_to.
    destruct (Z.leb_spec 0 max_lines).
    + replace max_lines with 0 by lia. reflexivity.
    + replace (Z.to_nat (Z.of_nat (length lines) + max_lines)) with 0%nat by lia.
      reflexivity.
Qed.

(** C9, as amended.  For every text with at least two tokens, every
    threshold and every requested line count other than 2,
    [_optimal_line_break] returns what the greedy left-to-right packer
    returns: tokens join the current line while the space-joined length stays
    within the threshold, an overflow starts a new line, the packing stops
    once the requested number of lines is out and the remaining tokens are
    dropped; the list has at most [max(max_lines, 0)] lines.  A text with
    fewer than two tokens comes back unchanged as one line, whatever the
    requested line count. *)
Theorem greedy_packer_spec (text : string) (char_threshold max_lines : Z) :
  max_lines <> 2 ->
  let tokens := Text.tokenize text in
  let lines := Text._optimal_line_break text char_threshold max_lines in
  ((2 <= length tokens)%nat ->
     lines = greedy_pack tokens char_threshold (Z.to_nat max_lines) [] /\
     Z.of_nat (length lines) <= Z.max max_lines 0) /\
  ((length tokens <= 1)%nat -> lines = [text]).
Proof.
  intros Hne tokens lines. unfold lines, Text._optimal_line_break. fold tokens.
  split; intros Hn.
  - destruct (Nat.eqb_spec (length tokens) 0); [lia|].
    destruct (Nat.eqb_spec (length tokens) 1); [lia|].
    destruct (Z.eqb_spec max_lines 2); [contradiction|].
    rewrite greedy_refines_pack. split; [reflexivity|].
    pose proof (greedy_pack_length tokens char_threshold (Z.to_nat max_lines) []). lia.
  - destruct (Nat.eqb_spec (length tokens) 0); [reflexivity|].
    destruct (Nat.eqb_spec (length tokens) 1); [reflexivity|lia].
Qed.

Lemma greedy_packer_spec_witness :
  3 <> 2 /\
  Text._optimal_line_break "one two three four five" 7 3 = ["one two"; "three"; "four"] /\
  Text._optimal_line_break "one two three four five" 7 1 = ["one two"].
Proof.
  split; [lia|].
  split.
  - destruct (greedy_packer_spec "one two three four five" 7 3 ltac:(lia)) as [H _].
    destruct (H ltac:(vm_compute; lia)) as [-> _]. reflexivity.
  - destruct (greedy_packer_spec "one two three four five" 7 1 ltac:(lia)) as [H _].
    destruct (H ltac:(vm_compute; lia)) as [-> _]. reflexivity.
Defined.

(** C9 fails as stated.  With a single token and no line requested, one line
    comes back; and a single token followed by delimiters comes back as the
    whole text, which is not the packed token. *)
Lemma greedy_packer_counterexample :
  Text.tokenize "Bob" = ["Bob"] /\
  ~ Z.of_nat (length (Text._optimal_line_break "Bob" 22 0)) <= 0 /\
  Text.tokenize "Bob ," = ["Bob"] /\
  Text._optimal_line_break "Bob ," 22 3 = ["Bob ,"] /\
  Text._optimal_line_break "Bob ," 22 3 <> greedy_pack (Text.tokenize "Bob ,") 22 3 [].
Proof.
  split; [reflexivity|]. split; [vm_compute; intros H; apply H; reflexivity|].
  split; [reflexivity|]. split; [reflexivity|]. discriminate.
Qed.

(** ** File names *)

(** C10.  [_sanitize_filename] is not injective: two distinct non-empty
    names that differ only in letter case, and two that differ only by a
    space against an underscore, get the same file name; in one run over two
    such records both cards are saved to the same output file. *)
Theorem sanitize_filename_not_injective :
  (exists a b : string,
      a <> b /\ a <> "" /\ b <> "" /\
      Py.lower a = Py.lower b /\
      Text._sanitize_filename a = Text._sanitize_filename b) /\
  (exists a b : string,
      a <> b /\ a <> "" /\ b <> "" /\
      Py.replace_char " " "_" a = b /\
      Text._sanitize_filename a = Text._sanitize_filename b) /\
  (exists E argv path,
      Pdf.main E argv =
        Returned {| total := 2; success_count := 2; fail_count := 0;
                    written := [path; path] |}).
Proof.
  split; [|split].
  - exists "Ann Lee", "ann lee". repeat split; try discriminate; reflexivity.
  - exists "Ann Lee", "Ann_Lee". repeat split; try discriminate; reflexivity.
  - exists (Sample.pdf_env Sample.cfg Sample.namesakes (200, 100)), ["generate_cards.py"],
      "/app/out/ann_lee.pdf".
    vm_compute. reflexivity.
Qed.

(** ** Numbers *)

Section FloatFacts.
Local Open Scope Q_scope.

Lemma two_nonzero : ~ 2 == 0.
Proof. discriminate. Qed.

Lemma pow2_pos (k : Z) : 0 < 2 ^ k.
Proof. apply Qpower_0_lt. reflexivity. Qed.

Lemma nearest_even_bounds (x : Q) :
  x - (1 # 2) <= inject_Z (Float.nearest_even x) /\
  inject_Z (Float.nearest_even x) <= x + (1 # 2).
Proof.
  unfold Float.nearest_even.
  pose proof (Qfloor_le x) as L. pose proof (Qlt_floor x) as U.
  rewrite inject_Z_plus in U. change (inject_Z 1) with 1 in U.
  set (f := Qfloor x) in *.
  assert (S : inject_Z (f + 1) == inject_Z f + 1) by (rewrite inject_Z_plus; reflexivity).
  clearbody f.
  destruct (Qcompare_spec (x - inject_Z f) (1 # 2)) as [E|E|E].
  - destruct (Z.even f); [|rewrite S]; split; lra.
  - split; lra.
  - rewrite S. split; lra.
Qed.

Lemma nearest_even_nonneg (x : Q) : 0 <= x -> (0 <= Float.nearest_even x)%Z.
Proof.
  intros H. unfold Float.nearest_even.
  assert (F : (0 <= Qfloor x)%Z).
  { rewrite <- (Qfloor_Z 0). now apply Qfloor_resp_le. }
  destruct (Qcompare _ _); [destruct (Z.even _)| |]; lia.
Qed.

Lemma round_zero (x : Q) : x == 0 -> Float.round x = 0.
Proof.
  intros H. unfold Float.round.
  destruct (Qeq_bool x 0) eqn:E; [reflexivity|].
  apply Qeq_bool_neq in E. contradiction.
Qed.

Lemma round_nonneg (x : Q) : 0 <= x -> 0 <= Float.round x.
Proof.
  intros H. unfold Float.round. destruct (Qeq_bool x 0); [apply Qle_refl|].
  cbv zeta. pose proof (pow2_pos (Float.last_place x)) as P.
  set (q := 2 ^ Float.last_place x) in *. clearbody q.
  apply Qmult_le_0_compat; [|now apply Qlt_le_weak].
  rewrite <- (Zle_Qle 0). apply nearest_even_nonneg.
  apply Qle_shift_div_l; [exact P|]. rewrite Qmult_0_l. exact H.
Qed.

(** Rounding moves a number by at most half a unit of its last place. *)
Lemma round_near (x : Q) :
  x - 2 ^ Float.last_place x * (1 # 2) <= Float.round x /\
  Float.round x <= x + 2 ^ Float.last_place x * (1 # 2).
Proof.
  pose proof (pow2_pos (Float.last_place x)) as P.
  unfold Float.round. set (q := 2 ^ Float.last_place x) in *. clearbody q.
  destruct (Qeq_bool x 0) eqn:E.
  - apply Qeq_bool_iff in E. split; lra.
  - cbv zeta.
    destruct (nearest_even_bounds (x / q)) as [L U].
    set (n := inject_Z (Float.nearest_even (x / q))) in *. clearbody n.
    assert (Hx : x / q * q == x) by (field; lra).
    set (y := x / q) in *. clearbody y.
    assert (L' : (y - (1 # 2)) * q <= n * q) by (apply Qmult_le_compat_r; lra).
    assert (U' : n * q <= (y + (1 # 2)) * q) by (apply Qmult_le_compat_r; lra).
    split; lra.
Qed.

Lemma Qabs_nonneg_eq (x : Q) : 0 <= x -> Qabs x = x.
Proof.
  destruct x as [n d]. unfold Qle, Qabs. simpl. intros H.
  rewrite Z.abs_eq by lia. reflexivity.
Qed.

Lemma ilog2_le (x : Q) : 0 < x -> 2 ^ Float.ilog2 x <= x.
Proof.
  intros Hx. unfold Float.ilog2. cbv zeta.
  destruct (Qle_bool _ x) eqn:E; [now apply Qle_bool_iff|].
  clear E. destruct x as [n d]. simpl Qnum. simpl Qden.
  assert (Hn : (0 < n)%Z) by (unfold Qlt in Hx; simpl in Hx; lia).
  pose proof (Z.log2_spec n Hn) as [Ln _].
  pose proof (Z.log2_spec (Z.pos d) ltac:(lia)) as [_ Ud].
  pose proof (Z.log2_nonneg n) as N0. pose proof (Z.log2_nonneg (Z.pos d)) as D0.
  set (a := Z.log2 n) in *. set (b := Z.log2 (Z.pos d)) in *. clearbody a b.
  replace (a - b - 1)%Z with (a - (b + 1))%Z by lia.
  rewrite Qpower_minus by apply two_nonzero.
  change 2 with (inject_Z 2).
  rewrite <- (Zpower_Qpower 2 a), <- (Zpower_Qpower 2 (b + 1)) by lia.
  replace (Z.succ b) with (b + 1)%Z in Ud by lia.
  assert (Pa : (0 < 2 ^ a)%Z) by (apply Z.pow_pos_nonneg; lia).
  assert (Pb : (0 < 2 ^ (b + 1))%Z) by (apply Z.pow_pos_nonneg; lia).
  apply Qle_shift_div_r.
  - rewrite <- (Zlt_Qlt 0). exact Pb.
  - unfold Qle, Qmult, inject_Z. simpl. nia.
Qed.

Lemma last_place_split (x : Q) :
  0 < x ->
  2 ^ Float.last_place x == 2 ^ (-1074) \/
  2 ^ Float.last_place x <= x * 2 ^ (-52).
Proof.
  intros Hx. unfold Float.last_place. rewrite (Qabs_nonneg_eq x) by now apply Qlt_le_weak.
  pose proof (ilog2_le x Hx) as L.
  destruct (Z.max_spec (Float.ilog2 x) (-1022)) as [[_ ->]|[_ ->]].
  - left. reflexivity.
  - right. replace (Float.ilog2 x - 52)%Z with (Float.ilog2 x + (-52))%Z by lia.
    rewrite Qpower_plus by apply two_nonzero.
    apply Qmult_le_compat_r; [exact L|]. apply Qlt_le_weak, pow2_pos.
Qed.

Lemma pow2_m51 : 2 ^ (-51) = 1 # 2251799813685248.
Proof. reflexivity. Qed.
Lemma pow2_m52 : 2 ^ (-52) = 1 # 4503599627370496.
Proof. reflexivity. Qed.
Lemma pow2_m53 : 2 ^ (-53) = 1 # 9007199254740992.
Proof. reflexivity. Qed.

Lemma pow2_le (a b : Z) : (a <= b)%Z -> 2 ^ a <= 2 ^ b.
Proof. intros H. apply Qpower_le_compat_l; [exact H|discriminate]. Qed.

(** The relative error of rounding is at most [2^-53] in the normal range. *)
Lemma round_relative (x : Q) :
  2 ^ (-1022) <= x ->
  x * (1 - 2 ^ (-53)) <= Float.round x /\ Float.round x <= x * (1 + 2 ^ (-53)).
Proof.
  intros Hx. pose proof (round_near x) as [L U].
  assert (Hx0 : 0 < x) by (apply Qlt_le_trans with (2 ^ (-1022)); [apply pow2_pos|exact Hx]).
  pose proof (last_place_split x Hx0) as Q.
  assert (E : 2 ^ (-1074) == 2 ^ (-1022) * 2 ^ (-52)).
  { change (-1074)%Z with (-1022 + -52)%Z. apply Qpower_plus, two_nonzero. }
  rewrite pow2_m52 in *. rewrite pow2_m53.
  set (q := 2 ^ Float.last_place x) in *. set (y := Float.round x) in *.
  set (a := 2 ^ (-1022)) in *. set (b := 2 ^ (-1074)) in *. clearbody q y a b.
  destruct Q as [Q|Q]; split; lra.
Qed.

(** In general a term for the subnormal range is added. *)
Lemma round_absolute (x : Q) :
  0 <= x ->
  x * (1 - 2 ^ (-53)) - 2 ^ (-1075) <= Float.round x /\
  Float.round x <= x * (1 + 2 ^ (-53)) + 2 ^ (-1075).
Proof.
  intros Hx. pose proof (pow2_pos (-1075)) as P.
  assert (E : 2 ^ (-1074) == 2 ^ (-1075) * 2).
  { change (-1074)%Z with (-1075 + 1)%Z. apply Qpower_plus, two_nonzero. }
  destruct (Qlt_le_dec 0 x) as [Hp|Hz].
  - pose proof (round_near x) as [L U].
    pose proof (last_place_split x Hp) as Q.
    rewrite pow2_m52 in *. rewrite pow2_m53.
    set (q := 2 ^ Float.last_place x) in *. set (y := Float.round x) in *.
    set (b := 2 ^ (-1074)) in *. set (c := 2 ^ (-1075)) in *. clearbody q y b c.
    destruct Q as [Q|Q]; split; lra.
  - assert (E0 : x == 0) by lra. rewrite (round_zero x E0).
    rewrite pow2_m53. set (c := 2 ^ (-1075)) in *. clearbody c. split; lra.
Qed.
End FloatFacts.

Section Numbers.
Local Open Scope Q_scope.

Lemma int_floor (x : Q) : 0 <= x -> Py.int x = Qfloor x.
Proof.
  destruct x as [n d]. unfold Py.int, Qle. simpl. intros H.
  apply Z.quot_div_nonneg; lia.
Qed.

Lemma int_bounds (x : Q) :
  0 <= x -> inject_Z (Py.int x) <= x /\ x < inject_Z (Py.int x) + 1.
Proof.
  intros H. rewrite (int_floor x H). split; [apply Qfloor_le|].
  pose proof (Qlt_floor x) as L. rewrite inject_Z_plus in L. exact L.
Qed.

Lemma max_cases (a b : Q) :
  (b <= a /\ Py.max a b = a) \/ (a < b /\ Py.max a b = b).
Proof.
  unfold Py.max. destruct (Qle_bool b a) eqn:E.
  - left. split; [now apply Qle_bool_iff|reflexivity].
  - right. split; [|reflexivity].
    apply Qnot_le_lt. intros H. apply Qle_bool_iff in H. congruence.
Qed.

Lemma max_ge_l (a b : Q) : a <= Py.max a b.
Proof.
  destruct (max_cases a b) as [[H ->]|[H ->]]; [apply Qle_refl|now apply Qlt_le_weak].
Qed.

Lemma max_ge_r (a b : Q) : b <= Py.max a b.
Proof. destruct (max_cases a b) as [[H ->]|[H ->]]; [exact H|apply Qle_refl]. Qed.

Lemma gt_iff (a b : Q) : Py.gt a b = true <-> b < a.
Proof.
  unfold Py.gt. rewrite negb_true_iff. split.
  - intros E. apply Qnot_le_lt. intros H. apply Qle_bool_iff in H. congruence.
  - intros H. destruct (Qle_bool a b) eqn:E; [|reflexivity].
    apply Qle_bool_iff in E. exfalso. apply (Qlt_not_le _ _ H E).
Qed.

Lemma inject_pos (z : Z) : (0 < z)%Z -> 0 < inject_Z z.
Proof. intros H. unfold Qlt, inject_Z. simpl. lia. Qed.

Lemma inject_Z_sub (a b : Z) : inject_Z (a - b) = inject_Z a - inject_Z b.
Proof. unfold Z.sub. rewrite inject_Z_plus, inject_Z_opp. reflexivity. Qed.

Lemma gt_zero_integer (z : Z) : Py.gt (inject_Z z) 0 = (0 <? z)%Z.
Proof.
  destruct (Z.ltb_spec 0 z) as [H|H].
  - apply gt_iff. now apply inject_pos.
  - destruct (Py.gt (inject_Z z) 0) eqn:E; [|reflexivity].
    apply gt_iff in E. unfold Qlt, inject_Z in E. simpl in E. lia.
Qed.

Lemma div_le_mul (a b c : Q) : 0 < b -> a / b <= c -> a <= b * c.
Proof.
  intros Hb H.
  assert (E : a == (a / b) * b) by (field; intros E; rewrite E in Hb; discriminate).
  rewrite E, (Qmult_comm b c).
  apply Qmult_le_compat_r; [exact H|now apply Qlt_le_weak].
Qed.

Lemma floor_lt (x s : Q) : x < s -> inject_Z (Qfloor x) < s.
Proof. intros H. apply Qle_lt_trans with x; [apply Qfloor_le|exact H]. Qed.

Lemma floor_half (a d : Z) (q : Q) :
  q == inject_Z a + inject_Z d / 2 -> (a + d / 2)%Z = Qfloor q.
Proof.
  intros Hq.
  rewrite (Qfloor_comp q (inject_Z (a * 2 + d) / inject_Z 2)).
  - rewrite <- Zdiv_Qdiv, Z.div_add_l by lia. reflexivity.
  - rewrite Hq, inject_Z_plus, inject_Z_mult. field.
Qed.

Lemma pdf_div_ok (a b : Q) : ~ b == 0 -> Pdf.div a b = ret (a / b).
Proof.
  intros H. unfold Pdf.div. destruct (Qeq_bool b 0) eqn:E; [|reflexivity].
  apply Qeq_bool_iff in E. contradiction.
Qed.

Lemma pdf_float_div_ok (a b : Q) : ~ b == 0 -> Pdf.float_div a b = ret (Float.div a b).
Proof.
  intros H. unfold Pdf.float_div. destruct (Qeq_bool b 0) eqn:E; [|reflexivity].
  apply Qeq_bool_iff in E. contradiction.
Qed.

Lemma png_div_ok (a b : Z) :
  b <> 0%Z -> Png.div a b = ret (Float.div (inject_Z a) (inject_Z b)).
Proof.
  intros H. unfold Png.div. destruct (Z.eqb_spec b 0); [contradiction|reflexivity].
Qed.

Lemma scale_integer (s z : Z) : Png.scale s (inject_Z z) = (z * s)%Z.
Proof. unfold Png.scale, Py.int, inject_Z. simpl. apply Z.quot_1_r. Qed.
End Numbers.

(** ** Image placement *)

Section Rounded.
Local Open Scope Q_scope.

Lemma pow2_m59 : 2 ^ (-59) = 1 # 576460752303423488.
Proof. reflexivity. Qed.
Lemma pow2_m60 : 2 ^ (-60) = 1 # 1152921504606846976.
Proof. reflexivity. Qed.

Lemma round_normal (x : Q) :
  2 ^ (-60) <= x ->
  x * (1 - 2 ^ (-53)) <= Float.round x /\ Float.round x <= x * (1 + 2 ^ (-53)).
Proof.
  intros H. apply round_relative.
  apply Qle_trans with (2 ^ (-60)); [|exact H]. apply pow2_le. lia.
Qed.

Lemma above_twice (x y : Q) :
  0 <= x -> y <= x * (1 + 2 ^ (-53)) * (1 + 2 ^ (-53)) -> y <= x * (1 + 2 ^ (-51)).
Proof. rewrite pow2_m53, pow2_m51. intros Hx H. lra. Qed.

(** A product taken after a rounding: both roundings are within [2^-53]. *)
Lemma mul_rounded (s r f : Q) :
  2 ^ (-59) <= s * r -> 0 <= s ->
  r * (1 - 2 ^ (-53)) <= f -> f <= r * (1 + 2 ^ (-53)) ->
  s * r * (1 - 2 ^ (-53)) * (1 - 2 ^ (-53)) <= Float.mul s f /\
  Float.mul s f <= s * r * (1 + 2 ^ (-53)) * (1 + 2 ^ (-53)).
Proof.
  intros Hx Hs L U. unfold Float.mul.
  assert (L' : r * (1 - 2 ^ (-53)) * s <= f * s) by (apply Qmult_le_compat_r; assumption).
  assert (U' : f * s <= r * (1 + 2 ^ (-53)) * s) by (apply Qmult_le_compat_r; assumption).
  assert (Ef : f * s == s * f) by ring.
  assert (El : r * (1 - 2 ^ (-53)) * s == s * r * (1 - 2 ^ (-53))) by ring.
  assert (Eu : r * (1 + 2 ^ (-53)) * s == s * r * (1 + 2 ^ (-53))) by ring.
  rewrite Ef, El in L'. rewrite Ef, Eu in U'. clear Ef El Eu L U.
  assert (Hp : 2 ^ (-60) <= s * f).
  { rewrite pow2_m60. rewrite pow2_m59 in Hx. rewrite pow2_m53 in L'.
    set (x := s * r) in *. set (p := s * f) in *. clearbody x p. lra. }
  destruct (round_normal (s * f) Hp) as [L2 U2].
  rewrite pow2_m53 in *.
  set (x := s * r) in *. set (p := s * f) in *. set (y := Float.round p) in *.
  clearbody x p y. split; lra.
Qed.

Lemma max_rounded (a b fa fb : Q) :
  a * (1 - 2 ^ (-53)) <= fa -> fa <= a * (1 + 2 ^ (-53)) ->
  b * (1 - 2 ^ (-53)) <= fb -> fb <= b * (1 + 2 ^ (-53)) ->
  Py.max a b * (1 - 2 ^ (-53)) <= Py.max fa fb /\
  Py.max fa fb <= Py.max a b * (1 + 2 ^ (-53)).
Proof.
  rewrite pow2_m53. intros La Ua Lb Ub.
  destruct (max_cases a b) as [[H ->]|[H ->]];
    destruct (max_cases fa fb) as [[H' ->]|[H' ->]]; split; lra.
Qed.

(** The integer part of a number that is within two roundings of the
    fraction [N/d]: the floor of the fraction, or one less. *)
Lemma near_floor (X Y : Q) (N d : Z) :
  (0 < d)%Z -> (0 <= N < 2 ^ 50)%Z ->
  X * inject_Z d == inject_Z N ->
  X * (1 - 2 ^ (-53)) * (1 - 2 ^ (-53)) <= Y ->
  Y <= X * (1 + 2 ^ (-53)) * (1 + 2 ^ (-53)) ->
  (Qfloor X - 1 <= Py.int Y <= Qfloor X)%Z.
Proof.
  intros Hd [HN0 HN] HX L U. rewrite pow2_m53 in *.
  assert (Qd : 1 <= inject_Z d) by (rewrite <- (Zle_Qle 1); lia).
  assert (Qn0 : 0 <= inject_Z N) by (rewrite <- (Zle_Qle 0); exact HN0).
  assert (Qn : inject_Z N <= 1125899906842624 - 1).
  { change (1125899906842624 - 1) with (inject_Z (2 ^ 50 - 1)). rewrite <- Zle_Qle. lia. }
  assert (HX0 : 0 <= X).
  { destruct (Qlt_le_dec X 0) as [Hneg|]; [|assumption]. exfalso.
    assert (X * inject_Z d < 0 * inject_Z d) by (apply Qmult_lt_compat_r; lra). lra. }
  assert (HXN : X <= inject_Z N).
  { assert (0 <= X * (inject_Z d - 1)) by (apply Qmult_le_0_compat; lra).
    assert (E : X * (inject_Z d - 1) == X * inject_Z d - X) by ring. lra. }
  assert (HY0 : 0 <= Y) by lra.
  rewrite (int_floor Y HY0).
  pose proof (Qfloor_le X) as FL. pose proof (Qlt_floor X) as FU.
  pose proof (Qfloor_le Y) as GL. pose proof (Qlt_floor Y) as GU.
  set (F := Qfloor X) in *. set (G := Qfloor Y) in *.
  rewrite inject_Z_plus in FU, GU. change (inject_Z 1) with 1 in FU, GU.
  (* the fraction is at least 1/d below the next integer *)
  assert (Hgap : inject_Z N + 1 <= (inject_Z F + 1) * inject_Z d).
  { assert (S : inject_Z N < inject_Z ((F + 1) * d)).
    { rewrite inject_Z_mult, inject_Z_plus. change (inject_Z 1) with 1.
      rewrite <- HX. apply Qmult_lt_compat_r; lra. }
    rewrite <- Zlt_Qlt in S.
    assert (S' : (N + 1 <= (F + 1) * d)%Z) by lia.
    rewrite Zle_Qle in S'. rewrite inject_Z_mult, !inject_Z_plus in S'. exact S'. }
  assert (Yd : Y * inject_Z d
               <= X * (1 + (1 # 9007199254740992)) * (1 + (1 # 9007199254740992))
                  * inject_Z d)
    by (apply Qmult_le_compat_r; lra).
  assert (Ed : X * (1 + (1 # 9007199254740992)) * (1 + (1 # 9007199254740992)) * inject_Z d
               == X * inject_Z d * ((1 + (1 # 9007199254740992)) * (1 + (1 # 9007199254740992))))
    by ring.
  rewrite Ed, HX in Yd. clear Ed.
  assert (Hup : Y < inject_Z F + 1).
  { destruct (Qlt_le_dec Y (inject_Z F + 1)) as [|Hge]; [assumption|]. exfalso.
    assert ((inject_Z F + 1) * inject_Z d <= Y * inject_Z d)
      by (apply Qmult_le_compat_r; lra).
    set (yd := Y * inject_Z d) in *. set (fd := (inject_Z F + 1) * inject_Z d) in *.
    clearbody yd fd. lra. }
  clearbody F G. split.
  - assert (S : inject_Z (F - 1) < inject_Z (G + 1))
      by (rewrite inject_Z_sub, inject_Z_plus; change (inject_Z 1) with 1; lra).
    rewrite <- Zlt_Qlt in S. lia.
  - assert (S : inject_Z G < inject_Z (F + 1))
      by (rewrite inject_Z_plus; change (inject_Z 1) with 1; lra).
    rewrite <- Zlt_Qlt in S. lia.
Qed.
End Rounded.

Section Fill.
Local Open Scope Q_scope.

Lemma ratio_normal (a b : Z) :
  (0 < a)%Z -> (0 < b < 2 ^ 25)%Z -> 2 ^ (-59) <= inject_Z a / inject_Z b.
Proof.
  intros Ha [Hb0 Hb].
  assert (Qa : 1 <= inject_Z a) by (rewrite <- (Zle_Qle 1); lia).
  assert (Qb0 : 0 < inject_Z b) by now apply inject_pos.
  assert (Qb : inject_Z b <= 33554432).
  { change 33554432 with (inject_Z (2 ^ 25)). rewrite <- Zle_Qle. lia. }
  apply Qle_shift_div_l; [exact Qb0|]. rewrite pow2_m59. lra.
Qed.

Lemma ratio_rounded (a b : Z) :
  (0 < a)%Z -> (0 < b < 2 ^ 25)%Z ->
  let r := inject_Z a / inject_Z b in
  r * (1 - 2 ^ (-53)) <= Float.div (inject_Z a) (inject_Z b) /\
  Float.div (inject_Z a) (inject_Z b) <= r * (1 + 2 ^ (-53)).
Proof.
  intros Ha Hb r. apply round_normal.
  apply Qle_trans with (2 ^ (-59)); [apply pow2_le; lia|now apply ratio_normal].
Qed.

(** One dimension of an image scaled by the larger of two rounded ratios
    and truncated: the exact product truncated, or one less. *)
Lemma scaled_dimension (k a b c d : Z) :
  (0 < k < 2 ^ 25)%Z -> (0 < a < 2 ^ 25)%Z -> (0 < b < 2 ^ 25)%Z ->
  (0 < c < 2 ^ 25)%Z -> (0 < d < 2 ^ 25)%Z ->
  let exact := Py.max (inject_Z a / inject_Z b) (inject_Z c / inject_Z d) in
  let scale := Py.max (Float.div (inject_Z a) (inject_Z b))
                 (Float.div (inject_Z c) (inject_Z d)) in
  (Qfloor (inject_Z k * exact) - 1 <= Py.int (Float.mul (inject_Z k) scale)
     <= Qfloor (inject_Z k * exact))%Z.
Proof.
  intros Hk Ha Hb Hc Hd exact scale.
  destruct (ratio_rounded a b (proj1 Ha) Hb) as [La Ua].
  destruct (ratio_rounded c d (proj1 Hc) Hd) as [Lc Uc].
  destruct (max_rounded _ _ _ _ La Ua Lc Uc) as [L U]. fold exact scale in L, U.
  assert (Qk : 1 <= inject_Z k) by (rewrite <- (Zle_Qle 1); lia).
  assert (Qb : 0 < inject_Z b) by (apply inject_pos; lia).
  assert (Qd : 0 < inject_Z d) by (apply inject_pos; lia).
  assert (Hexact : 2 ^ (-59) <= exact).
  { apply Qle_trans with (inject_Z a / inject_Z b);
      [apply ratio_normal; [lia|exact Hb]|apply max_ge_l]. }
  assert (Hprod : 2 ^ (-59) <= inject_Z k * exact).
  { assert (P : 0 < 2 ^ (-59)) by apply pow2_pos.
    assert (0 <= (inject_Z k - 1) * exact) by (apply Qmult_le_0_compat; lra).
    assert (E : (inject_Z k - 1) * exact == inject_Z k * exact - exact) by ring.
    set (e := 2 ^ (-59)) in *. set (x := inject_Z k * exact) in *. clearbody e x. lra. }
  destruct (mul_rounded (inject_Z k) exact scale Hprod ltac:(lra) L U) as [L2 U2].
  destruct (max_cases (inject_Z a / inject_Z b) (inject_Z c / inject_Z d))
    as [[_ E]|[_ E]].
  - apply (near_floor _ _ (k * a) b); [lia|nia| |exact L2|exact U2].
    unfold exact. rewrite E, inject_Z_mult. field. lra.
  - apply (near_floor _ _ (k * c) d); [lia|nia| |exact L2|exact U2].
    unfold exact. rewrite E, inject_Z_mult. field. lra.
Qed.

Lemma floor_covers (k a : Z) (s : Q) :
  (0 < k)%Z -> inject_Z a / inject_Z k <= s -> (a <= Qfloor (inject_Z k * s))%Z.
Proof.
  intros Hk H. rewrite <- (Qfloor_Z a). apply Qfloor_resp_le.
  apply div_le_mul; [now apply inject_pos|exact H].
Qed.

(** C6, as amended.  For a box and an image of positive dimensions, the
    fill placement uses the larger of the two ratios [box_width/img_width]
    and [box_height/img_height] as its scale.  With lengths as exact
    numbers, the vector backend draws the image at
    [(img_width*scale, img_height*scale)]: the aspect ratio is kept, the
    box is covered and the image is centred horizontally.  The raster
    backend rounds the two ratios and the two products as floats and
    truncates each product to a whole number of pixels on its own: for
    dimensions below [2^25] pixels, each side is the exact product
    truncated, or one pixel less, so each side of the box is covered up to
    one pixel; the horizontal offset is the floor of half the difference.
    A 200x100 image in a 100x50 box gets scale 1/2 and size 100x50, and a
    100x200 image in a 100x50 box gets scale 1 and size 100x200, on both
    backends; a 161x322 image in an 800x800 raster box is resized to
    799x1599. *)
Theorem fill_placement_spec (img_width img_height : Z) (x y box_width box_height : Q)
    (px py pw ph : Z) :
  (0 < img_width)%Z -> (0 < img_height)%Z ->
  0 < box_width -> 0 < box_height -> (0 < pw)%Z -> (0 < ph)%Z ->
  let iw := inject_Z img_width in
  let ih := inject_Z img_height in
  (exists p,
      Pdf.fill_placement img_width img_height x y box_width box_height
        box_width box_height = ret p /\
      Pdf.scale p = Py.max (box_width / iw) (box_height / ih) /\
      Pdf.final_width p = iw * Pdf.scale p /\
      Pdf.final_height p = ih * Pdf.scale p /\
      Pdf.final_width p * ih == Pdf.final_height p * iw /\
      box_width <= Pdf.final_width p /\ box_height <= Pdf.final_height p /\
      Pdf.x_offset p - x == (x + box_width) - (Pdf.x_offset p + Pdf.final_width p) /\
      Pdf.y_offset p = y) /\
  (exists p,
      Png.fill_placement img_width img_height px py pw ph = ret p /\
      Png.fill_scale p
        = Py.max (Float.div (inject_Z pw) iw) (Float.div (inject_Z ph) ih) /\
      Png.final_width p = Py.int (Float.mul iw (Png.fill_scale p)) /\
      Png.final_height p = Py.int (Float.mul ih (Png.fill_scale p)) /\
      Png.x_offset p = (px + (pw - Png.final_width p) / 2)%Z /\
      Png.y_offset p = py /\
      ((img_width < 2 ^ 25)%Z -> (img_height < 2 ^ 25)%Z ->
       (pw < 2 ^ 25)%Z -> (ph < 2 ^ 25)%Z ->
       let exact := Py.max (inject_Z pw / iw) (inject_Z ph / ih) in
       (Qfloor (iw * exact) - 1 <= Png.final_width p <= Qfloor (iw * exact))%Z /\
       (Qfloor (ih * exact) - 1 <= Png.final_height p <= Qfloor (ih * exact))%Z /\
       (pw - 1 <= Png.final_width p)%Z /\ (ph - 1 <= Png.final_height p)%Z)) /\
  ((exists p, Pdf.fill_placement 200 100 0 0 100 50 100 50 = ret p /\
              Pdf.scale p == 1 # 2 /\
              Pdf.final_width p == 100 /\ Pdf.final_height p == 50) /\
   (exists p, Pdf.fill_placement 100 200 0 0 100 50 100 50 = ret p /\
              Pdf.scale p == 1 /\
              Pdf.final_width p == 100 /\ Pdf.final_height p == 200) /\
   (exists p, Png.fill_placement 200 100 0 0 100 50 = ret p /\
              Png.fill_scale p == 1 # 2 /\
              Png.final_width p = 100%Z /\ Png.final_height p = 50%Z) /\
   (exists p, Png.fill_placement 100 200 0 0 100 50 = ret p /\
              Png.fill_scale p == 1 /\
              Png.final_width p = 100%Z /\ Png.final_height p = 200%Z) /\
   (exists p, Png.fill_placement 161 322 0 0 800 800 = ret p /\
              Png.final_width p = 799%Z /\ Png.final_height p = 1599%Z)).
Proof.
  intros Hw Hh Hbw Hbh Hpw Hph iw ih.
  assert (Hiw : 0 < iw) by now apply inject_pos.
  assert (Hih : 0 < ih) by now apply inject_pos.
  subst iw ih.
  set (iw := inject_Z img_width) in *. set (ih := inject_Z img_height) in *.
  assert (Hiw0 : ~ iw == 0) by (intros E; rewrite E in Hiw; discriminate).
  assert (Hih0 : ~ ih == 0) by (intros E; rewrite E in Hih; discriminate).
  split; [|split].
  - unfold Pdf.fill_placement. fold iw ih.
    rewrite (pdf_div_ok box_height ih Hih0). cbn [bind ret lift].
    rewrite (pdf_div_ok box_width iw Hiw0). cbn [bind ret lift app].
    eexists. split; [reflexivity|].
    cbn [Pdf.scale Pdf.final_width Pdf.final_height Pdf.x_offset Pdf.y_offset].
    fold iw ih.
    set (s := Py.max (box_width / iw) (box_height / ih)).
    assert (Hs1 : box_width / iw <= s) by apply max_ge_l.
    assert (Hs2 : box_height / ih <= s) by apply max_ge_r.
    repeat split.
    + ring.
    + now apply div_le_mul.
    + now apply div_le_mul.
    + field.
  - unfold Png.fill_placement. fold iw ih.
    rewrite (png_div_ok ph img_height) by lia. cbn [bind ret lift].
    rewrite (png_div_ok pw img_width) by lia. cbn [bind ret lift app].
    eexists. split; [reflexivity|].
    cbn [Png.fill_scale Png.final_width Png.final_height Png.x_offset Png.y_offset].
    fold iw ih.
    do 5 (split; [reflexivity|]).
    intros Bw Bh Bpw Bph.
    set (exact := Py.max (inject_Z pw / iw) (inject_Z ph / ih)).
    pose proof (scaled_dimension img_width pw img_width ph img_height
                  ltac:(lia) ltac:(lia) ltac:(lia) ltac:(lia) ltac:(lia)) as Dw.
    pose proof (scaled_dimension img_height pw img_width ph img_height
                  ltac:(lia) ltac:(lia) ltac:(lia) ltac:(lia) ltac:(lia)) as Dh.
    cbv zeta in Dw, Dh. fold iw ih in Dw, Dh. fold exact in Dw, Dh.
    assert (Cw : (pw <= Qfloor (iw * exact))%Z)
      by (apply floor_covers; [exact Hw|apply max_ge_l]).
    assert (Ch : (ph <= Qfloor (ih * exact))%Z)
      by (apply floor_covers; [exact Hh|apply max_ge_r]).
    split; [exact Dw|]. split; [exact Dh|]. split; lia.
  - repeat split; eexists; (split; [reflexivity|]); vm_compute; repeat split; reflexivity.
Qed.

(** A 161x322 image in an 800x800 box: the exact products are 800 and
    1600, and the image is resized to one pixel less on each side. *)
Lemma fill_placement_spec_witness :
  exists p,
    Png.fill_placement 161 322 0 0 800 800 = ret p /\
    (799 <= Png.final_width p <= 800)%Z /\ (1599 <= Png.final_height p <= 1600)%Z.
Proof.
  destruct (fill_placement_spec 161 322 0 0 100 50 0 0 800 800
              ltac:(reflexivity) ltac:(reflexivity) ltac:(reflexivity)
              ltac:(reflexivity) ltac:(reflexivity) ltac:(reflexivity))
    as (_ & (p & Hp & _ & _ & _ & _ & _ & Hb) & _).
  destruct (Hb ltac:(reflexivity) ltac:(reflexivity) ltac:(reflexivity) ltac:(reflexivity))
    as (Hfw & Hfh & _).
  exists p. split; [exact Hp|]. split; [exact Hfw|exact Hfh].
Defined.

(** C6 fails as stated on the raster backend.  A 3x2 image in a 10x5 box
    has scale 10/3 (rounded); the image is resized to 10x6, not to 10 by
    20/3, and 10:6 is not 3:2.  A 161x322 image in an 800x800 box has the
    exact size 800x1600 and is resized to 799x1599, which leaves a column
    of the box uncovered. *)
Lemma fill_placement_counterexample :
  (exists p,
     Png.fill_placement 3 2 0 0 10 5 = ret p /\
     Png.final_width p = 10%Z /\ Png.final_height p = 6%Z /\
     ~ inject_Z (Png.final_height p) == 2 * Png.fill_scale p /\
     ~ inject_Z (Png.final_height p) == 2 * (10 # 3) /\
     (Png.final_width p * 2 <> Png.final_height p * 3)%Z) /\
  (exists p,
     Png.fill_placement 161 322 0 0 800 800 = ret p /\
     161 * Py.max (800 / 161) (800 / 322) == 800 /\
     Png.final_width p = 799%Z /\ Png.final_height p = 1599%Z /\
     (Png.final_width p < 800)%Z).
Proof.
  split.
  - eexists. split; [reflexivity|]. vm_compute.
    split; [reflexivity|]. split; [reflexivity|].
    split; [|split]; intros H; discriminate H.
  - eexists. split; [reflexivity|]. vm_compute.
    split; [reflexivity|]. split; [reflexivity|]. split; reflexivity.
Qed.
End Fill.

(** ** The single-line fitter *)

Section Shrink.
Local Open Scope Q_scope.

Lemma pow2_m50 : 2 ^ (-50) = 1 # 1125899906842624.
Proof. reflexivity. Qed.
Lemma pow2_m100 : 2 ^ (-100) = 1 # 1267650600228229401496703205376.
Proof. reflexivity. Qed.

(** Rounding in any range, with a constant for the subnormal term. *)
Lemma round_any (x : Q) :
  0 <= x ->
  x * (1 - 2 ^ (-53)) - 2 ^ (-100) <= Float.round x /\
  Float.round x <= x * (1 + 2 ^ (-53)) + 2 ^ (-100).
Proof.
  intros Hx. destruct (round_absolute x Hx) as [L U].
  assert (H : 2 ^ (-1075) <= 2 ^ (-100)) by (apply pow2_le; lia).
  rewrite pow2_m53 in *.
  set (c := 2 ^ (-1075)) in *. set (d := 2 ^ (-100)) in *. set (y := Float.round x) in *.
  clearbody c d y. split; lra.
Qed.

(** The size computed by the vector fitter, against the exact quotient. *)
Lemma shrunk_size_any (s r : Q) :
  1 <= s -> s <= 2 ^ 50 -> 0 <= r -> r < 1 ->
  let y := Float.mul s (Float.round r) in
  0 <= y /\ s * r - 1 < y /\ y < s * r + 1 /\
  (r * (1 + 2 ^ (-50)) <= 1 -> y < s).
Proof.
  intros Hs Hs' Hr Hr1 y. unfold Float.mul in y.
  pose proof (round_nonneg r Hr) as Hf.
  destruct (round_any r Hr) as [Lf Uf].
  set (f := Float.round r) in *.
  assert (Hp : 0 <= s * f) by (apply Qmult_le_0_compat; lra).
  pose proof (round_nonneg (s * f) Hp) as Hy.
  destruct (round_any (s * f) Hp) as [Ly Uy]. fold y in Hy, Ly, Uy.
  assert (Lp : (r * (1 - 2 ^ (-53)) - 2 ^ (-100)) * s <= f * s)
    by (apply Qmult_le_compat_r; lra).
  assert (Up : f * s <= (r * (1 + 2 ^ (-53)) + 2 ^ (-100)) * s)
    by (apply Qmult_le_compat_r; lra).
  assert (Hx : 0 <= s * r) by (apply Qmult_le_0_compat; lra).
  assert (Hxs : r * s <= 1 * s) by (apply Qmult_le_compat_r; lra).
  change (2 ^ 50) with 1125899906842624 in Hs'.
  rewrite pow2_m53, pow2_m100 in *. rewrite pow2_m50.
  assert (E1 : (r * (1 - (1 # 9007199254740992)) - (1 # 1267650600228229401496703205376)) * s
               == s * r * (1 - (1 # 9007199254740992))
                  - s * (1 # 1267650600228229401496703205376)) by ring.
  assert (E2 : (r * (1 + (1 # 9007199254740992)) + (1 # 1267650600228229401496703205376)) * s
               == s * r * (1 + (1 # 9007199254740992))
                  + s * (1 # 1267650600228229401496703205376)) by ring.
  assert (E3 : f * s == s * f) by ring.
  assert (E4 : r * s == s * r) by ring.
  rewrite E1, E3 in Lp. rewrite E2, E3 in Up. rewrite E4 in Hxs. clear E1 E2 E3 E4.
  assert (Hm' : r * (1 + (1 # 1125899906842624)) <= 1 ->
                s * r * (1 + (1 # 1125899906842624)) <= s).
  { intros Hm.
    assert (H' : r * (1 + (1 # 1125899906842624)) * s <= 1 * s)
      by (apply Qmult_le_compat_r; lra).
    assert (E5 : r * (1 + (1 # 1125899906842624)) * s
                 == s * r * (1 + (1 # 1125899906842624))) by ring.
    rewrite E5 in H'. lra. }
  set (x := s * r) in *. set (p := s * f) in *. clearbody x p y f.
  split; [exact Hy|]. split; [lra|]. split; [lra|].
  intros Hm. specialize (Hm' Hm). lra.
Qed.

(** Unless the computed size is below 1, both roundings were made in the
    normal range. *)
Lemma shrunk_size_relative (s r : Q) :
  1 <= s -> s <= 2 ^ 50 -> 0 <= r ->
  let y := Float.mul s (Float.round r) in
  y < 1 \/ y <= s * r * (1 + 2 ^ (-51)).
Proof.
  intros Hs Hs' Hr y. destruct (Qlt_le_dec y 1) as [Hy|Hy]; [now left|right].
  unfold Float.mul in y.
  pose proof (round_nonneg r Hr) as Hf.
  destruct (round_any r Hr) as [_ Uf].
  set (f := Float.round r) in *.
  assert (Hp : 0 <= s * f) by (apply Qmult_le_0_compat; lra).
  destruct (round_any (s * f) Hp) as [_ Uy]. fold y in Uy.
  assert (Hfs : f * s <= f * 2 ^ 50).
  { rewrite !(Qmult_comm f). apply Qmult_le_compat_r; assumption. }
  assert (Hr' : 2 ^ (-59) <= r).
  { revert Uf Uy Hfs. change (2 ^ 50) with 1125899906842624.
    rewrite pow2_m53, pow2_m100, pow2_m59.
    assert (E : f * s == s * f) by ring. rewrite E.
    set (p := s * f). clearbody p y f. intros. lra. }
  assert (Hx : 2 ^ (-59) <= s * r).
  { assert (0 <= (s - 1) * r) by (apply Qmult_le_0_compat; lra).
    assert (E : (s - 1) * r == s * r - r) by ring.
    set (e := 2 ^ (-59)) in *. set (x := s * r) in *. clearbody e x. lra. }
  assert (Hr60 : 2 ^ (-60) <= r).
  { apply Qle_trans with (2 ^ (-59)); [apply pow2_le; lia|exact Hr']. }
  destruct (round_normal r Hr60) as [Lf' Uf']. fold f in Lf', Uf'.
  destruct (mul_rounded s r f Hx ltac:(lra) Lf' Uf') as [_ U].
  fold y in U. apply above_twice; [|exact U].
  apply Qmult_le_0_compat; lra.
Qed.

(** C3, as amended.  For every text, box width, starting font size
    [s >= 1] and padding: when the measured width does not exceed
    [box_width - 2*padding], the size is unchanged.  When it exceeds that
    available width, which is not negative, the fitter continues with the
    integer part of the float product of [s] and the float quotient of the
    available by the measured width.  On the vector backend, for [s] up to
    [2^50], that size is within one of the floor of the exact value
    [s * (box_width - 2*padding) / measured_width]; it is smaller than [s]
    when the measured width exceeds the available width by more than one
    part in [2^50]; and the width measured again is within the available
    width, up to one part in [2^51], when the font's text width is
    proportional to the size.  On the raster backend, for sizes and widths
    below [2^25] pixels, the size is the floor of the exact value or one
    less, it is smaller than [s], and the width measured again is within
    the available width when it is at most proportional to the size. *)
Theorem auto_shrink_spec (E : Pdf.env) (G : Png.env) (text font : string) (bold : bool)
    (box_width s padding : Q) (pbox ps ppad : Z) :
  1 <= s -> (1 <= ps)%Z ->
  let avail := box_width - 2 * padding in
  let tw := Pdf.stringWidth E text font s in
  let pavail := (pbox - 2 * ppad)%Z in
  let ptw := text_width G text ps bold in
  (tw <= avail -> Pdf.fit_single_line E text font box_width s padding = ret (s, tw)) /\
  (avail < tw -> 0 <= avail ->
     exists s' : Z,
       result (Pdf.fit_single_line E text font box_width s padding)
         = Ok (inject_Z s', Pdf.stringWidth E text font (inject_Z s')) /\
       s' = Py.int (Float.mul s (Float.div avail tw)) /\
       (s <= 2 ^ 50 ->
        (Qfloor (s * (avail / tw)) - 1 <= s' <= Qfloor (s * (avail / tw)) + 1)%Z /\
        (avail * (1 + 2 ^ (-50)) <= tw -> inject_Z s' < s) /\
        (scalable E text font ->
         Pdf.stringWidth E text font (inject_Z s') <= avail * (1 + 2 ^ (-51))))) /\
  ((ptw <= pavail)%Z ->
     Png.fit_single_line G text bold pbox ps ppad
       = ret (ps, ptw, Png.bbox_height (Png.textbbox G text ps bold))) /\
  ((pavail < ptw)%Z -> (0 <= pavail)%Z ->
     exists s' : Z,
       result (Png.fit_single_line G text bold pbox ps ppad)
         = Ok (s', text_width G text s' bold,
               Png.bbox_height (Png.textbbox G text s' bold)) /\
       s' = Py.int (Float.mul (inject_Z ps) (Float.div (inject_Z pavail) (inject_Z ptw))) /\
       ((ps < 2 ^ 25)%Z -> (ptw < 2 ^ 25)%Z ->
        (ps * pavail / ptw - 1 <= s' <= ps * pavail / ptw)%Z /\
        (s' < ps)%Z /\
        ((text_width G text s' bold * ps <= ptw * s')%Z ->
         (text_width G text s' bold <= pavail)%Z))).
Proof.
  intros Hs Hps avail tw pavail ptw.
  split; [|split; [|split]].
  - intros Hfit. unfold Pdf.fit_single_line. fold tw avail.
    destruct (Py.gt tw avail) eqn:Egt; [|reflexivity].
    apply gt_iff in Egt. exfalso. exact (Qlt_not_le _ _ Egt Hfit).
  - intros Hover Havail.
    assert (Htw : 0 < tw) by (apply Qle_lt_trans with avail; assumption).
    assert (Htw0 : ~ tw == 0) by (intros E0; rewrite E0 in Htw; discriminate).
    assert (Hratio : 0 <= avail / tw).
    { apply Qle_shift_div_l; [exact Htw|]. rewrite Qmult_0_l. exact Havail. }
    assert (Hratio1 : avail / tw < 1).
    { apply Qlt_shift_div_r; [exact Htw|]. rewrite Qmult_1_l. exact Hover. }
    exists (Py.int (Float.mul s (Float.div avail tw))).
    split; [|split; [reflexivity|]].
    + unfold Pdf.fit_single_line. fold tw avail.
      assert (Egt : Py.gt tw avail = true) by now apply gt_iff.
      rewrite Egt, (pdf_float_div_ok avail tw Htw0). reflexivity.
    + intros Hs50. unfold Float.div.
      destruct (shrunk_size_any s (avail / tw) Hs Hs50 Hratio Hratio1)
        as (Hy0 & Hlo & Hhi & Hstrict).
      pose proof (shrunk_size_relative s (avail / tw) Hs Hs50 Hratio) as Hrel.
      cbv zeta in Hy0, Hlo, Hhi, Hstrict, Hrel.
      set (y := Float.mul s (Float.round (avail / tw))) in *.
      rewrite (int_floor y Hy0).
      pose proof (Qfloor_le y) as GL. pose proof (Qlt_floor y) as GU.
      pose proof (Qfloor_le (s * (avail / tw))) as FL.
      pose proof (Qlt_floor (s * (avail / tw))) as FU.
      rewrite inject_Z_plus in GU, FU. change (inject_Z 1) with 1 in GU, FU.
      set (x := s * (avail / tw)) in *.
      set (F := Qfloor x) in *. set (g := Qfloor y) in *.
      split; [|split].
      * clearbody F g. split.
        -- assert (S : inject_Z (F - 1) < inject_Z (g + 1)).
           { rewrite inject_Z_sub, inject_Z_plus. change (inject_Z 1) with 1.
             clearbody x y. lra. }
           rewrite <- Zlt_Qlt in S. lia.
        -- assert (S : inject_Z g < inject_Z (F + 2)).
           { rewrite inject_Z_plus. change (inject_Z 2) with 2. clearbody x y. lra. }
           rewrite <- Zlt_Qlt in S. lia.
      * intros Hm. apply Qle_lt_trans with y; [exact GL|]. apply Hstrict.
        apply (Qmult_le_r _ _ tw Htw). rewrite Qmult_1_l.
        assert (Em : avail / tw * (1 + 2 ^ (-50)) * tw == avail * (1 + 2 ^ (-50)))
          by (field; exact Htw0).
        rewrite Em. exact Hm.
      * intros Hlin.
        set (u := Pdf.stringWidth E text font 1).
        assert (Hu : tw == s * u) by apply Hlin.
        assert (Hs0 : 0 < s) by lra.
        assert (Hu0 : 0 <= u).
        { destruct (Qlt_le_dec u 0) as [Hneg|]; [|assumption].
          exfalso. apply (Qlt_not_le _ _ Htw). rewrite Hu.
          rewrite <- (Qmult_0_r s).
          apply Qmult_le_l; [exact Hs0|now apply Qlt_le_weak]. }
        rewrite (Hlin (inject_Z g)). fold u.
        assert (Havail' : 0 <= avail * (1 + 2 ^ (-51))).
        { apply Qmult_le_0_compat; [exact Havail|]. rewrite pow2_m51. lra. }
        destruct Hrel as [Hsmall|Hrel].
        -- assert (Hg : g = 0%Z).
           { assert (S1 : inject_Z g < inject_Z 1) by (change (inject_Z 1) with 1; lra).
             assert (S2 : inject_Z (-1) < inject_Z g).
             { change (inject_Z (-1)) with (-1). clearbody g y. lra. }
             rewrite <- Zlt_Qlt in S1, S2. lia. }
           rewrite Hg. change (inject_Z 0) with 0. rewrite Qmult_0_l. exact Havail'.
        -- apply Qle_trans with (x * (1 + 2 ^ (-51)) * u).
           ++ apply Qmult_le_compat_r; [|exact Hu0].
              apply Qle_trans with y; assumption.
           ++ apply Qle_lteq. right. unfold x.
              assert (Eu : u == tw / s) by (rewrite Hu; field; lra).
              rewrite Eu. field. split; [lra|exact Htw0].
  - intros Hfit. unfold Png.fit_single_line.
    fold (text_width G text ps bold). fold ptw pavail.
    destruct (Z.ltb_spec pavail ptw); [lia|reflexivity].
  - intros Hover Havail.
    assert (Hptw : (0 < ptw)%Z) by lia.
    assert (Qptw : 0 < inject_Z ptw) by now apply inject_pos.
    exists (Py.int (Float.mul (inject_Z ps) (Float.div (inject_Z pavail) (inject_Z ptw)))).
    split; [|split; [reflexivity|]].
    + unfold Png.fit_single_line.
      fold (text_width G text ps bold). fold ptw pavail.
      destruct (Z.ltb_spec pavail ptw); [|lia].
      rewrite (png_div_ok pavail ptw) by lia. reflexivity.
    + intros Bps Bptw.
      assert (Hq : inject_Z ps * (inject_Z pavail / inject_Z ptw)
                   == inject_Z (ps * pavail) / inject_Z ptw).
      { rewrite inject_Z_mult. field. lra. }
      assert (HF : Qfloor (inject_Z ps * (inject_Z pavail / inject_Z ptw))
                   = (ps * pavail / ptw)%Z).
      { rewrite (Qfloor_comp _ _ Hq). symmetry. apply Zdiv_Qdiv. }
      assert (Hnear : (ps * pavail / ptw - 1
                       <= Py.int (Float.mul (inject_Z ps)
                                    (Float.div (inject_Z pavail) (inject_Z ptw)))
                       <= ps * pavail / ptw)%Z).
      { rewrite <- HF.
        destruct (Z.eq_dec pavail 0%Z) as [Hz|Hnz].
        - rewrite Hz. unfold Float.div, Float.mul.
          rewrite (round_zero (inject_Z 0 / inject_Z ptw)) by (field; lra).
          rewrite (round_zero (inject_Z ps * 0)) by ring.
          assert (E0 : Qfloor (inject_Z ps * (inject_Z 0 / inject_Z ptw)) = 0%Z).
          { rewrite (Qfloor_comp _ 0) by (field; lra). reflexivity. }
          rewrite E0. change (Py.int 0) with 0%Z. lia.
        - destruct (ratio_rounded pavail ptw ltac:(lia) ltac:(lia)) as [L U].
          assert (Hr : 2 ^ (-59) <= inject_Z pavail / inject_Z ptw)
            by (apply ratio_normal; lia).
          assert (Qps : 1 <= inject_Z ps) by (rewrite <- (Zle_Qle 1); lia).
          assert (Hx : 2 ^ (-59) <= inject_Z ps * (inject_Z pavail / inject_Z ptw)).
          { assert (P : 0 < 2 ^ (-59)) by apply pow2_pos.
            assert (0 <= (inject_Z ps - 1) * (inject_Z pavail / inject_Z ptw))
              by (apply Qmult_le_0_compat; lra).
            assert (Ex : (inject_Z ps - 1) * (inject_Z pavail / inject_Z ptw)
                         == inject_Z ps * (inject_Z pavail / inject_Z ptw)
                            - inject_Z pavail / inject_Z ptw) by ring.
            set (e := 2 ^ (-59)) in *.
            set (x := inject_Z ps * (inject_Z pavail / inject_Z ptw)) in *.
            set (r := inject_Z pavail / inject_Z ptw) in *. clearbody e x r. lra. }
          destruct (mul_rounded (inject_Z ps) _ _ Hx ltac:(lra) L U) as [L2 U2].
          apply (near_floor _ _ (ps * pavail) ptw); [lia|nia| |exact L2|exact U2].
          rewrite inject_Z_mult. field. lra. }
      assert (Hlt : (ps * pavail / ptw < ps)%Z).
      { apply Z.div_lt_upper_bound; [exact Hptw|]. nia. }
      split; [exact Hnear|]. split; [lia|].
      intros Hsub.
      set (s' := Py.int _) in *.
      set (w' := text_width G text s' bold) in *.
      assert (Hd : (ptw * (ps * pavail / ptw) <= ps * pavail)%Z)
        by (apply Z.mul_div_le; exact Hptw).
      nia.
Qed.

(** A 20-character name at 18 points in a 100-point box with 10 points of
    padding: 180 points wide against 80 available, so the size becomes
    [int(18 * (80 / 180)) = 8]. *)
Lemma auto_shrink_spec_witness :
  let E := Sample.pdf_env Sample.cfg Sample.people (200%Z, 100%Z) in
  exists s' : Z,
    result (Pdf.fit_single_line E "Alexandra Montgomery" "Helvetica" 100 18 10)
      = Ok (inject_Z s', Pdf.stringWidth E "Alexandra Montgomery" "Helvetica" (inject_Z s')) /\
    s' = 8%Z /\ inject_Z s' < 18.
Proof.
  intros E.
  destruct (auto_shrink_spec E (Sample.png_env Sample.cfg (200%Z, 100%Z))
              "Alexandra Montgomery" "Helvetica" false 100 18 10 400 72 40
              ltac:(discriminate) ltac:(lia)) as (_ & H & _).
  destruct (H ltac:(reflexivity) ltac:(discriminate)) as (s' & Hr & Hs' & Hb).
  destruct (Hb ltac:(discriminate)) as (_ & Hlt & _).
  exists s'. split; [exact Hr|]. split.
  - rewrite Hs'. vm_compute. reflexivity.
  - apply Hlt. vm_compute. discriminate.
Defined.

(** C3 fails as stated, in two ways.  When the box is narrower than twice
    the padding: a 19-point box with 10 points of padding leaves -1 point;
    a text 100 points wide at size 10 gets [int(-0.1) = 0], not
    [floor(-0.1) = -1], and its width at size 0 is 0, which is not within
    -1.  And when the float product falls just below a whole number: a
    text 264 points wide at size 22 against 180 points available gets
    [int(22 * (180 / 264)) = 14], where [22 * 180 / 264] is 15 exactly; on
    the raster backend a text 1056 pixels wide at size 44 against 720
    pixels gets 29, where [44 * 720 / 1056] is 30. *)
Lemma auto_shrink_counterexample :
  let E := Sample.pdf_env Sample.cfg Sample.people (200%Z, 100%Z) in
  let G := Sample.png_env Sample.cfg (200%Z, 100%Z) in
  (let text := "Alexandra Montgomery" in
   let avail := 19 - 2 * 10 in
   let tw := Pdf.stringWidth E text "Helvetica" 10 in
   tw == 100 /\ avail < tw /\ scalable E text "Helvetica" /\
   exists (s' : Z) (w' : Q),
     result (Pdf.fit_single_line E text "Helvetica" 19 10 10) = Ok (inject_Z s', w') /\
     w' = Pdf.stringWidth E text "Helvetica" (inject_Z s') /\
     s' = 0%Z /\
     s' <> Qfloor (10 * (avail / tw)) /\
     ~ w' <= avail) /\
  (let text := "Alexandra Montgomery III" in
   let avail := 200 - 2 * 10 in
   let tw := Pdf.stringWidth E text "Helvetica" 22 in
   tw == 264 /\ avail == 180 /\
   exists (s' : Z) (w' : Q),
     result (Pdf.fit_single_line E text "Helvetica" 200 22 10) = Ok (inject_Z s', w') /\
     s' = 14%Z /\
     Qfloor (22 * (avail / tw)) = 15%Z) /\
  (let text := "Alexandra Montgomery III Alexandra Montgomery II" in
   let pavail := (800 - 2 * 40)%Z in
   let ptw := text_width G text 44 false in
   ptw = 1056%Z /\ pavail = 720%Z /\
   exists (s' w' h' : Z),
     result (Png.fit_single_line G text false 800 44 40) = Ok (s', w', h') /\
     s' = 29%Z /\
     (44 * pavail / ptw = 30)%Z).
Proof.
  intros E G. split; [|split].
  - intros text avail tw. split; [reflexivity|]. split; [reflexivity|]. split.
    + intros size. unfold E, text. cbn [Pdf.stringWidth Sample.pdf_env]. ring.
    + exists 0%Z. eexists. split; [vm_compute; reflexivity|]. split; [reflexivity|].
      split; [reflexivity|]. split; [discriminate|].
      intros H. vm_compute in H. apply H. reflexivity.
  - intros text avail tw. split; [reflexivity|]. split; [reflexivity|].
    exists 14%Z. eexists. split; [vm_compute; reflexivity|]. split; reflexivity.
  - intros text pavail ptw. split; [reflexivity|]. split; [reflexivity|].
    exists 29%Z. do 2 eexists. split; [vm_compute; reflexivity|]. split; reflexivity.
Qed.
End Shrink.

(** ** Section stacking *)

Section Stack.
Local Open Scope Q_scope.

(** C4, as amended.  On both backends the sections are stacked top-down
    from [top_padding + top_margin]: the name box starts where the photo
    section ends, the QR section where the name box ends, the message box
    after the QR section and the gap, the bottom box where the message box
    ends; so each top is the sum of the heights above it plus the paddings
    and the gap.  When the section heights and the gap are not negative, no
    two of these bands overlap. *)
Theorem sections_stack (top_padding top_margin photo_height name_height
    qr_height gap_before_msg message_height bottom_box_height : Q)
    (ptop_padding ptop_margin pphoto_height pname_height
     pqr_height pgap_before_msg pmessage_height pbottom_box_height : Z) :
  let t := Pdf.section_tops top_padding top_margin photo_height name_height
             qr_height gap_before_msg message_height in
  let g := Png.section_tops ptop_padding ptop_margin pphoto_height pname_height
             pqr_height pgap_before_msg pmessage_height in
  (Pdf.y_top_photo t == top_padding + top_margin /\
   Pdf.y_top_name t == Pdf.y_top_photo t + photo_height /\
   Pdf.y_top_qr t == Pdf.y_top_name t + name_height /\
   Pdf.y_top_message t == Pdf.y_top_qr t + qr_height + gap_before_msg /\
   Pdf.y_top_bottom_box t == Pdf.y_top_message t + message_height /\
   Pdf.y_top_name t == top_padding + top_margin + photo_height /\
   Pdf.y_top_qr t == top_padding + top_margin + (photo_height + name_height) /\
   Pdf.y_top_message t ==
     top_padding + top_margin + (photo_height + name_height + qr_height)
     + gap_before_msg) /\
  (Png.y_photo g = ptop_padding + ptop_margin /\
   Png.y_name g = Png.y_photo g + pphoto_height /\
   Png.y_qr g = Png.y_name g + pname_height /\
   Png.y_message g = Png.y_qr g + pqr_height + pgap_before_msg /\
   Png.y_bottom_box g = Png.y_message g + pmessage_height /\
   Png.y_name g = ptop_padding + ptop_margin + pphoto_height /\
   Png.y_qr g = ptop_padding + ptop_margin + (pphoto_height + pname_height) /\
   Png.y_message g =
     ptop_padding + ptop_margin + (pphoto_height + pname_height + pqr_height)
     + pgap_before_msg)%Z /\
  (0 <= photo_height -> 0 <= name_height -> 0 <= qr_height ->
   0 <= gap_before_msg -> 0 <= message_height ->
   ForallOrdPairs apart
     [(Pdf.y_top_photo t, photo_height); (Pdf.y_top_name t, name_height);
      (Pdf.y_top_qr t, qr_height); (Pdf.y_top_message t, message_height);
      (Pdf.y_top_bottom_box t, bottom_box_height)]) /\
  ((0 <= pphoto_height)%Z -> (0 <= pname_height)%Z -> (0 <= pqr_height)%Z ->
   (0 <= pgap_before_msg)%Z -> (0 <= pmessage_height)%Z ->
   ForallOrdPairs apartZ
     [(Png.y_photo g, pphoto_height); (Png.y_name g, pname_height);
      (Png.y_qr g, pqr_height); (Png.y_message g, pmessage_height);
      (Png.y_bottom_box g, pbottom_box_height)]).
Proof.
  intros t g. unfold t, g, Pdf.section_tops, Png.section_tops.
  cbn [Pdf.y_top_photo Pdf.y_top_name Pdf.y_top_qr Pdf.y_top_message
       Pdf.y_top_bottom_box
       Png.y_photo Png.y_name Png.y_qr Png.y_message Png.y_bottom_box].
  split; [repeat split; ring|].
  split; [repeat split; ring|].
  split.
  - intros H1 H2 H3 H4 H5.
    repeat first [ apply FOP_cons | apply FOP_nil
                 | apply List.Forall_cons | apply List.Forall_nil
                 | (left; cbn [fst snd]; lra) ].
  - intros H1 H2 H3 H4 H5.
    repeat first [ apply FOP_cons | apply FOP_nil
                 | apply List.Forall_cons | apply List.Forall_nil
                 | (left; cbn [fst snd]; lia) ].
Qed.

(** C4 fails as stated when the gap is negative.  With a QR section 120
    high at 234 and a gap of -10, the message box starts at 344, inside the
    QR section. *)
Lemma sections_overlap_counterexample :
  let t := Pdf.section_tops 0 4 200 30 120 (-10) 40 in
  Pdf.y_top_qr t == 234 /\ Pdf.y_top_message t == 344 /\
  ~ apart (Pdf.y_top_qr t, 120) (Pdf.y_top_message t, 40).
Proof.
  cbn. split; [reflexivity|]. split; [reflexivity|].
  intros [H|H]; cbn in H; revert H; apply Qlt_not_le; reflexivity.
Qed.
End Stack.

(** ** Name tier *)

(** C5.  The name tier is selected by the strict comparison
    [len(name) > name_length_threshold] (22 when the key is absent): if it
    holds the long tier is used (long box height, long font size, multiline
    flag set), otherwise the short tier (short box height, short font size,
    flag clear), on both backends.  A name as long as the threshold gets the
    short tier; with threshold 22 the 41-character name gets the long tier
    and "Bo" the short one. *)
Theorem name_tier_spec (cfg : gmap string pyval) (person_name : string)
    (threshold : Z) (height_long font_long height_short font_short : Q) :
  Cfg.int_or cfg "name_length_threshold" 22 = Ok threshold ->
  let n := Z.of_nat (Py.len person_name) in
  let long := (threshold, height_long, font_long, true) in
  let short := (threshold, height_short, font_short, false) in
  (threshold < n ->
   Cfg.num_at cfg "name_box_height_pt_long" = Ok height_long ->
   Cfg.num_at cfg "name_font_size_pt_long" = Ok font_long ->
   Pdf.name_tier cfg person_name = ret long /\ Png.name_tier cfg person_name = ret long) /\
  (n <= threshold ->
   Cfg.num_at cfg "name_box_height_pt_short" = Ok height_short ->
   Cfg.num_at cfg "name_font_size_pt_short" = Ok font_short ->
   Pdf.name_tier cfg person_name = ret short /\ Png.name_tier cfg person_name = ret short) /\
  (n = threshold ->
   Cfg.num_at cfg "name_box_height_pt_short" = Ok height_short ->
   Cfg.num_at cfg "name_font_size_pt_short" = Ok font_short ->
   Pdf.name_tier cfg person_name = ret short /\ Png.name_tier cfg person_name = ret short) /\
  (threshold = 22 ->
   Cfg.num_at cfg "name_box_height_pt_long" = Ok height_long ->
   Cfg.num_at cfg "name_font_size_pt_long" = Ok font_long ->
   Py.len "Dr. Evelyn Alexandra Montgomery-Whitfield" = 41%nat /\
   Pdf.name_tier cfg "Dr. Evelyn Alexandra Montgomery-Whitfield"
     = ret (22, height_long, font_long, true) /\
   Png.name_tier cfg "Dr. Evelyn Alexandra Montgomery-Whitfield"
     = ret (22, height_long, font_long, true)) /\
  (threshold = 22 ->
   Cfg.num_at cfg "name_box_height_pt_short" = Ok height_short ->
   Cfg.num_at cfg "name_font_size_pt_short" = Ok font_short ->
   Pdf.name_tier cfg "Bo" = ret (22, height_short, font_short, false) /\
   Png.name_tier cfg "Bo" = ret (22, height_short, font_short, false)).
Proof.
  intros Hthr n long short.
  assert (Hlong : forall name,
             threshold < Z.of_nat (Py.len name) ->
             Cfg.num_at cfg "name_box_height_pt_long" = Ok height_long ->
             Cfg.num_at cfg "name_font_size_pt_long" = Ok font_long ->
             Pdf.name_tier cfg name = ret long /\ Png.name_tier cfg name = ret long).
  { intros name Hn Hh Hf.
    unfold Pdf.name_tier, Png.name_tier, Cfg.get_int, Cfg.num. rewrite Hthr, Hh, Hf.
    cbn [bind lift]. destruct (Z.ltb_spec threshold (Z.of_nat (Py.len name))); [|lia].
    split; reflexivity. }
  assert (Hshort : forall name,
             Z.of_nat (Py.len name) <= threshold ->
             Cfg.num_at cfg "name_box_height_pt_short" = Ok height_short ->
             Cfg.num_at cfg "name_font_size_pt_short" = Ok font_short ->
             Pdf.name_tier cfg name = ret short /\ Png.name_tier cfg name = ret short).
  { intros name Hn Hh Hf.
    unfold Pdf.name_tier, Png.name_tier, Cfg.get_int, Cfg.num. rewrite Hthr, Hh, Hf.
    cbn [bind lift]. destruct (Z.ltb_spec threshold (Z.of_nat (Py.len name))); [lia|].
    split; reflexivity. }
  split; [apply Hlong|]. split; [apply Hshort|].
  split; [intros Hn; apply Hshort; lia|]. split.
  - intros -> Hh Hf. split; [reflexivity|].
    apply (Hlong "Dr. Evelyn Alexandra Montgomery-Whitfield"); [reflexivity|exact Hh|exact Hf].
  - intros -> Hh Hf.
    apply (Hshort "Bo"); [discriminate|exact Hh|exact Hf].
Qed.

Lemma name_tier_spec_witness :
  Pdf.name_tier Sample.cfg "Montgomery-Whitfield, E" = ret (22, 48%Q, 14%Q, true) /\
  Pdf.name_tier Sample.cfg "Montgomery-Whitfield E" = ret (22, 30%Q, 18%Q, false).
Proof.
  split.
  - destruct (name_tier_spec Sample.cfg "Montgomery-Whitfield, E" 22 48 14 30 18
                ltac:(reflexivity)) as [H _].
    apply H; reflexivity.
  - destruct (name_tier_spec Sample.cfg "Montgomery-Whitfield E" 22 48 14 30 18
                ltac:(reflexivity)) as (_ & H & _).
    apply H; [discriminate|reflexivity|reflexivity].
Defined.

(** ** The drawing monad *)

Section Monad.
Context {op : Type}.

Lemma bind_ok {A B} (m : M op A) (f : A -> M op B) (b : B) (t : list op) :
  bind m f = (Ok b, t) ->
  exists a t1 t2, m = (Ok a, t1) /\ f a = (Ok b, t2) /\ t = t1 ++ t2.
Proof.
  unfold bind. destruct m as [[a|e] t1]; [|discriminate].
  destruct (f a) as [r t2] eqn:Ef. intros H. inversion H; subst.
  exists a, t1, t2. auto.
Qed.

Lemma lift_ok {A} (r : res A) (a : A) (t : list op) :
  lift r = (Ok a, t) -> r = Ok a /\ t = [].
Proof. unfold lift. intros H. inversion H. auto. Qed.

Lemma call_ok (o : op) (u : unit) (t : list op) :
  call o = (Ok u, t) -> t = [o].
Proof. unfold call. intros H. inversion H. reflexivity. Qed.

Lemma trace_bind {A B} (m : M op A) (f : A -> M op B) :
  trace (bind m f) =
  match result m with
  | Ok a => trace m ++ trace (f a)
  | Raise _ => trace m
  end.
Proof.
  unfold bind, trace, result. destruct m as [[a|e] t1]; simpl; [|reflexivity].
  destruct (f a); reflexivity.
Qed.

Lemma result_bind {A B} (m : M op A) (f : A -> M op B) :
  result (bind m f) =
  match result m with
  | Ok a => result (f a)
  | Raise e => Raise e
  end.
Proof.
  unfold bind, result. destruct m as [[a|e] t1]; simpl; [|reflexivity].
  destruct (f a); reflexivity.
Qed.

Variable P : op -> Prop.

Lemma only_bind_ok {A B} (m : M op A) (f : A -> M op B) :
  only P A m -> (forall a, result m = Ok a -> only P B (f a)) -> only P B (bind m f).
Proof.
  unfold only. intros Hm Hf. rewrite trace_bind.
  destruct (result m) as [a|e] eqn:E; [|exact Hm].
  apply Forall_app. split; [exact Hm|now apply Hf].
Qed.

Lemma only_bind {A B} (m : M op A) (f : A -> M op B) :
  only P A m -> (forall a, only P B (f a)) -> only P B (bind m f).
Proof. intros Hm Hf. apply only_bind_ok; auto. Qed.

Lemma only_lift {A} (r : res A) : only P A (lift r).
Proof. constructor. Qed.

Lemma only_call (o : op) : P o -> only P unit (call o).
Proof. intros H. constructor; [exact H|constructor]. Qed.

Lemma only_if {A} (b : bool) (m1 m2 : M op A) :
  only P A m1 -> only P A m2 -> only P A (if b then m1 else m2).
Proof. destruct b; auto. Qed.

Lemma only_for {A} (l : list A) (body : Z -> A -> M op unit) :
  (forall i x, only P unit (body i x)) ->
  forall start, only P unit (for_enumerate l start body).
Proof.
  intros Hb. induction l as [|x l IH]; intros start; simpl.
  - apply only_lift.
  - apply only_bind; [apply Hb|intros _; apply IH].
Qed.

Lemma only_trace {A} (m : M op A) (r : res A) (t : list op) :
  only P A m -> m = (r, t) -> Forall P t.
Proof. unfold only. intros H ->. exact H. Qed.

Lemma fails_bind {A B} (m : M op A) (f : A -> M op B) :
  (forall a, result m = Ok a -> fails (f a)) -> fails (bind m f).
Proof.
  unfold fails. intros Hf. rewrite result_bind.
  destruct (result m) as [a|e] eqn:E; [now apply Hf|eauto].
Qed.
End Monad.

(** A read of a key that the configuration does not hold cannot return. *)
Lemma num_at_missing cfg key a : cfg !! key = None -> Cfg.num_at cfg key <> Ok a.
Proof. unfold Cfg.num_at, Cfg.item. intros ->. discriminate. Qed.

Lemma str_at_missing cfg key a : cfg !! key = None -> Cfg.str_at cfg key <> Ok a.
Proof. unfold Cfg.str_at, Cfg.item. intros ->. discriminate. Qed.

(** ** What the drawing methods of the vector backend call *)

Section PdfCalls.
Variable P : Pdf.op -> Prop.
Hypothesis P_setFont : forall f s, P (Pdf.setFont f s).
Hypothesis P_line : forall a b c d, P (Pdf.line a b c d).
Hypothesis P_drawImage : forall p a b c d, P (Pdf.drawImage p a b c d).
Hypothesis P_drawString : forall a b s, P (Pdf.drawString a b s).
Hypothesis P_drawOn : forall s a b c, P (Pdf.drawOn s a b c).
Hypothesis P_rect : forall a b c d, P (Pdf.rect a b c d).
Hypothesis P_fill : forall c, P (Pdf.setFillColor c).

Lemma only_div a b : only P Q (Pdf.div a b).
Proof. unfold Pdf.div. destruct (Qeq_bool b 0); apply only_lift. Qed.

Lemma only_float_div a b : only P Q (Pdf.float_div a b).
Proof. unfold Pdf.float_div. destruct (Qeq_bool b 0); apply only_lift. Qed.

Lemma only_when b m : only P unit m -> only P unit (Pdf.when b m).
Proof. unfold Pdf.when. intros H. destruct b; [exact H|apply only_lift]. Qed.

Lemma only_image E p x y w h mw mh :
  only P unit (Pdf._draw_centered_image E p x y w h mw mh).
Proof.
  unfold Pdf._draw_centered_image, Pdf.fill_placement.
  destruct (Pdf.image_size E p).
  repeat first [apply only_bind; [|intros ?] | apply only_div | apply only_lift
               | apply only_call; auto].
Qed.

Lemma only_fit E text font w s pad :
  only P (Q * Q) (Pdf.fit_single_line E text font w s pad).
Proof.
  unfold Pdf.fit_single_line. apply only_if; [|apply only_lift].
  repeat first [apply only_bind; [|intros ?] | apply only_float_div | apply only_lift
               | apply only_call; auto].
Qed.

Lemma only_text E text x y w h s bold pad multi ml thr :
  only P unit (Pdf._draw_centered_text E text x y w h s bold pad multi ml thr).
Proof.
  unfold Pdf._draw_centered_text.
  apply only_bind; [apply only_call; auto|intros _].
  apply only_if.
  - apply only_bind; [apply only_fit|intros [? ?]]. apply only_call; auto.
  - apply only_for. intros ? ?. apply only_call; auto.
Qed.

Lemma only_wrapped E text x y w h s pad :
  only P unit (Pdf._draw_wrapped_text E text x y w h s pad).
Proof.
  unfold Pdf._draw_wrapped_text. destruct (Pdf.paragraph_wrap _ _ _ _ _).
  apply only_call; auto.
Qed.

Lemma only_borders sides x y w h : only P unit (Pdf.draw_borders sides x y w h).
Proof.
  unfold Pdf.draw_borders.
  repeat first [apply only_bind; [|intros ?] | apply only_when | apply only_call; auto].
Qed.

Lemma only_tier cfg name : only P (Z * Q * Q * bool) (Pdf.name_tier cfg name).
Proof.
  unfold Pdf.name_tier, Cfg.get_int, Cfg.num.
  apply only_bind; [apply only_lift|intros ?].
  apply only_if; repeat first [apply only_bind; [|intros ?] | apply only_lift].
Qed.

Lemma only_bottom_box b cfg h_padding content_width y bh :
  only P unit
    (Pdf.when b
       (bind (Cfg.get_num cfg "bottom_box_horizontal_margin_pt" 0)
          (fun bottom_h_margin =>
             bind (call (Pdf.setFillColor "#FFFFFF"))
               (fun _ => call (Pdf.rect (h_padding + bottom_h_margin)%Q y
                                 (content_width - 2 * bottom_h_margin)%Q bh))))).
Proof.
  apply only_when.
  apply only_bind; [apply only_lift|intros ?].
  apply only_bind; [apply only_call, P_fill|intros ?]. apply only_call, P_rect.
Qed.
End PdfCalls.

(** ** A card fails as a whole, and the batch goes on *)

Lemma ews_bind {A} (m : M Pdf.op A) (f : A -> M Pdf.op bool) :
  only no_save A m -> (forall a, ends_with_save (f a)) -> ends_with_save (bind m f).
Proof.
  unfold ends_with_save, only. intros Hm Hf.
  rewrite result_bind, trace_bind.
  destruct (result m) as [a|e]; [|exact Hm].
  specialize (Hf a). destruct (result (f a)) as [[|]|e'].
  - destruct Hf as (t & -> & Ht). exists (trace m ++ t).
    split; [apply app_assoc|]. apply Forall_app. auto.
  - apply Forall_app. auto.
  - apply Forall_app. auto.
Qed.

Lemma ews_final : ends_with_save (bind (call Pdf.save) (fun _ => ret true)).
Proof. exists []. split; [reflexivity|constructor]. Qed.

Ltac pdf_quiet :=
  first
    [ apply only_lift
    | apply only_call; reflexivity
    | apply only_image; intros; reflexivity
    | apply only_text; intros; reflexivity
    | apply only_wrapped; intros; reflexivity
    | apply only_borders; intros; reflexivity
    | apply only_tier
    | apply only_bottom_box; intros; reflexivity ].

(** The [try] block saves only as its last call, after everything else has
    returned. *)
Lemma body_ends_with_save E cfg name img qr out :
  ends_with_save (Pdf.card_body E cfg name img qr out).
Proof.
  unfold Pdf.card_body.
  repeat (cbv beta zeta;
    first [ apply ews_final
          | apply ews_bind; [ pdf_quiet | intros ? ]
          | match goal with
            | |- ends_with_save (match ?x with _ => _ end) => destruct x
            end ]).
Qed.

Ltac missing_key Hnone Hr :=
  exfalso;
  first [ exact (num_at_missing _ _ _ Hnone Hr) | exact (str_at_missing _ _ _ Hnone Hr) ].

(** The [try] block raises when a required key is missing. *)
Lemma body_fails E cfg name img qr out key :
  In key required_keys -> cfg !! key = None ->
  fails (Pdf.card_body E cfg name img qr out).
Proof.
  intros Hin Hnone. unfold required_keys in Hin. simpl in Hin.
  unfold Pdf.card_body.
  repeat (destruct Hin as [<-|Hin]; [
    repeat (cbv beta zeta;
      first [ apply fails_bind;
              (let Hr := fresh "Hr" in intros ? Hr; try (missing_key Hnone Hr))
            | match goal with
              | |- fails (match ?x with _ => _ end) => destruct x
              end ]) |]).
  contradiction.
Qed.

(** It raises before the first call that paints when the key is one of those
    read that early. *)
Lemma body_paints_nothing E cfg name img qr out key :
  In key keys_read_before_painting -> cfg !! key = None ->
  only no_paint bool (Pdf.card_body E cfg name img qr out).
Proof.
  intros Hin Hnone. unfold keys_read_before_painting in Hin. simpl in Hin.
  unfold Pdf.card_body.
  repeat (destruct Hin as [<-|Hin]; [
    repeat (cbv beta zeta;
      first [ apply only_bind_ok;
                [ first [ apply only_lift | apply only_call; reflexivity | apply only_tier ]
                | let Hr := fresh "Hr" in intros ? Hr; try (missing_key Hnone Hr) ]
            | match goal with
              | |- only _ _ (match ?x with _ => _ end) => destruct x
              end ]) |]).
  contradiction.
Qed.

(** The handler of [generate_card] turns every exception of the [try] block
    into the result [False]. *)
Lemma generate_card_returns E cfg name img out qr :
  Cfg.str_at cfg "qr_code_path" = Ok qr ->
  exists b, result (Pdf.generate_card E cfg name img out) = Ok b.
Proof.
  intros Hqr. unfold Pdf.generate_card.
  destruct (negb (Pdf.valid_image E (Pdf.base_dir E img))); [eexists; reflexivity|].
  unfold Cfg.str. rewrite Hqr. cbn [bind lift].
  destruct (negb (Pdf.valid_image E (Pdf.base_dir E qr))); [eexists; reflexivity|].
  unfold try_except.
  destruct (Pdf.card_body E cfg name (Pdf.base_dir E img) (Pdf.base_dir E qr) out)
    as [[b|e] t]; eexists; reflexivity.
Qed.

Lemma generate_card_split E cfg name img out qr :
  Cfg.str_at cfg "qr_code_path" = Ok qr ->
  Pdf.generate_card E cfg name img out = (Ok false, []) \/
  (let body := Pdf.card_body E cfg name (Pdf.base_dir E img) (Pdf.base_dir E qr) out in
   trace (Pdf.generate_card E cfg name img out) = trace body /\
   result (Pdf.generate_card E cfg name img out) =
     match result body with Ok b => Ok b | Raise _ => Ok false end).
Proof.
  intros Hqr. unfold Pdf.generate_card.
  destruct (negb (Pdf.valid_image E (Pdf.base_dir E img))); [left; reflexivity|].
  unfold Cfg.str. rewrite Hqr. cbn [bind lift].
  destruct (negb (Pdf.valid_image E (Pdf.base_dir E qr))); [left; reflexivity|].
  right. unfold try_except.
  destruct (Pdf.card_body E cfg name (Pdf.base_dir E img) (Pdf.base_dir E qr) out)
    as [[b|e] t]; cbn; rewrite ?app_nil_r; split; reflexivity.
Qed.

(** A card that returns [False] has saved nothing. *)
Lemma generate_card_no_save E cfg name img out qr :
  Cfg.str_at cfg "qr_code_path" = Ok qr ->
  result (Pdf.generate_card E cfg name img out) = Ok false ->
  Forall no_save (trace (Pdf.generate_card E cfg name img out)).
Proof.
  intros Hqr Hres.
  destruct (generate_card_split E cfg name img out qr Hqr) as [->|[Ht Hr]]; [constructor|].
  rewrite Ht. rewrite Hr in Hres.
  pose proof (body_ends_with_save E cfg name (Pdf.base_dir E img) (Pdf.base_dir E qr) out) as H.
  unfold ends_with_save in H.
  destruct (result (Pdf.card_body E cfg name (Pdf.base_dir E img) (Pdf.base_dir E qr) out))
    as [[|]|e]; [discriminate|exact H|exact H].
Qed.

(** C7, as amended.  When a key that [generate_card] requires is missing
    from the configuration (and [qr_code_path] is there), the [KeyError] is
    caught inside [generate_card]: the card returns [False] and saves no
    output, whatever was drawn on the canvas before the read.  Nothing has
    been painted when the key is one of those read before the first
    painting call; [qr_code_size_pt], [message_text] and
    [message_font_size_pt] are read later.  The run is not aborted: the
    batch loop counts the record as failed and goes on with the next one. *)
Theorem missing_key_fails_card (E : Pdf.env) (cfg : gmap string pyval)
    (person_name person_image qr key : string) :
  Cfg.str_at cfg "qr_code_path" = Ok qr ->
  In key required_keys ->
  cfg !! key = None ->
  (forall output_path,
     let card := Pdf.generate_card E cfg person_name person_image output_path in
     result card = Ok false /\
     Forall no_save (trace card) /\
     (In key keys_read_before_painting -> Forall no_paint (trace card))) /\
  (forall output_dir row rest success_count fail_count written,
     row_field row "name" = Returned person_name ->
     row_field row "image" = Returned person_image ->
     Py.truthy person_name = true -> Py.truthy person_image = true ->
     Pdf.cards_loop E cfg output_dir (row :: rest) success_count fail_count written
     = Pdf.cards_loop E cfg output_dir rest success_count (fail_count + 1) written).
Proof.
  intros Hqr Hin Hnone.
  assert (Hfalse : forall out,
             result (Pdf.generate_card E cfg person_name person_image out) = Ok false).
  { intros out.
    destruct (generate_card_split E cfg person_name person_image out qr Hqr)
      as [->|[_ Hr]]; [reflexivity|].
    rewrite Hr.
    destruct (body_fails E cfg person_name (Pdf.base_dir E person_image)
                (Pdf.base_dir E qr) out key Hin Hnone) as [e ->].
    reflexivity. }
  split.
  - intros out card. split; [apply Hfalse|]. split.
    + apply (generate_card_no_save E cfg person_name person_image out qr Hqr), Hfalse.
    + intros Hearly.
      destruct (generate_card_split E cfg person_name person_image out qr Hqr)
        as [Heq|[Ht _]]; [unfold card; rewrite Heq; constructor|].
      unfold card. rewrite Ht.
      exact (body_paints_nothing E cfg person_name _ _ out key Hearly Hnone).
  - intros dir row rest s f w Hname Himg Tn Ti.
    cbn [Pdf.cards_loop]. rewrite Hname, Himg, Tn, Ti. cbn [negb orb].
    rewrite Hfalse. reflexivity.
Qed.

Lemma missing_key_fails_card_witness :
  let cfg := delete "message_text" Sample.cfg in
  let card := Pdf.generate_card (Sample.pdf_env cfg Sample.people (200, 100)) cfg
                "Ann Lee" "ann.png" "/app/out/ann_lee.pdf" in
  result card = Ok false /\ Forall no_save (trace card).
Proof.
  intros cfg card.
  destruct (missing_key_fails_card (Sample.pdf_env cfg Sample.people (200, 100)) cfg
              "Ann Lee" "ann.png" "qr.png" "message_text"
              ltac:(reflexivity) ltac:(simpl; tauto) ltac:(reflexivity)) as [H _].
  destruct (H "/app/out/ann_lee.pdf") as (H1 & H2 & _).
  split; assumption.
Defined.

(** C7 fails as stated.  Without [message_text], the card of a record with
    a valid photo is painted up to the message box before the read fails
    (the page, the photo, the name box and the QR section are on the canvas),
    and the run is not aborted: both records are processed and reported as
    failed. *)
Lemma missing_key_counterexample :
  let cfg := delete "message_text" Sample.cfg in
  let E := Sample.pdf_env cfg Sample.people (200, 100) in
  let card := Pdf.generate_card E cfg "Ann Lee" "ann.png" "/app/out/ann_lee.pdf" in
  cfg !! "message_text" = None /\
  result card = Ok false /\
  existsb Pdf.paints (trace card) = true /\
  Pdf.main E ["generate_cards.py"] =
    Returned {| total := 2; success_count := 0; fail_count := 2; written := [] |}.
Proof. vm_compute. repeat split. Qed.

(** ** The batch *)

(** The loop never stops early on complete rows: every row is counted once,
    and a file is written for each success. *)
Lemma cards_loop_counts E cfg qr output_dir :
  Cfg.str_at cfg "qr_code_path" = Ok qr ->
  forall data success_count fail_count written,
    Forall complete_row data ->
    exists s f w,
      Pdf.cards_loop E cfg output_dir data success_count fail_count written
        = Returned (s, f, w) /\
      s + f = success_count + fail_count + Z.of_nat (length data) /\
      success_count <= s /\ fail_count <= f /\
      Z.of_nat (length w) = Z.of_nat (length written) + (s - success_count).
Proof.
  intros Hqr. induction data as [|row rest IH]; intros s f w Hrows.
  - exists s, f, w. simpl. repeat split; lia.
  - inversion Hrows as [|? ? [Hn Hi] Hrest]; subst.
    cbn [Pdf.cards_loop].
    assert (Hfield : forall key, row !! key <> Some None ->
                       exists v, row_field row key = Returned v).
    { intros key Hk. unfold row_field.
      destruct (row !! key) as [[v|]|]; [eauto|contradiction|eauto]. }
    destruct (Hfield "name" Hn) as [name ->].
    destruct (Hfield "image" Hi) as [img ->].
    destruct (negb (Py.truthy name) || negb (Py.truthy img)).
    + destruct (IH s (f + 1) w Hrest) as (s' & f' & w' & -> & H1 & H2 & H3 & H4).
      exists s', f', w'. repeat split; try lia. cbn [length]. lia.
    + destruct (generate_card_returns E cfg name img
                  (output_dir +:+ "/" +:+ Text._sanitize_filename name +:+ ".pdf") qr Hqr)
        as [[|] ->].
      * destruct (IH (s + 1) f (w ++ [output_dir +:+ "/" +:+
                                       Text._sanitize_filename name +:+ ".pdf"]) Hrest)
          as (s' & f' & w' & -> & H1 & H2 & H3 & H4).
        exists s', f', w'. rewrite length_app in H4. cbn [length] in *.
        repeat split; lia.
      * destruct (IH s (f + 1) w Hrest) as (s' & f' & w' & -> & H1 & H2 & H3 & H4).
        exists s', f', w'. cbn [length]. repeat split; lia.
Qed.

(** C8, as amended.  When the configuration file loads, holds
    [qr_code_path], [output_directory] and [input_csv], the CSV file exists
    and its rows are complete, the run processes every record and reports a
    summary whose success and failure counts add up to the number of
    records, with one file written per success.  The exit status does not
    reflect failed requests: it is 0 whenever the batch comes to its end,
    whatever the failure count. *)
Theorem batch_summary_and_exit (E : Pdf.env) (argv : list string)
    (cfg : gmap string pyval) (qr dir csv : string)
    (data : list (gmap string (option string))) :
  Pdf.load_json E (Pdf.config_file argv) = Loaded cfg ->
  Cfg.str_at cfg "qr_code_path" = Ok qr ->
  cfg !! "output_directory" = Some (VStr dir) ->
  cfg !! "input_csv" = Some (VStr csv) ->
  Pdf.read_csv E (Pdf.base_dir E csv) = Some data ->
  Forall complete_row data ->
  exists r,
    Pdf.main E argv = Returned r /\
    total r = Z.of_nat (length data) /\
    success_count r + fail_count r = total r /\
    0 <= success_count r /\ 0 <= fail_count r /\
    Z.of_nat (length (written r)) = success_count r /\
    exit_status (Pdf.main E argv) = 0.
Proof.
  intros Hload Hqr Hdir Hcsv Hread Hrows.
  unfold Pdf.main. rewrite Hload. unfold Pdf.generate_all_cards.
  rewrite Hdir, Hcsv, Hread.
  destruct (cards_loop_counts E cfg qr (Pdf.base_dir E dir) Hqr data 0 0 [] Hrows)
    as (s & f & w & -> & H1 & H2 & H3 & H4).
  eexists. split; [reflexivity|]. cbn [total success_count fail_count written exit_status].
  simpl in H4. repeat split; lia.
Qed.

Lemma batch_summary_and_exit_witness :
  exists r,
    Pdf.main (Sample.pdf_env Sample.cfg Sample.people (200, 100)) ["generate_cards.py"]
      = Returned r /\
    total r = 2 /\ success_count r + fail_count r = 2 /\
    exit_status
      (Pdf.main (Sample.pdf_env Sample.cfg Sample.people (200, 100)) ["generate_cards.py"])
      = 0.
Proof.
  destruct (batch_summary_and_exit (Sample.pdf_env Sample.cfg Sample.people (200, 100))
              ["generate_cards.py"] Sample.cfg "qr.png" "out" "people.csv" Sample.people
              ltac:(reflexivity) ltac:(reflexivity) ltac:(reflexivity) ltac:(reflexivity)
              ltac:(reflexivity)
              ltac:(repeat constructor; vm_compute; discriminate))
    as (r & Hr & Ht & Hs & _ & _ & _ & He).
  exists r. split; [exact Hr|]. split; [exact Ht|].
  split; [rewrite Hs; exact Ht | exact He].
Defined.

(** C8 fails as stated.  In a run over two records, of which the second has
    no readable photo, one request fails and the exit status is 0. *)
Lemma exit_status_counterexample :
  let run := Pdf.main (Sample.pdf_env Sample.cfg Sample.people (200, 100))
               ["generate_cards.py"] in
  run = Returned {| total := 2; success_count := 1; fail_count := 1;
                    written := ["/app/out/ann_lee.pdf"] |} /\
  ~ exit_status run <> 0.
Proof. split; [reflexivity|]. intros H. apply H. reflexivity. Qed.

(** ** The raster page against the vector page *)


Lemma pdf_tier_of cfg name : Pdf.name_tier cfg name = lift (tier_of cfg name).
Proof.
  unfold Pdf.name_tier, tier_of, Cfg.get_int, Cfg.num.
  destruct (Cfg.int_or cfg "name_length_threshold" 22) as [thr|e]; [|reflexivity].
  cbn [bind lift]. destruct (thr <? Z.of_nat (Py.len name)).
  - destruct (Cfg.num_at cfg "name_box_height_pt_long"); [|reflexivity].
    cbn [bind lift]. destruct (Cfg.num_at cfg "name_font_size_pt_long"); reflexivity.
  - destruct (Cfg.num_at cfg "name_box_height_pt_short"); [|reflexivity].
    cbn [bind lift]. destruct (Cfg.num_at cfg "name_font_size_pt_short"); reflexivity.
Qed.

Lemma png_tier_of cfg name : Png.name_tier cfg name = lift (tier_of cfg name).
Proof.
  unfold Png.name_tier, tier_of, Cfg.get_int, Cfg.num.
  destruct (Cfg.int_or cfg "name_length_threshold" 22) as [thr|e]; [|reflexivity].
  cbn [bind lift]. destruct (thr <? Z.of_nat (Py.len name)).
  - destruct (Cfg.num_at cfg "name_box_height_pt_long"); [|reflexivity].
    cbn [bind lift]. destruct (Cfg.num_at cfg "name_font_size_pt_long"); reflexivity.
  - destruct (Cfg.num_at cfg "name_box_height_pt_short"); [|reflexivity].
    cbn [bind lift]. destruct (Cfg.num_at cfg "name_font_size_pt_short"); reflexivity.
Qed.

Lemma to_num_integer (v : pyval) a :
  (forall q, v <> VFloat q) -> Cfg.to_num v = Ok a -> exists z, a = inject_Z z.
Proof.
  intros Hint. destruct v; simpl; intros H; inversion H; subst; eauto.
  exfalso. eapply Hint. reflexivity.
Qed.

Lemma num_at_integer cfg key a :
  integer_lengths cfg -> Cfg.num_at cfg key = Ok a -> exists z, a = inject_Z z.
Proof.
  unfold Cfg.num_at, Cfg.item. intros Hint.
  destruct (cfg !! key) as [v|] eqn:E; [|discriminate].
  apply to_num_integer. intros q ->. exact (Hint key q E).
Qed.

Lemma num_or_integer cfg key d a :
  integer_lengths cfg -> Cfg.num_or cfg key d = Ok a -> exists z, a = inject_Z z.
Proof.
  unfold Cfg.num_or, Cfg.get. intros Hint.
  destruct (cfg !! key) as [v|] eqn:E.
  - apply to_num_integer. intros q ->. exact (Hint key q E).
  - simpl. intros H. inversion H. eauto.
Qed.

Lemma tier_integer cfg name thr h f b :
  integer_lengths cfg -> tier_of cfg name = Ok (thr, h, f, b) ->
  exists zh zf, h = inject_Z zh /\ f = inject_Z zf.
Proof.
  intros Hint. unfold tier_of.
  destruct (Cfg.int_or cfg "name_length_threshold" 22) as [t|e]; [|discriminate].
  destruct (t <? Z.of_nat (Py.len name)).
  - destruct (Cfg.num_at cfg "name_box_height_pt_long") as [h'|] eqn:Eh; [|discriminate].
    destruct (Cfg.num_at cfg "name_font_size_pt_long") as [f'|] eqn:Ef; [|discriminate].
    intros H. inversion H; subst.
    destruct (num_at_integer _ _ _ Hint Eh) as [zh ->].
    destruct (num_at_integer _ _ _ Hint Ef) as [zf ->]. eauto.
  - destruct (Cfg.num_at cfg "name_box_height_pt_short") as [h'|] eqn:Eh; [|discriminate].
    destruct (Cfg.num_at cfg "name_font_size_pt_short") as [f'|] eqn:Ef; [|discriminate].
    intros H. inversion H; subst.
    destruct (num_at_integer _ _ _ Hint Eh) as [zh ->].
    destruct (num_at_integer _ _ _ Hint Ef) as [zf ->]. eauto.
Qed.


Lemma pdf_boxes_app H t1 t2 : pdf_boxes H (t1 ++ t2) = pdf_boxes H t1 ++ pdf_boxes H t2.
Proof. apply flat_map_app. Qed.
Lemma png_boxes_app t1 t2 : png_boxes (t1 ++ t2) = png_boxes t1 ++ png_boxes t2.
Proof. apply flat_map_app. Qed.
Lemma pdf_images_app H t1 t2 : pdf_images H (t1 ++ t2) = pdf_images H t1 ++ pdf_images H t2.
Proof. apply flat_map_app. Qed.
Lemma png_images_app t1 t2 : png_images (t1 ++ t2) = png_images t1 ++ png_images t2.
Proof. apply flat_map_app. Qed.

Lemma pdf_box_indep H o : pdf_box 0 o = [] -> pdf_box H o = [].
Proof. destruct o; simpl; intros E; try reflexivity; discriminate. Qed.

Lemma no_rect_boxes H t : Forall no_rect t -> pdf_boxes H t = [].
Proof.
  induction 1 as [|o t [Ho _] _ IH]; [reflexivity|].
  unfold pdf_boxes in *. simpl. rewrite IH, (pdf_box_indep H o Ho). reflexivity.
Qed.

Lemma no_box_boxes t : Forall no_box t -> png_boxes t = [].
Proof.
  induction 1 as [|o t [Ho _] _ IH]; [reflexivity|].
  unfold png_boxes in *. simpl. rewrite IH, Ho. reflexivity.
Qed.

Lemma no_box_images t : Forall no_box t -> png_images t = [].
Proof.
  induction 1 as [|o t [_ Ho] _ IH]; [reflexivity|].
  unfold png_images in *. simpl. rewrite IH, Ho. reflexivity.
Qed.

Lemma no_rect_images H t : Forall no_rect t -> pdf_images H t = [].
Proof.
  induction 1 as [|o t [_ Ho] _ IH]; [reflexivity|].
  unfold pdf_images in *. simpl. rewrite IH.
  destruct o; simpl in *; try reflexivity; discriminate.
Qed.

Section PngQuiet.
Variable P : Png.op -> Prop.
Hypothesis P_text : forall x y s f b, P (Png.text x y s f b).
Hypothesis P_border : forall a b c d hex, P (Png.rectangle a b c d (Png.rgb hex)).
Hypothesis P_paste : forall p a b c d, P (Png.paste p a b c d).

Lemma png_only_div a b : only P Q (Png.div a b).
Proof. unfold Png.div. destruct (b =? 0); apply only_lift. Qed.

Lemma png_only_hex c : only P (Z * Z * Z) (Png.hex_to_rgb c).
Proof. unfold Png.hex_to_rgb. destruct (Png._hex_to_rgb c); apply only_lift. Qed.

Lemma png_only_when b m : only P unit m -> only P unit (Png.when b m).
Proof. unfold Png.when. intros H. destruct b; [exact H|apply only_lift]. Qed.

Lemma png_only_image E p x y w h : only P unit (Png._paste_centered_image E p x y w h).
Proof.
  unfold Png._paste_centered_image, Png.fill_placement.
  destruct (Png.image_size E p).
  repeat first [apply only_bind; [|intros ?] | apply png_only_div | apply only_lift
               | apply only_call; auto].
Qed.

Lemma png_only_fit E s bold w fs pad : only P (Z * Z * Z) (Png.fit_single_line E s bold w fs pad).
Proof.
  unfold Png.fit_single_line. apply only_if; [|apply only_lift].
  repeat first [apply only_bind; [|intros ?] | apply png_only_div | apply only_lift].
Qed.

Lemma png_only_text E s x y w h fs bold pad multi ml thr :
  only P unit (Png._draw_centered_text E s x y w h fs bold pad multi ml thr).
Proof.
  unfold Png._draw_centered_text. apply only_if.
  - apply only_bind; [apply png_only_fit|intros [[? ?] ?]]. apply only_call; auto.
  - apply only_for. intros ? ?. apply only_call; auto.
Qed.

Lemma png_only_wrapped E s x y w h fs pad :
  only P unit (Png._draw_wrapped_text E s x y w h fs pad).
Proof.
  unfold Png._draw_wrapped_text. apply only_for. intros ? ?. apply only_call; auto.
Qed.

Lemma png_only_borders sides color x y w h bw :
  only P unit (Png.draw_borders sides color x y w h bw).
Proof.
  unfold Png.draw_borders. apply png_only_when. cbv zeta.
  repeat first [apply only_bind; [|intros ?] | apply png_only_hex | apply png_only_when
               | apply only_call; auto].
Qed.
End PngQuiet.

Lemma pdf_card_true E cfg name img out t :
  Pdf.generate_card E cfg name img out = (Ok true, t) ->
  exists qr,
    Pdf.card_body E cfg name (Pdf.base_dir E img) (Pdf.base_dir E qr) out = (Ok true, t).
Proof.
  unfold Pdf.generate_card.
  destruct (negb (Pdf.valid_image E (Pdf.base_dir E img))); [discriminate|].
  unfold Cfg.str. destruct (Cfg.str_at cfg "qr_code_path") as [qr|e]; [|discriminate].
  cbn [bind lift].
  destruct (negb (Pdf.valid_image E (Pdf.base_dir E qr))); [discriminate|].
  unfold try_except.
  destruct (Pdf.card_body E cfg name (Pdf.base_dir E img) (Pdf.base_dir E qr) out)
    as [[b|e] t'] eqn:Hb; intros H; inversion H; subst.
  exists qr. exact Hb.
Qed.

Lemma png_card_true G s cfg name img out t :
  Png.generate_card G s cfg name img out = (Ok true, t) ->
  exists qr,
    Png.card_body G s cfg name (Png.base_dir G img) (Png.base_dir G qr) out = (Ok true, t).
Proof.
  unfold Png.generate_card.
  destruct (negb (Png.valid_image G (Png.base_dir G img))); [discriminate|].
  unfold Cfg.str. destruct (Cfg.str_at cfg "qr_code_path") as [qr|e]; [|discriminate].
  cbn [bind lift].
  destruct (negb (Png.valid_image G (Png.base_dir G qr))); [discriminate|].
  unfold try_except.
  destruct (Png.card_body G s cfg name (Png.base_dir G img) (Png.base_dir G qr) out)
    as [[b|e] t'] eqn:Hb; intros H; inversion H; subst.
  exists qr. exact Hb.
Qed.

Lemma png_new_canvas_run w h bg u t :
  Png.new_canvas w h bg = (Ok u, t) ->
  t = [Png.new_image w h
         (if Py.contains (Py.lower bg) ["transparent"; ""; "none"] then None else Some bg)].
Proof.
  unfold Png.new_canvas. cbv zeta.
  destruct (Py.contains (Py.lower bg) ["transparent"; ""; "none"]); [apply call_ok|].
  unfold Png.hex_to_rgb. destruct (Png._hex_to_rgb bg); [|discriminate].
  cbn. intros H. inversion H. reflexivity.
Qed.

Ltac run_inv :=
  repeat match goal with
  | H : Png.new_canvas _ _ _ = (Ok _, _) |- _ => apply png_new_canvas_run in H as ->
  | H : bind _ _ = (Ok _, _) |- _ =>
      let a := fresh "v" in let t1 := fresh "t" in let t2 := fresh "t" in
      let R := fresh "R" in let K := fresh "K" in
      apply bind_ok in H as (a & t1 & t2 & R & K & ->); cbv beta zeta in K
  | H : lift _ = (Ok _, _) |- _ => apply lift_ok in H as [H ->]
  | H : ret _ = (Ok _, _) |- _ => apply lift_ok in H as [H ->]
  | H : call _ = (Ok _, _) |- _ => apply call_ok in H as ->
  | H : Cfg.num _ _ = (Ok _, _) |- _ => apply lift_ok in H as [H ->]
  | H : Cfg.str _ _ = (Ok _, _) |- _ => apply lift_ok in H as [H ->]
  | H : Cfg.get_num _ _ _ = (Ok _, _) |- _ => apply lift_ok in H as [H ->]
  | H : Cfg.get_int _ _ _ = (Ok _, _) |- _ => apply lift_ok in H as [H ->]
  | H : Cfg.get_str _ _ _ = (Ok _, _) |- _ => apply lift_ok in H as [H ->]
  | H : Cfg.get_list _ _ _ = (Ok _, _) |- _ => apply lift_ok in H as [H ->]
  | H : Pdf.name_tier _ _ = (Ok _, _) |- _ =>
      rewrite pdf_tier_of in H; apply lift_ok in H as [H ->]
  | H : Png.name_tier _ _ = (Ok _, _) |- _ =>
      rewrite png_tier_of in H; apply lift_ok in H as [H ->]
  | H : (match ?x with _ => _ end) = (Ok _, _) |- _ => is_var x; destruct x
  end.


Lemma no_rect_setFont f z : no_rect (Pdf.setFont f z).
Proof. split; reflexivity. Qed.
Lemma no_rect_line a b c d : no_rect (Pdf.line a b c d).
Proof. split; reflexivity. Qed.
Lemma no_rect_drawString a b z : no_rect (Pdf.drawString a b z).
Proof. split; reflexivity. Qed.
Lemma no_rect_drawOn z a b c : no_rect (Pdf.drawOn z a b c).
Proof. split; reflexivity. Qed.

Lemma pdf_text_silent E text x y w h fs bold pad multi ml thr r t :
  Pdf._draw_centered_text E text x y w h fs bold pad multi ml thr = (r, t) ->
  Forall no_rect t.
Proof.
  apply only_trace, only_text; auto using no_rect_setFont, no_rect_drawString.
Qed.

Lemma pdf_borders_silent sides x y w h r t :
  Pdf.draw_borders sides x y w h = (r, t) -> Forall no_rect t.
Proof. apply only_trace, only_borders; auto using no_rect_line. Qed.

Lemma pdf_wrapped_silent E text x y w h fs pad r t :
  Pdf._draw_wrapped_text E text x y w h fs pad = (r, t) -> Forall no_rect t.
Proof. apply only_trace, only_wrapped; auto using no_rect_drawOn. Qed.

Lemma pdf_image_run E p x y w h mw mh u t :
  Pdf._draw_centered_image E p x y w h mw mh = (Ok u, t) ->
  exists x' w' h', t = [Pdf.drawImage p x' y w' h'].
Proof.
  unfold Pdf._draw_centered_image, Pdf.fill_placement.
  destruct (Pdf.image_size E p) as [iw ih]. intros Hr.
  unfold Pdf.div in Hr.
  destruct (Qeq_bool (inject_Z ih) 0); [discriminate|].
  destruct (Qeq_bool (inject_Z iw) 0); [discriminate|].
  cbn in Hr. inversion Hr. eauto.
Qed.

Lemma no_box_text x y z f b : no_box (Png.text x y z f b).
Proof. split; reflexivity. Qed.
Lemma no_box_border a b c d hex : no_box (Png.rectangle a b c d (Png.rgb hex)).
Proof. split; reflexivity. Qed.

Lemma png_text_silent E z x y w h fs bold pad multi ml thr r t :
  Png._draw_centered_text E z x y w h fs bold pad multi ml thr = (r, t) ->
  Forall no_box t.
Proof. apply only_trace, png_only_text; auto using no_box_text. Qed.

Lemma png_borders_silent sides color x y w h bw r t :
  Png.draw_borders sides color x y w h bw = (r, t) -> Forall no_box t.
Proof. apply only_trace, png_only_borders; auto using no_box_border. Qed.

Lemma png_wrapped_silent E z x y w h fs pad r t :
  Png._draw_wrapped_text E z x y w h fs pad = (r, t) -> Forall no_box t.
Proof. apply only_trace, png_only_wrapped; auto using no_box_text. Qed.

Lemma png_image_run E p x y w h u t :
  Png._paste_centered_image E p x y w h = (Ok u, t) ->
  exists w' h' x', t = [Png.paste p w' h' x' y].
Proof.
  unfold Png._paste_centered_image, Png.fill_placement.
  destruct (Png.image_size E p) as [iw ih]. intros Hr.
  unfold Png.div in Hr.
  destruct (ih =? 0); [discriminate|].
  destruct (iw =? 0); [discriminate|].
  cbn in Hr. inversion Hr. eauto.
Qed.

Ltac same_reads :=
  repeat match goal with
  | H1 : ?r = Ok ?a, H2 : ?r = Ok ?b |- _ =>
      rewrite H1 in H2; inversion H2; subst; clear H2
  end.

Ltac integers Hint :=
  repeat match goal with
  | R : Cfg.num_at _ _ = Ok ?v |- _ =>
      is_var v; destruct (num_at_integer _ _ _ Hint R) as [? ->]
  | R : Cfg.num_or _ _ _ = Ok ?v |- _ =>
      is_var v; destruct (num_or_integer _ _ _ _ Hint R) as [? ->]
  | R : tier_of _ _ = Ok (_, ?h, ?f, _) |- _ =>
      is_var h; destruct (tier_integer _ _ _ _ _ _ Hint R) as (? & ? & -> & ->)
  end.

Ltac silent_facts :=
  repeat match goal with
  | R : Pdf._draw_centered_text _ _ _ _ _ _ _ _ _ _ _ _ = _ |- _ =>
      apply pdf_text_silent in R
  | R : Pdf.draw_borders _ _ _ _ _ = _ |- _ => apply pdf_borders_silent in R
  | R : Pdf._draw_wrapped_text _ _ _ _ _ _ _ _ = _ |- _ => apply pdf_wrapped_silent in R
  | R : Pdf._draw_centered_image _ _ _ _ _ _ _ _ = _ |- _ =>
      apply pdf_image_run in R as (? & ? & ? & ->)
  | R : Png._draw_centered_text _ _ _ _ _ _ _ _ _ _ _ _ = _ |- _ =>
      apply png_text_silent in R
  | R : Png.draw_borders _ _ _ _ _ _ _ = _ |- _ => apply png_borders_silent in R
  | R : Png._draw_wrapped_text _ _ _ _ _ _ _ _ = _ |- _ => apply png_wrapped_silent in R
  | R : Png._paste_centered_image _ _ _ _ _ _ = _ |- _ =>
      apply png_image_run in R as (? & ? & ? & ->)
  end.

Ltac forget_empty :=
  repeat match goal with
  | F : Forall no_rect ?t |- _ =>
      rewrite ?(no_rect_boxes _ t F), ?(no_rect_images _ t F); clear F
  | F : Forall no_box ?t |- _ =>
      rewrite ?(no_box_boxes t F), ?(no_box_images t F); clear F
  end.

Ltac push_inject :=
  repeat first [ rewrite inject_Z_plus | rewrite inject_Z_mult
               | rewrite inject_Z_sub | rewrite inject_Z_opp ].

Ltac magnify_tac :=
  unfold magnified, Pdf.bottom_up, Pdf.section_tops, Png.section_tops;
  cbn [Pdf.y_top_photo Pdf.y_top_name Pdf.y_top_qr Pdf.y_top_message Pdf.y_top_bottom_box
       Png.y_photo Png.y_name Png.y_qr Png.y_message Png.y_bottom_box];
  rewrite ?scale_integer;
  repeat split; push_inject; ring.

(** C2, as amended.  The two renderers agree up to the scale factor on the
    filled rectangles, not on everything they draw.  For a configuration
    whose lengths are all integers and whose [bottom_padding_pt] is 0 (or
    absent), a scale factor of at least 1, and a record for which both
    [generate_card] functions succeed: the page and the filled section
    rectangles of the raster card (white page, name box, QR background,
    message box, bottom box) are, in the same order, those of the vector
    card in top-down coordinates multiplied by the scale factor; both cards
    place exactly two images, the photo then the QR code; and the QR image
    has the vector size times the scale factor, with its corner rounded
    down to a whole pixel.  The photo and the text are left out: the photo
    is anchored to the top of its section in the raster card and to the
    bottom in the vector card, and text is measured by different fonts. *)
Theorem raster_magnifies_vector (E : Pdf.env) (G : Png.env) (s : Z)
    (cfg : gmap string pyval) (person_name person_image out_pdf out_png : string)
    (page_height : Q) (tv : list Pdf.op) (tr : list Png.op) :
  1 <= s ->
  integer_lengths cfg ->
  Cfg.num_or cfg "bottom_padding_pt" 0 = Ok 0%Q ->
  Cfg.num_at cfg "page_height_pt" = Ok page_height ->
  Pdf.generate_card E cfg person_name person_image out_pdf = (Ok true, tv) ->
  Png.generate_card G s cfg person_name person_image out_png = (Ok true, tr) ->
  Forall2 (magnified s) (pdf_boxes page_height tv) (png_boxes tr) /\
  exists photo_v qr_v photo_r qr_r,
    pdf_images page_height tv = [photo_v; qr_v] /\
    png_images tr = [photo_r; qr_r] /\
    magnified_floor s (snd qr_v) (snd qr_r).
Proof.
  intros Hs Hint Hbot Hpage Hv Hr.
  apply pdf_card_true in Hv as [qrv Hv]. apply png_card_true in Hr as [qrr Hr].
  unfold Pdf.card_body in Hv. cbv beta zeta in Hv.
  unfold Png.card_body in Hr. cbv beta zeta in Hr.
  run_inv. same_reads. integers Hint. silent_facts.
  match goal with
  | Bv : Pdf.when (Py.gt (inject_Z ?h) 0) _ = _, Br : Png.when _ _ = _ |- _ =>
      rewrite gt_zero_integer in Bv; rewrite scale_integer in Br;
      unfold Pdf.when in Bv; unfold Png.when in Br;
      destruct (Z.ltb_spec 0 h) as [Hpos|Hneg];
      [ destruct (Z.ltb_spec 0 (h * s)); [|nia]
      | destruct (Z.ltb_spec 0 (h * s)); [nia|] ]
  end.
  all: run_inv; same_reads; integers Hint.
  all: rewrite !pdf_boxes_app, !png_boxes_app, !pdf_images_app, !png_images_app.
  all: forget_empty.
  all: cbn [pdf_boxes png_boxes pdf_images png_images flat_map pdf_box png_box
            pdf_image png_image app].
  all: split;
    [ repeat (apply List.Forall2_cons; [magnify_tac|]); apply List.Forall2_nil
    | do 4 eexists; split; [reflexivity|]; split; [reflexivity|] ].
  all: unfold magnified_floor, Pdf.bottom_up, Pdf.section_tops, Png.section_tops;
    cbn [snd Pdf.y_top_qr Png.y_qr]; rewrite ?scale_integer.
  all: split; [|split; [|split; push_inject; ring]].
  all: apply floor_half; push_inject; field.
Qed.

Lemma sample_integer_lengths : integer_lengths Sample.cfg.
Proof.
  intros key q H. unfold Sample.cfg in H.
  apply elem_of_list_to_map_2 in H.
  repeat (apply elem_of_cons in H as [H|H]; [discriminate H|]).
  inversion H.
Qed.

Lemma raster_magnifies_vector_witness :
  exists tv tr,
    Pdf.generate_card (Sample.pdf_env Sample.cfg Sample.people (200, 100)) Sample.cfg
      "Ann Lee" "ann.png" "/app/out/ann_lee.pdf" = (Ok true, tv) /\
    Png.generate_card (Sample.png_env Sample.cfg (200, 100)) 4 Sample.cfg
      "Ann Lee" "ann.png" "/app/out/ann_lee.png" = (Ok true, tr) /\
    Forall2 (magnified 4) (pdf_boxes 504 tv) (png_boxes tr).
Proof.
  eexists. eexists. split; [reflexivity|]. split; [reflexivity|].
  eapply (raster_magnifies_vector (Sample.pdf_env Sample.cfg Sample.people (200, 100))
            (Sample.png_env Sample.cfg (200, 100)) 4 Sample.cfg
            "Ann Lee" "ann.png" "/app/out/ann_lee.pdf" "/app/out/ann_lee.png" 504).
  - lia.
  - exact sample_integer_lengths.
  - reflexivity.
  - reflexivity.
  - reflexivity.
  - reflexivity.
Defined.

(** C2 fails as stated, in three ways.  With a horizontal padding of 10.3
    points the raster name box starts at pixel 41, not at 41.2: each length
    is truncated to whole pixels on its own.  With a bottom padding of 5
    points every vector section moves up by 5 points and no raster section
    moves.  And a photo that does not fill the height of its section sits
    at the top of the section in the raster card, at the bottom in the
    vector card. *)
Lemma raster_vector_counterexample :
  (exists tv tr,
     Pdf.generate_card (Sample.pdf_env Sample.fractional_cfg Sample.people (200, 100))
       Sample.fractional_cfg "Ann Lee" "ann.png" "/app/out/ann_lee.pdf" = (Ok true, tv) /\
     Png.generate_card (Sample.png_env Sample.fractional_cfg (200, 100)) 4
       Sample.fractional_cfg "Ann Lee" "ann.png" "/app/out/ann_lee.png" = (Ok true, tr) /\
     ~ Forall2 (magnified 4) (pdf_boxes 504 tv) (png_boxes tr)) /\
  (exists tv tr,
     Pdf.generate_card (Sample.pdf_env Sample.lifted_cfg Sample.people (200, 100))
       Sample.lifted_cfg "Ann Lee" "ann.png" "/app/out/ann_lee.pdf" = (Ok true, tv) /\
     Png.generate_card (Sample.png_env Sample.lifted_cfg (200, 100)) 4
       Sample.lifted_cfg "Ann Lee" "ann.png" "/app/out/ann_lee.png" = (Ok true, tr) /\
     ~ Forall2 (magnified 4) (pdf_boxes 504 tv) (png_boxes tr)) /\
  (exists tv tr photo_v qr_v photo_r qr_r,
     Pdf.generate_card (Sample.pdf_env Sample.cfg Sample.people (100, 200)) Sample.cfg
       "Ann Lee" "ann.png" "/app/out/ann_lee.pdf" = (Ok true, tv) /\
     Png.generate_card (Sample.png_env Sample.cfg (100, 200)) 4 Sample.cfg
       "Ann Lee" "ann.png" "/app/out/ann_lee.png" = (Ok true, tr) /\
     pdf_images 504 tv = [photo_v; qr_v] /\
     png_images tr = [photo_r; qr_r] /\
     ~ magnified 4 (snd photo_v) (snd photo_r)).
Proof.
  split; [|split].
  - eexists. eexists. split; [vm_compute; reflexivity|]. split; [vm_compute; reflexivity|].
    intros HF. cbn [pdf_boxes png_boxes flat_map pdf_box png_box app] in HF.
    apply Forall2_cons in HF as [_ HF]. apply Forall2_cons in HF as [[Hx _] _].
    vm_compute in Hx. discriminate Hx.
  - eexists. eexists. split; [vm_compute; reflexivity|]. split; [vm_compute; reflexivity|].
    intros HF. cbn [pdf_boxes png_boxes flat_map pdf_box png_box app] in HF.
    apply Forall2_cons in HF as [_ HF]. apply Forall2_cons in HF as [(_ & Hy & _) _].
    vm_compute in Hy. discriminate Hy.
  - do 6 eexists. split; [vm_compute; reflexivity|]. split; [vm_compute; reflexivity|].
    split; [reflexivity|]. split; [reflexivity|].
    cbn [snd]. intros (_ & Hy & _). vm_compute in Hy. discriminate Hy.
Qed.

(** * Further properties of the code *)

(** ** Tokens, again *)

Lemma append_cons (c : ascii) (a b : string) : String c a +:+ b = String c (a +:+ b).
Proof. reflexivity. Qed.

Lemma append_nil_l (b : string) : "" +:+ b = b.
Proof. reflexivity. Qed.

Lemma chars_app (a b : string) : chars (a +:+ b) = chars a ++ chars b.
Proof.
  unfold chars. induction a as [|c a IH]; [reflexivity|].
  rewrite append_cons. simpl. now rewrite IH.
Qed.

Lemma append_nil_r (s : string) : s +:+ "" = s.
Proof. induction s as [|c s IH]; [reflexivity|]. rewrite append_cons. now rewrite IH. Qed.

Lemma append_assoc (a b c : string) : (a +:+ b) +:+ c = a +:+ (b +:+ c).
Proof.
  induction a as [|x a IH]; [reflexivity|]. rewrite !append_cons. now rewrite IH.
Qed.

(** The tokenising loop keeps delimiters out of [current_token] and closes
    only tokens of the right shape. *)
Lemma tokenize_loop_shape (text : string) :
  forall tokens cur,
    Forall token_shape tokens ->
    Forall (fun c => Text.is_delim c = false) (chars cur) ->
    Forall token_shape (fst (Text.tokenize_loop text tokens cur)) /\
    Forall (fun c => Text.is_delim c = false) (chars (snd (Text.tokenize_loop text tokens cur))).
Proof.
  induction text as [|c rest IH]; intros tokens cur Htok Hcur; simpl; [split; assumption|].
  destruct (Text.is_delim c) eqn:Hd.
  - destruct (Py.truthy cur) eqn:Ht.
    + assert (Hne : cur <> "") by (intros ->; discriminate).
      destruct (Ascii.eqb c ","); apply IH; try constructor.
      * apply Forall_app; split; [assumption|]. constructor; [|constructor].
        exists cur. auto.
      * apply Forall_app; split; [assumption|]. constructor; [|constructor].
        exists cur. auto.
    + apply IH; assumption.
  - apply IH; [assumption|].
    rewrite chars_app. apply Forall_app. split; [assumption|].
    constructor; [assumption|constructor].
Qed.

Lemma tokenize_shape (text : string) : Forall token_shape (Text.tokenize text).
Proof.
  unfold Text.tokenize.
  pose proof (tokenize_loop_shape text [] "" ltac:(constructor) ltac:(constructor)) as [H1 H2].
  destruct (Text.tokenize_loop text [] "") as [tokens cur]. simpl in *.
  destruct (Py.truthy cur) eqn:Ht; [|assumption].
  apply Forall_app. split; [assumption|]. constructor; [|constructor].
  exists cur. split; [auto|]. split; [intros ->; discriminate|assumption].
Qed.

(** Reading a run of non-delimiters extends the current token. *)
Lemma tokenize_loop_body (body rest : string) :
  Forall (fun c => Text.is_delim c = false) (chars body) ->
  forall tokens cur,
    Text.tokenize_loop (body +:+ rest) tokens cur
    = Text.tokenize_loop rest tokens (cur +:+ body).
Proof.
  induction body as [|c body IH]; intros Hb tokens cur.
  - now rewrite append_nil_l, append_nil_r.
  - rewrite append_cons. simpl.
    inversion Hb as [|? ? Hc Hb']; subst. rewrite Hc.
    rewrite IH by assumption. rewrite append_assoc. reflexivity.
Qed.

Lemma truthy_app_l (a b : string) : a <> "" -> Py.truthy (a +:+ b) = true.
Proof. destruct a; [congruence|reflexivity]. Qed.

(** Reading one token and the space after it closes exactly that token. *)
Lemma tokenize_loop_token (t rest : string) :
  token_shape t ->
  forall tokens,
    Text.tokenize_loop (t +:+ " " +:+ rest) tokens ""
    = Text.tokenize_loop rest (tokens ++ [t]) "".
Proof.
  intros (body & [-> | ->] & Hne & Hb) tokens.
  - rewrite tokenize_loop_body by assumption. simpl.
    destruct body; [congruence|reflexivity].
  - rewrite append_assoc, tokenize_loop_body by assumption. simpl.
    destruct body; [congruence|reflexivity].
Qed.

Lemma tokenize_loop_last (t : string) :
  token_shape t ->
  forall tokens,
    (let '(tokens', cur) := Text.tokenize_loop t tokens "" in
     if Py.truthy cur then tokens' ++ [cur] else tokens') = tokens ++ [t].
Proof.
  intros (body & [-> | ->] & Hne & Hb) tokens.
  - rewrite <- (append_nil_r body) at 1. rewrite tokenize_loop_body by assumption. simpl.
    destruct body; [congruence|reflexivity].
  - rewrite tokenize_loop_body by assumption. simpl.
    destruct body; [congruence|reflexivity].
Qed.

Lemma tokenize_loop_join (l : list string) :
  Forall token_shape l -> l <> [] ->
  forall tokens,
    (let '(tokens', cur) := Text.tokenize_loop (Py.join " " l) tokens "" in
     if Py.truthy cur then tokens' ++ [cur] else tokens') = tokens ++ l.
Proof.
  induction l as [|t l IH]; intros Hl Hne tokens; [congruence|].
  inversion Hl as [|? ? Ht Hl']; subst.
  destruct l as [|u l].
  - simpl. apply tokenize_loop_last. assumption.
  - change (Py.join " " (t :: u :: l)) with (t +:+ " " +:+ Py.join " " (u :: l)).
    rewrite tokenize_loop_token by assumption.
    rewrite IH by (auto; congruence). rewrite <- app_assoc. reflexivity.
Qed.

(** Joining tokens with single spaces and tokenising again is the
    identity. *)
Lemma tokenize_join (l : list string) :
  Forall token_shape l -> Text.tokenize (Py.join " " l) = l.
Proof.
  intros Hl. destruct l as [|t l]; [reflexivity|].
  unfold Text.tokenize. apply (tokenize_loop_join (t :: l) Hl ltac:(congruence) []).
Qed.

(** X1.  Every token that [_optimal_line_break] cuts a text into is a
    non-empty run of characters other than space and comma, followed by at
    most one comma.  Joining the tokens with single spaces and tokenising
    again gives the same tokens: tokenising normalises the separators and
    loses nothing else. *)
Theorem tokens_well_formed (text : string) :
  Forall token_shape (Text.tokenize text) /\
  Text.tokenize (Py.join " " (Text.tokenize text)) = Text.tokenize text.
Proof.
  pose proof (tokenize_shape text) as H.
  split; [exact H|]. apply tokenize_join. exact H.
Qed.

(** The split point of the two-line mode lies strictly inside the token
    list. *)
Lemma two_lines_split (tokens : list string) (thr : Z) :
  (2 <= length tokens)%nat ->
  exists b, (1 <= b < length tokens)%nat /\
            Text.two_lines tokens thr = [first_line tokens b; second_line tokens b].
Proof.
  intros Hn. unfold Text.two_lines, Text.best_break.
  pose proof (search_loop_inv tokens thr (length tokens - 1)) as Hinv.
  unfold search_inv in Hinv.
  destruct (fold_left (Text.break_step tokens thr) (seq 1 (length tokens - 1)) (0%nat, 0%nat))
    as [b L].
  destruct Hinv as (_ & I2 & _). cbn [fst].
  destruct (Nat.ltb_spec 0 b) as [Hb|Hb].
  - exists b. destruct (I2 ltac:(lia)) as (Hr & _). split; [lia|reflexivity].
  - exists (length tokens / 2)%nat. split; [|reflexivity].
    split.
    + apply Nat.div_le_lower_bound; lia.
    + apply Nat.div_lt; lia.
Qed.

(** X2.  With two lines asked for and at least two tokens,
    [_optimal_line_break] returns exactly two lines, each with at least one
    token, and the tokens of the first followed by those of the second are
    the tokens of the text: the two-line mode never drops a token. *)
Theorem two_lines_keep_every_token (text : string) (char_threshold : Z) :
  (2 <= length (Text.tokenize text))%nat ->
  exists line1 line2,
    Text._optimal_line_break text char_threshold 2 = [line1; line2] /\
    Text.tokenize line1 <> [] /\ Text.tokenize line2 <> [] /\
    Text.tokenize line1 ++ Text.tokenize line2 = Text.tokenize text.
Proof.
  intros Hn. unfold Text._optimal_line_break.
  destruct (Nat.eqb_spec (length (Text.tokenize text)) 0); [lia|].
  destruct (Nat.eqb_spec (length (Text.tokenize text)) 1); [lia|].
  cbn [Z.eqb Pos.eqb].
  destruct (two_lines_split (Text.tokenize text) char_threshold Hn) as (b & Hb & ->).
  pose proof (tokenize_shape text) as Hshape.
  exists (first_line (Text.tokenize text) b), (second_line (Text.tokenize text) b).
  unfold first_line, second_line.
  rewrite !tokenize_join by (first [apply Forall_take | apply Forall_drop]; exact Hshape).
  split; [reflexivity|]. split; [|split].
  - intros H. apply (f_equal (@length string)) in H. rewrite length_take in H. simpl in H. lia.
  - intros H. apply (f_equal (@length string)) in H. rewrite length_drop in H. simpl in H. lia.
  - apply firstn_skipn.
Qed.

Lemma two_lines_keep_every_token_witness :
  exists line1 line2,
    Text._optimal_line_break "Alice, Bob Carter" 10 2 = [line1; line2] /\
    Text.tokenize line1 ++ Text.tokenize line2 = ["Alice,"; "Bob"; "Carter"].
Proof.
  destruct (two_lines_keep_every_token "Alice, Bob Carter" 10 ltac:(vm_compute; lia))
    as (line1 & line2 & H1 & _ & _ & H2).
  exists line1, line2. split; [exact H1|exact H2].
Defined.

Lemma greedy_loop_fits (all : list string) (thr max_lines : Z) (tokens : list string) :
  (forall t, In t tokens -> In t all) ->
  forall lines current,
    Forall (fits_or_token all thr) lines ->
    (current = [] \/ fits_or_token all thr (Py.join " " current)) ->
    let r := Text.greedy_loop tokens thr max_lines lines current in
    Forall (fits_or_token all thr) (fst r) /\
    (snd r = [] \/ fits_or_token all thr (Py.join " " (snd r))).
Proof.
  induction tokens as [|token rest IH]; intros Hall lines current Hl Hc; [split; assumption|].
  cbn [Text.greedy_loop].
  assert (Hrest : forall t, In t rest -> In t all) by (intros; apply Hall; now right).
  assert (Htok : In token all) by (apply Hall; now left).
  destruct (Text.within (Py.join " " (current ++ [token])) thr) eqn:Hw.
  - apply IH; [assumption|assumption|]. right. left. exact Hw.
  - destruct current as [|c cs]; cbn [Py.nonempty].
    + assert (Hl' : Forall (fits_or_token all thr) (lines ++ [token])).
      { apply Forall_app. split; [assumption|]. constructor; [right; exact Htok|constructor]. }
      destruct (max_lines <=? Z.of_nat (length (lines ++ [token]))).
      * split; [exact Hl'|left; reflexivity].
      * apply IH; [assumption|exact Hl'|left; reflexivity].
    + assert (Hl' : Forall (fits_or_token all thr) (lines ++ [Py.join " " (c :: cs)])).
      { apply Forall_app. split; [assumption|]. constructor; [|constructor].
        destruct Hc as [Hc|Hc]; [discriminate|exact Hc]. }
      assert (Hc' : [token] = [] \/ fits_or_token all thr (Py.join " " [token])).
      { right. right. exact Htok. }
      destruct (max_lines <=? Z.of_nat (length (lines ++ [Py.join " " (c :: cs)]))).
      * split; [exact Hl'|exact Hc'].
      * apply IH; [assumption|exact Hl'|exact Hc'].
Qed.

Lemma slice_to_Forall {A} (P : A -> Prop) (l : list A) (k : Z) :
  Forall P l -> Forall P (Py.slice_to l k).
Proof. intros H. unfold Py.slice_to. destruct (0 <=? k); apply Forall_take; exact H. Qed.

Lemma greedy_fits (tokens : list string) (thr max_lines : Z) :
  Forall (fits_or_token tokens thr) (Text.greedy tokens thr max_lines).
Proof.
  unfold Text.greedy.
  pose proof (greedy_loop_fits tokens thr max_lines tokens ltac:(auto) [] []
                ltac:(constructor) ltac:(left; reflexivity)) as [H1 H2].
  destruct (Text.greedy_loop tokens thr max_lines [] []) as [lines current].
  cbn [fst snd] in *. apply slice_to_Forall.
  destruct (Py.nonempty current && (Z.of_nat (length lines) <? max_lines)) eqn:Hb;
    [|exact H1].
  apply Forall_app. split; [exact H1|]. constructor; [|constructor].
  destruct H2 as [->|H2]; [discriminate|exact H2].
Qed.

(** X3.  In the greedy mode ([max_lines] other than 2, at least two
    tokens) every line returned either is no longer than the threshold or
    is a single token of the text: a line exceeds the threshold only when
    one token alone does. *)
Theorem greedy_lines_fit_or_are_one_token (text : string) (char_threshold max_lines : Z) :
  max_lines <> 2 ->
  (2 <= length (Text.tokenize text))%nat ->
  Forall (fun line => Z.of_nat (Py.len line) <= char_threshold \/
                      In line (Text.tokenize text))
         (Text._optimal_line_break text char_threshold max_lines).
Proof.
  intros Hne Hn. unfold Text._optimal_line_break.
  destruct (Nat.eqb_spec (length (Text.tokenize text)) 0); [lia|].
  destruct (Nat.eqb_spec (length (Text.tokenize text)) 1); [lia|].
  destruct (Z.eqb_spec max_lines 2); [contradiction|].
  eapply Forall_impl; [apply greedy_fits|].
  intros line [Hw|Hin]; [left; now apply within_iff|right; exact Hin].
Qed.

Lemma greedy_lines_fit_or_are_one_token_witness :
  Forall (fun line => Z.of_nat (Py.len line) <= 4 \/
                      In line (Text.tokenize "a bb ccccc dd"))
         (Text._optimal_line_break "a bb ccccc dd" 4 3).
Proof.
  apply (greedy_lines_fit_or_are_one_token "a bb ccccc dd" 4 3);
    [discriminate|vm_compute; lia].
Defined.

(** ** The alphabet of a file name *)

Lemma all_ascii_complete (c : ascii) : In c all_ascii.
Proof.
  unfold all_ascii. rewrite <- (ascii_nat_embedding c).
  apply in_map, in_seq. pose proof (nat_ascii_bounded c). lia.
Qed.

Lemma every_ascii (P : ascii -> bool) :
  forallb P all_ascii = true -> forall c, P c = true.
Proof. intros H c. apply (proj1 (forallb_forall P all_ascii) H c), all_ascii_complete. Qed.

Lemma sanitize_char_ok (c : ascii) : filename_char (sanitize_char c) = true.
Proof. revert c. apply every_ascii. vm_compute. reflexivity. Qed.

Lemma filename_char_fixed (c : ascii) :
  filename_char c = true ->
  Text.safe_char c = c /\ Py.isspace c = false /\ Ascii.eqb c " " = false /\
  Py.lower_char c = c.
Proof.
  revert c.
  assert (H : forall c, implb (filename_char c)
                (Ascii.eqb (Text.safe_char c) c && negb (Py.isspace c)
                 && negb (Ascii.eqb c " ") && Ascii.eqb (Py.lower_char c) c) = true).
  { apply every_ascii. vm_compute. reflexivity. }
  intros c Hc. specialize (H c). rewrite Hc in H. simpl in H.
  repeat (apply andb_prop in H as [H ?]).
  repeat split.
  - now apply Ascii.eqb_eq.
  - now apply negb_true_iff.
  - now apply negb_true_iff.
  - now apply Ascii.eqb_eq.
Qed.

Lemma safe_char_keeps_nonspace (c : ascii) :
  Py.isspace c = false -> Py.isspace (Text.safe_char c) = false.
Proof.
  revert c.
  assert (H : forall c, implb (negb (Py.isspace c)) (negb (Py.isspace (Text.safe_char c))) = true).
  { apply every_ascii. vm_compute. reflexivity. }
  intros c Hc. specialize (H c). rewrite Hc in H. simpl in H. now apply negb_true_iff.
Qed.

Lemma chars_map (f : ascii -> ascii) (s : string) :
  chars (Py.map_chars f s) = map f (chars s).
Proof. unfold chars. induction s as [|c s IH]; simpl; [reflexivity|now rewrite IH]. Qed.

Lemma map_chars_compose (f g : ascii -> ascii) (s : string) :
  Py.map_chars f (Py.map_chars g s) = Py.map_chars (fun c => f (g c)) s.
Proof. induction s as [|c s IH]; simpl; [reflexivity|now rewrite IH]. Qed.

Lemma map_chars_id (f : ascii -> ascii) (s : string) :
  Forall (fun c => f c = c) (chars s) -> Py.map_chars f s = s.
Proof.
  unfold chars. induction s as [|c s IH]; simpl; intros H; [reflexivity|].
  inversion H; subst. rewrite IH by assumption. congruence.
Qed.

Lemma len_map_chars (f : ascii -> ascii) (s : string) :
  Py.len (Py.map_chars f s) = Py.len s.
Proof. unfold Py.len. induction s as [|c s IH]; simpl; [reflexivity|now rewrite IH]. Qed.

(** [strip] only removes characters. *)
Lemma lstrip_chars (P : ascii -> Prop) (s : string) :
  Forall P (chars s) -> Forall P (chars (Py.lstrip s)).
Proof.
  unfold chars. induction s as [|c s IH]; simpl; intros H; [constructor|].
  destruct (Py.isspace c); [apply IH; now inversion H|exact H].
Qed.

Lemma rstrip_chars (P : ascii -> Prop) (s : string) :
  Forall P (chars s) -> Forall P (chars (Py.rstrip s)).
Proof.
  unfold chars. induction s as [|c s IH]; simpl; intros H; [constructor|].
  inversion H as [|? ? Hc Hs]; subst. specialize (IH Hs).
  destruct (Py.rstrip s) as [|d r].
  - destruct (Py.isspace c); simpl; [constructor|constructor; [exact Hc|constructor]].
  - simpl. constructor; assumption.
Qed.

Lemma len_lstrip (s : string) : (Py.len (Py.lstrip s) <= Py.len s)%nat.
Proof.
  unfold Py.len. induction s as [|c s IH]; simpl; [lia|].
  destruct (Py.isspace c); simpl; lia.
Qed.

Lemma len_rstrip (s : string) : (Py.len (Py.rstrip s) <= Py.len s)%nat.
Proof.
  unfold Py.len. induction s as [|c s IH]; simpl; [lia|].
  destruct (Py.rstrip s); [destruct (Py.isspace c)|]; simpl in *; lia.
Qed.

Lemma lstrip_fixed (s : string) : head_nonspace s -> Py.lstrip s = s.
Proof. destruct s as [|c s]; simpl; [reflexivity|]. now intros ->. Qed.

Lemma rstrip_fixed (s : string) : last_nonspace s -> Py.rstrip s = s.
Proof.
  induction s as [|c s IH]; [reflexivity|].
  destruct s as [|d s].
  - simpl. now intros ->.
  - intros H. change (last_nonspace (String d s)) in H.
    cbn [Py.rstrip]. cbn [Py.rstrip] in IH. rewrite (IH H).
    reflexivity.
Qed.

Lemma lstrip_head (s : string) : head_nonspace (Py.lstrip s).
Proof.
  induction s as [|c s IH]; simpl; [exact I|].
  destruct (Py.isspace c) eqn:E; [exact IH|exact E].
Qed.

Lemma rstrip_head (s : string) : head_nonspace s -> head_nonspace (Py.rstrip s).
Proof.
  destruct s as [|c s]; simpl; [auto|]. intros H.
  destruct (Py.rstrip s); [rewrite H|]; exact H.
Qed.

Lemma rstrip_last (s : string) : last_nonspace (Py.rstrip s).
Proof.
  induction s as [|c s IH]; simpl; [exact I|].
  destruct (Py.rstrip s) as [|d r] eqn:E.
  - destruct (Py.isspace c) eqn:Ec; simpl; [exact I|exact Ec].
  - exact IH.
Qed.

Lemma map_head (f : ascii -> ascii) (s : string) :
  (forall c, Py.isspace c = false -> Py.isspace (f c) = false) ->
  head_nonspace s -> head_nonspace (Py.map_chars f s).
Proof. intros Hf. destruct s; simpl; auto. Qed.

Lemma map_last (f : ascii -> ascii) (s : string) :
  (forall c, Py.isspace c = false -> Py.isspace (f c) = false) ->
  last_nonspace s -> last_nonspace (Py.map_chars f s).
Proof.
  intros Hf. induction s as [|c s IH]; [auto|].
  destruct s as [|d s]; simpl; [auto|]. intros H. apply IH. exact H.
Qed.

Lemma strip_fixed (s : string) : head_nonspace s -> last_nonspace s -> Py.strip s = s.
Proof. intros Hh Hl. unfold Py.strip. rewrite (lstrip_fixed s Hh). now apply rstrip_fixed. Qed.

Lemma nonspace_head_last (s : string) :
  Forall (fun c => Py.isspace c = false) (chars s) -> head_nonspace s /\ last_nonspace s.
Proof.
  unfold chars. induction s as [|c s IH]; simpl; intros H; [split; exact I|].
  inversion H as [|? ? Hc Hs]; subst. split; [exact Hc|].
  destruct s as [|d s]; [exact Hc|]. apply IH. exact Hs.
Qed.

(** Every character of a sanitised name is [sanitize_char] of a character
    of the name. *)
Lemma sanitize_chars (name : string) :
  Forall (fun c => filename_char c = true) (chars (Text._sanitize_filename name)).
Proof.
  unfold Text._sanitize_filename, Py.lower, Py.replace_char, Py.strip.
  rewrite map_chars_compose, chars_map. apply Forall_map.
  apply rstrip_chars, lstrip_chars. rewrite chars_map. apply Forall_map.
  apply Forall_forall. intros c _. exact (sanitize_char_ok c).
Qed.

Lemma sanitize_fixed (s : string) :
  Forall (fun c => filename_char c = true) (chars s) -> Text._sanitize_filename s = s.
Proof.
  intros H. unfold Text._sanitize_filename, Py.lower, Py.replace_char.
  assert (H1 : Py.map_chars Text.safe_char s = s).
  { apply map_chars_id. eapply Forall_impl; [exact H|].
    intros c Hc. apply (filename_char_fixed c Hc). }
  rewrite H1.
  assert (H2 : Py.strip s = s).
  { destruct (nonspace_head_last s) as [Hh Hl].
    - eapply Forall_impl; [exact H|]. intros c Hc. apply (filename_char_fixed c Hc).
    - now apply strip_fixed. }
  rewrite H2, map_chars_compose. apply map_chars_id.
  eapply Forall_impl; [exact H|]. intros c Hc.
  destruct (filename_char_fixed c Hc) as (_ & _ & Hsp & Hlow).
  rewrite Hsp. exact Hlow.
Qed.

Lemma has_no (bad : ascii) (s : string) :
  filename_char bad = false ->
  Forall (fun c => filename_char c = true) (chars s) -> ~ In bad (chars s).
Proof.
  intros Hbad H Hin. rewrite List.Forall_forall in H. specialize (H bad Hin). congruence.
Qed.

(** X4.  Every character of a file name made by [_sanitize_filename] is a
    letter or digit that [lower] leaves alone, a hyphen or an underscore.
    The name holds no slash, no backslash, no dot and no space, and is its
    own lower case. *)
Theorem sanitized_name_alphabet (name : string) :
  let file := Text._sanitize_filename name in
  Forall (fun c => filename_char c = true) (chars file) /\
  ~ In "/"%char (chars file) /\ ~ In "\"%char (chars file) /\
  ~ In "."%char (chars file) /\ ~ In " "%char (chars file) /\
  Py.lower file = file.
Proof.
  intros file. pose proof (sanitize_chars name) as H. fold file in H.
  split; [exact H|].
  repeat (split; [apply has_no; [reflexivity|exact H]|]).
  apply map_chars_id. eapply Forall_impl; [exact H|].
  intros c Hc. apply (filename_char_fixed c Hc).
Qed.

(** X5.  [_sanitize_filename] is idempotent: a sanitised name is
    sanitised to itself. *)
Theorem sanitize_filename_idempotent (name : string) :
  Text._sanitize_filename (Text._sanitize_filename name) = Text._sanitize_filename name.
Proof. apply sanitize_fixed. apply sanitize_chars. Qed.

Lemma len_sanitize_le (name : string) :
  (Py.len (Text._sanitize_filename name) <= Py.len name)%nat.
Proof.
  unfold Text._sanitize_filename, Py.lower, Py.replace_char, Py.strip.
  rewrite !len_map_chars.
  pose proof (len_rstrip (Py.lstrip (Py.map_chars Text.safe_char name))).
  pose proof (len_lstrip (Py.map_chars Text.safe_char name)).
  rewrite len_map_chars in *. lia.
Qed.

Lemma len_sanitize_stripped (name : string) :
  head_nonspace name -> last_nonspace name ->
  Py.len (Text._sanitize_filename name) = Py.len name.
Proof.
  intros Hh Hl. unfold Text._sanitize_filename, Py.lower, Py.replace_char.
  rewrite strip_fixed.
  - now rewrite !len_map_chars.
  - apply map_head; [exact safe_char_keeps_nonspace|exact Hh].
  - apply map_last; [exact safe_char_keeps_nonspace|exact Hl].
Qed.

(** X6.  For a name as [generate_all_cards] passes it, stripped of
    leading and trailing white space, the sanitised file name has as many
    characters as the name, so that a non-empty name never gives an empty
    file name.  For any string, the file name is never longer than the
    string. *)
Theorem sanitized_name_length (raw : string) :
  let person_name := Py.strip raw in
  Py.len (Text._sanitize_filename person_name) = Py.len person_name /\
  (Py.truthy person_name = true ->
   Py.truthy (Text._sanitize_filename person_name) = true) /\
  (Py.len (Text._sanitize_filename raw) <= Py.len raw)%nat.
Proof.
  intros person_name.
  assert (Hlen : Py.len (Text._sanitize_filename person_name) = Py.len person_name).
  { apply len_sanitize_stripped; unfold person_name, Py.strip.
    - apply rstrip_head, lstrip_head.
    - apply rstrip_last. }
  split; [exact Hlen|]. split; [|apply len_sanitize_le].
  intros Ht. apply truthy_len. apply truthy_len in Ht. lia.
Qed.

(** ** Where the text goes *)

Section PdfText.
Local Open Scope Q_scope.

Lemma pdf_lines_drawn (E : Pdf.env) (font : string) (size x width start_y line_height : Q)
    (lines : list string) :
  forall i : Z,
    let m := for_enumerate lines i (fun i line =>
               let line_width := Pdf.stringWidth E line font size in
               let text_x := x + (width - line_width) / 2 in
               let text_y := start_y - inject_Z i * line_height in
               call (Pdf.drawString text_x text_y line)) in
    result m = Ok tt /\
    Forall (pdf_centred E x width) (pdf_strings font size (trace m)) /\
    map pdf_string_text (pdf_strings font size (trace m)) = lines /\
    Forall (fun d => snd (fst d) = size) (pdf_strings font size (trace m)).
Proof.
  induction lines as [|line lines IH]; intros i; cbn zeta.
  - repeat split; constructor.
  - cbn [for_enumerate]. specialize (IH (i + 1)%Z). cbn zeta in IH.
    destruct IH as (Hr & Hc & Hl & Hs).
    rewrite result_bind, trace_bind. cbn [call result trace fst snd app].
    split; [exact Hr|]. cbn [pdf_strings]. split; [|split].
    + constructor; [|exact Hc]. unfold pdf_centred. field.
    + cbn [map]. now rewrite Hl.
    + constructor; [reflexivity|exact Hs].
Qed.

End PdfText.

(** X7.  Every string that the vector [_draw_centered_text] draws is
    centred horizontally in its box, for the width measured at the font and
    size in force when it is drawn (after the auto-shrink, in single-line
    mode).  In multi-line mode the method always returns, the strings are
    the lines of [_optimal_line_break] in order, and all are drawn at the
    starting size: nothing shrinks a line that is too wide.  In single-line
    mode, when the method returns, the text is drawn once, in Helvetica or
    Helvetica-Bold, at [y + (height - size) / 2] for the final size. *)
Theorem vector_text_is_centred (E : Pdf.env) (text : string)
    (x y width height font_size : Q) (bold : bool) (text_padding : Q)
    (allow_multiline : bool) (max_lines char_threshold : Z) (font0 : string) (size0 : Q) :
  let m := Pdf._draw_centered_text E text x y width height font_size bold text_padding
             allow_multiline max_lines char_threshold in
  let drawn := pdf_strings font0 size0 (trace m) in
  Forall (pdf_centred E x width) drawn /\
  (allow_multiline = true -> max_lines <> 1 ->
   result m = Ok tt /\
   map pdf_string_text drawn = Text._optimal_line_break text char_threshold max_lines /\
   Forall (fun d => snd (fst d) = font_size) drawn) /\
  ((allow_multiline = false \/ max_lines = 1) -> result m = Ok tt ->
   exists size text_x,
     drawn = [(if bold then "Helvetica-Bold" else "Helvetica", size,
               (text_x, (y + (height - size) / 2)%Q, text))]).
Proof.
  intros m drawn. unfold drawn, m, Pdf._draw_centered_text.
  rewrite trace_bind, result_bind. cbn [call result trace fst snd app pdf_strings].
  set (font := if bold then "Helvetica-Bold" else "Helvetica").
  destruct (negb allow_multiline || (max_lines =? 1)) eqn:Hmode.
  - (* single line *)
    assert (Hsingle : allow_multiline = true -> max_lines <> 1 -> False).
    { intros -> Hne. simpl in Hmode. apply Z.eqb_eq in Hmode. contradiction. }
    unfold Pdf.fit_single_line.
    destruct (Py.gt (Pdf.stringWidth E text font font_size) (width - 2 * text_padding)).
    + unfold Pdf.float_div.
      destruct (Qeq_bool (Pdf.stringWidth E text font font_size) 0).
      * cbn. split; [constructor|]. split; [intros; exfalso; auto|].
        intros _ H. discriminate H.
      * cbn. split; [|split].
        -- constructor; [|constructor]. unfold pdf_centred. field.
        -- intros; exfalso; auto.
        -- intros _ _. eexists. eexists. reflexivity.
    + cbn. split; [|split].
      * constructor; [|constructor]. unfold pdf_centred. field.
      * intros; exfalso; auto.
      * intros _ _. eexists. eexists. reflexivity.
  - (* one string per line *)
    apply orb_false_iff in Hmode as [Hm Hl].
    apply negb_false_iff in Hm. apply Z.eqb_neq in Hl.
    match goal with
    | |- context [for_enumerate ?l 0 ?body] =>
        pose proof (pdf_lines_drawn E font font_size x width
                      (y + (height - inject_Z (Z.of_nat (length l)) * (font_size * 1.2)) / 2
                       + (inject_Z (Z.of_nat (length l)) - 1) * (font_size * 1.2))%Q
                      (font_size * 1.2)%Q l 0) as (Hr & Hc & Ht & Hs)
    end.
    cbn zeta in Hr, Hc, Ht, Hs. cbn zeta.
    split; [exact Hc|]. split.
    + intros _ _. split; [exact Hr|]. split; [exact Ht|exact Hs].
    + intros [H|H]; [congruence|contradiction].
Qed.

Lemma floor_centred (x width line_width : Z) :
  let text_x := x + (width - line_width) / 2 in
  0 <= (x + width - (text_x + line_width)) - (text_x - x) <= 1.
Proof.
  cbn zeta. pose proof (Z.div_mod (width - line_width) 2 ltac:(lia)).
  pose proof (Z.mod_pos_bound (width - line_width) 2 ltac:(lia)). lia.
Qed.

Lemma png_lines_drawn (G : Png.env) (font_size : Z) (bold : bool)
    (x width start_y line_height : Z) (lines : list string) :
  forall i : Z,
    let m := for_enumerate lines i (fun i line =>
               let line_width := Png.bbox_width (Png.textbbox G line font_size bold) in
               let text_x := x + (width - line_width) / 2 in
               let text_y := start_y + i * line_height in
               call (Png.text text_x text_y line font_size bold)) in
    result m = Ok tt /\
    Forall (png_centred G x width) (png_texts (trace m)) /\
    map png_string_text (png_texts (trace m)) = lines /\
    Forall (fun d => exists k text_x s,
                d = (text_x, start_y + k * line_height, s, font_size, bold) /\
                i <= k < i + Z.of_nat (length lines))
           (png_texts (trace m)).
Proof.
  induction lines as [|line lines IH]; intros i; cbn zeta.
  - repeat split; constructor.
  - cbn [for_enumerate]. specialize (IH (i + 1)). cbn zeta in IH.
    destruct IH as (Hr & Hc & Hl & Hs).
    rewrite result_bind, trace_bind. cbn [call result trace fst snd app].
    split; [exact Hr|]. cbn [png_texts flat_map png_text app].
    fold (png_texts (trace (for_enumerate lines (i + 1) (fun i line =>
            call (Png.text (x + (width - Png.bbox_width (Png.textbbox G line font_size bold)) / 2)
                    (start_y + i * line_height) line font_size bold))))).
    split; [|split].
    + constructor; [|exact Hc]. unfold png_centred, text_width. apply floor_centred.
    + cbn [map png_string_text]. now rewrite Hl.
    + constructor.
      * exists i. eexists. eexists. split; [reflexivity|]. cbn [length]. lia.
      * eapply Forall_impl; [exact Hs|].
        intros d (k & tx & s & -> & Hk). exists k, tx, s. split; [reflexivity|].
        cbn [length]. lia.
Qed.

(** X8.  Every string that the raster [_draw_centered_text] draws has a
    left and a right margin in its box that differ by at most one pixel, the
    right one being the larger, for the width measured at the size it is
    drawn with.  In multi-line mode the method always returns, the strings
    are the lines of [_optimal_line_break] in order, all at the starting
    size; in single-line mode, when it returns, the text is drawn once. *)
Theorem raster_text_is_centred (G : Png.env) (s : string)
    (x y width height font_size : Z) (bold : bool) (text_padding : Z)
    (allow_multiline : bool) (max_lines char_threshold : Z) :
  let m := Png._draw_centered_text G s x y width height font_size bold text_padding
             allow_multiline max_lines char_threshold in
  let drawn := png_texts (trace m) in
  Forall (png_centred G x width) drawn /\
  (allow_multiline = true -> max_lines <> 1 ->
   result m = Ok tt /\
   map png_string_text drawn = Text._optimal_line_break s char_threshold max_lines /\
   Forall (fun d => snd (fst d) = font_size) drawn) /\
  ((allow_multiline = false \/ max_lines = 1) -> result m = Ok tt ->
   exists size text_x text_y, drawn = [(text_x, text_y, s, size, bold)]).
Proof.
  intros m drawn. unfold drawn, m, Png._draw_centered_text.
  destruct (negb allow_multiline || (max_lines =? 1)) eqn:Hmode.
  - assert (Hsingle : allow_multiline = true -> max_lines <> 1 -> False).
    { intros -> Hne. simpl in Hmode. apply Z.eqb_eq in Hmode. contradiction. }
    unfold Png.fit_single_line.
    destruct (width - 2 * text_padding <?
              Png.bbox_width (Png.textbbox G s font_size bold)).
    + unfold Png.div.
      destruct (Png.bbox_width (Png.textbbox G s font_size bold) =? 0).
      * cbn. split; [constructor|]. split; [intros; exfalso; auto|].
        intros _ H. discriminate H.
      * cbn. split; [|split].
        -- constructor; [|constructor]. unfold png_centred, text_width. apply floor_centred.
        -- intros; exfalso; auto.
        -- intros _ _. do 3 eexists. reflexivity.
    + cbn. split; [|split].
      * constructor; [|constructor]. unfold png_centred, text_width. apply floor_centred.
      * intros; exfalso; auto.
      * intros _ _. do 3 eexists. reflexivity.
  - apply orb_false_iff in Hmode as [Hm Hl].
    apply negb_false_iff in Hm. apply Z.eqb_neq in Hl.
    match goal with
    | |- context [for_enumerate ?l 0 (fun i line => call (Png.text _ (?sy + _) _ _ _))] =>
        pose proof (png_lines_drawn G font_size bold x width sy
                      (Py.int (inject_Z font_size * 1.2)%Q) l 0) as (Hr & Hc & Ht & Hs)
    end.
    cbn zeta in Hr, Hc, Ht, Hs. cbn zeta.
    split; [exact Hc|]. split.
    + intros _ _. split; [exact Hr|]. split; [exact Ht|].
      eapply Forall_impl; [exact Hs|]. intros d (k & tx & z & -> & _). reflexivity.
    + intros [H|H]; [congruence|contradiction].
Qed.

(** ** Splitting the message into lines *)

Lemma split_nonempty (sep : ascii) (s : string) : Py.split sep s <> [].
Proof.
  induction s as [|c s IH]; simpl; [discriminate|].
  destruct (Ascii.eqb c sep); [discriminate|].
  destruct (Py.split sep s); discriminate.
Qed.

Lemma join_split (sep : ascii) (s : string) :
  Py.join (String sep "") (Py.split sep s) = s.
Proof.
  unfold Py.join. induction s as [|c s IH]; [reflexivity|].
  cbn [Py.split]. destruct (Ascii.eqb_spec c sep) as [->|Hne].
  - pose proof (split_nonempty sep s) as Hs.
    destruct (Py.split sep s) as [|p ps]; [congruence|].
    change (String.concat (String sep "") ("" :: p :: ps))
      with ("" +:+ String sep "" +:+ String.concat (String sep "") (p :: ps)).
    rewrite IH. reflexivity.
  - pose proof (split_nonempty sep s) as Hs.
    destruct (Py.split sep s) as [|p ps]; [congruence|].
    destruct ps as [|q ps].
    + simpl in *. now rewrite IH.
    + change (String.concat (String sep "") (String c p :: q :: ps))
        with (String c p +:+ String sep "" +:+ String.concat (String sep "") (q :: ps)).
      change (String.concat (String sep "") (p :: q :: ps))
        with (p +:+ String sep "" +:+ String.concat (String sep "") (q :: ps)) in IH.
      rewrite append_cons, IH. reflexivity.
Qed.

Lemma split_pieces (sep : ascii) (s : string) :
  Forall (fun piece => ~ In sep (chars piece)) (Py.split sep s).
Proof.
  induction s as [|c s IH]; simpl.
  - constructor; [intros []|constructor].
  - destruct (Ascii.eqb_spec c sep) as [->|Hne].
    + constructor; [intros []|exact IH].
    + destruct (Py.split sep s) as [|p ps]; [constructor; [|constructor]|].
      * intros [H|[]]. congruence.
      * inversion IH as [|? ? Hp Hps]; subst. constructor; [|exact Hps].
        intros [H|H]; [congruence|]. apply Hp. exact H.
Qed.

(** X9.  The raster [_draw_wrapped_text] always returns and never breaks
    a line on width: the lines drawn are the message cut at every [<br/>]
    and newline, whatever the box and the padding.  Joined by newlines they
    give back the message with [<br/>] replaced; none holds a newline; there
    is at least one.  Each is centred within one pixel, in the regular face
    at the given size, line [k] at [k * int(1.25 * font_size)] below the
    first, the block being centred in the height of the box. *)
Theorem raster_message_lines (G : Png.env) (s : string)
    (x y width height font_size text_padding : Z) :
  let m := Png._draw_wrapped_text G s x y width height font_size text_padding in
  let drawn := png_texts (trace m) in
  let lines := map png_string_text drawn in
  result m = Ok tt /\
  lines = Py.split "010"%char (Py.replace "<br/>" (String "010"%char "") s) /\
  Py.join (String "010"%char "") lines = Py.replace "<br/>" (String "010"%char "") s /\
  Forall (fun line => ~ In "010"%char (chars line)) lines /\
  lines <> [] /\
  Forall (png_centred G x width) drawn /\
  Forall (fun d => exists k text_x line,
              d = (text_x,
                   y + (height - Z.of_nat (length lines)
                                 * Py.int (inject_Z font_size * 1.25)%Q) / 2
                     + k * Py.int (inject_Z font_size * 1.25)%Q,
                   line, font_size, false) /\
              0 <= k < Z.of_nat (length lines)) drawn.
Proof.
  intros m drawn lines. unfold lines, drawn, m, Png._draw_wrapped_text.
  match goal with
  | |- context [for_enumerate ?l 0 (fun i line => call (Png.text _ (?sy + _) _ _ _))] =>
      pose proof (png_lines_drawn G font_size false x width sy
                    (Py.int (inject_Z font_size * 1.25)%Q) l 0) as (Hr & Hc & Ht & Hs)
  end.
  cbn zeta in Hr, Hc, Ht, Hs. cbn zeta.
  split; [exact Hr|]. split; [exact Ht|]. rewrite Ht.
  split; [apply join_split|]. split; [apply split_pieces|].
  split; [apply split_nonempty|]. split; [exact Hc|].
  eapply Forall_impl; [exact Hs|].
  intros d (k & tx & z & -> & Hk). exists k, tx, z. split; [reflexivity|lia].
Qed.

(** ** What ends a run *)

Lemma row_field_stripped (row : gmap string (option string)) (key value : string) :
  row_field row key = Returned value -> exists raw, value = Py.strip raw.
Proof.
  unfold row_field. destruct (row !! key) as [[s|]|]; intros H; inversion H; eauto.
Qed.

Lemma complete_row_fields (row : gmap string (option string)) :
  complete_row row ->
  exists person_name person_image,
    row_field row "name" = Returned person_name /\
    row_field row "image" = Returned person_image.
Proof.
  intros [Hn Hi]. unfold row_field.
  destruct (row !! "name") as [[n|]|]; [|contradiction|];
    (destruct (row !! "image") as [[i|]|]; [|contradiction|]); eauto.
Qed.

Lemma short_row_raises (E : Pdf.env) cfg dir row rest s f w :
  short_row row ->
  Pdf.cards_loop E cfg dir (row :: rest) s f w = Uncaught AttributeError.
Proof.
  intros Hshort. cbn [Pdf.cards_loop]. unfold row_field.
  destruct (row !! "name") as [[n|]|] eqn:Hn; [| reflexivity |];
    (destruct (row !! "image") as [[i|]|] eqn:Hi; [| reflexivity |]);
    destruct Hshort; congruence.
Qed.

(** The loop over a list in two parts. *)
Lemma cards_loop_app (E : Pdf.env) cfg dir (pre rest : list (gmap string (option string))) :
  forall s f w,
    Pdf.cards_loop E cfg dir (pre ++ rest) s f w =
    match Pdf.cards_loop E cfg dir pre s f w with
    | Returned (s', f', w') => Pdf.cards_loop E cfg dir rest s' f' w'
    | Uncaught e => Uncaught e
    | SysExit code => SysExit code
    end.
Proof.
  induction pre as [|row pre IH]; intros s f w; [reflexivity|].
  cbn [app Pdf.cards_loop].
  destruct (row_field row "name") as [n| |]; [|reflexivity|reflexivity].
  destruct (row_field row "image") as [i| |]; [|reflexivity|reflexivity].
  destruct (negb (Py.truthy n) || negb (Py.truthy i)); [apply IH|].
  destruct (result (Pdf.generate_card E cfg n i _)) as [[|]|e]; [apply IH|apply IH|reflexivity].
Qed.

(** No card ends the process: the loop never calls [sys.exit]. *)
Lemma cards_loop_no_exit (E : Pdf.env) cfg dir (data : list (gmap string (option string))) :
  forall s f w code, Pdf.cards_loop E cfg dir data s f w <> SysExit code.
Proof.
  induction data as [|row data IH]; intros s f w code; [discriminate|].
  cbn [Pdf.cards_loop]. unfold row_field.
  destruct (row !! "name") as [[n|]|]; [| discriminate |];
    (destruct (row !! "image") as [[i|]|]; [| discriminate |]);
    (destruct (negb (Py.truthy _) || negb (Py.truthy _)); [apply IH|]);
    (destruct (result (Pdf.generate_card E cfg _ _ _)) as [[|]|e];
       [apply IH|apply IH|discriminate]).
Qed.

Lemma generate_card_no_qr_path (E : Pdf.env) cfg name img out :
  cfg !! "qr_code_path" = None ->
  Pdf.valid_image E (Pdf.base_dir E img) = true ->
  Pdf.generate_card E cfg name img out = (Raise (KeyError "qr_code_path"), []).
Proof.
  intros Hnone Hvalid. unfold Pdf.generate_card. rewrite Hvalid. cbn [negb].
  unfold Cfg.str, Cfg.str_at, Cfg.item. rewrite Hnone. reflexivity.
Qed.

Lemma generate_card_bad_photo (E : Pdf.env) cfg name img out :
  Pdf.valid_image E (Pdf.base_dir E img) = false ->
  Pdf.generate_card E cfg name img out = (Ok false, []).
Proof. intros Hbad. unfold Pdf.generate_card. rewrite Hbad. reflexivity. Qed.

Lemma cards_loop_no_qr_path (E : Pdf.env) cfg dir (data : list (gmap string (option string))) :
  cfg !! "qr_code_path" = None ->
  Forall complete_row data -> Exists (usable_row E) data ->
  forall s f w,
    Pdf.cards_loop E cfg dir data s f w = Uncaught (KeyError "qr_code_path").
Proof.
  intros Hnone Hrows Hex. induction data as [|row data IH]; intros s f w.
  - inversion Hex.
  - inversion Hrows as [|? ? Hrow Hrest]; subst.
    destruct (complete_row_fields row Hrow) as (n & i & Hn & Hi).
    cbn [Pdf.cards_loop]. rewrite Hn, Hi.
    destruct (Pdf.valid_image E (Pdf.base_dir E i)) eqn:Hvalid.
    + destruct (negb (Py.truthy n) || negb (Py.truthy i)) eqn:Hskip.
      * apply IH; [exact Hrest|].
        inversion Hex as [? ? Hu|? ? Hu]; subst; [|exact Hu].
        destruct Hu as (n' & i' & Hn' & Hi' & Tn & Ti & _).
        rewrite Hn in Hn'. rewrite Hi in Hi'. inversion Hn'; inversion Hi'; subst.
        rewrite Tn, Ti in Hskip. discriminate.
      * rewrite generate_card_no_qr_path by assumption. reflexivity.
    + assert (Hex' : Exists (usable_row E) data).
      { inversion Hex as [? ? Hu|? ? Hu]; subst; [|exact Hu].
        destruct Hu as (n' & i' & Hn' & Hi' & _ & _ & Hv).
        rewrite Hi in Hi'. inversion Hi'; subst. congruence. }
      destruct (negb (Py.truthy n) || negb (Py.truthy i)); [now apply IH|].
      rewrite generate_card_bad_photo by assumption. now apply IH.
Qed.

(** X10.  [qr_code_path] is read outside the [try] block of
    [generate_card].  When the key is missing, the call raises [KeyError]
    for every record with a readable photo, having drawn nothing; and a run
    over complete rows of which one at least has a name, an image and a
    readable photo ends with that exception uncaught and exit status 1,
    where any other missing key only fails the card. *)
Theorem missing_qr_path_aborts_run (E : Pdf.env) (argv : list string)
    (cfg : gmap string pyval) (dir csv : string)
    (data : list (gmap string (option string))) :
  Pdf.load_json E (Pdf.config_file argv) = Loaded cfg ->
  cfg !! "qr_code_path" = None ->
  cfg !! "output_directory" = Some (VStr dir) ->
  cfg !! "input_csv" = Some (VStr csv) ->
  Pdf.read_csv E (Pdf.base_dir E csv) = Some data ->
  Forall complete_row data ->
  Exists (usable_row E) data ->
  Pdf.main E argv = Uncaught (KeyError "qr_code_path") /\
  exit_status (Pdf.main E argv) = 1 /\
  (forall person_name person_image output_path,
     Pdf.valid_image E (Pdf.base_dir E person_image) = true ->
     Pdf.generate_card E cfg person_name person_image output_path
     = (Raise (KeyError "qr_code_path"), [])).
Proof.
  intros Hload Hnone Hdir Hcsv Hread Hrows Hex.
  assert (Hmain : Pdf.main E argv = Uncaught (KeyError "qr_code_path")).
  { unfold Pdf.main. rewrite Hload. unfold Pdf.generate_all_cards.
    rewrite Hdir, Hcsv, Hread.
    now rewrite (cards_loop_no_qr_path E cfg (Pdf.base_dir E dir) data Hnone Hrows Hex). }
  split; [exact Hmain|]. split; [now rewrite Hmain|].
  intros n i out Hv. now apply generate_card_no_qr_path.
Qed.

Lemma sample_rows_complete : Forall complete_row Sample.people.
Proof. repeat constructor; vm_compute; discriminate. Qed.

Lemma missing_qr_path_aborts_run_witness :
  let cfg := delete "qr_code_path" Sample.cfg in
  Pdf.main (Sample.pdf_env cfg Sample.people (200, 100)) ["generate_cards.py"]
  = Uncaught (KeyError "qr_code_path").
Proof.
  intros cfg.
  apply (missing_qr_path_aborts_run (Sample.pdf_env cfg Sample.people (200, 100))
           ["generate_cards.py"] cfg "out" "people.csv" Sample.people
           ltac:(reflexivity) ltac:(reflexivity) ltac:(reflexivity) ltac:(reflexivity)
           ltac:(reflexivity) sample_rows_complete).
  apply Exists_cons_hd. exists "Ann Lee", "ann.png". repeat split.
Defined.

(** X11.  A row in which [csv.DictReader] has left [name] or [image] at
    [None], as for a line with too few fields, raises [AttributeError] at
    [.strip()].  A run whose earlier rows are complete ends there, with the
    exception uncaught and exit status 1, whatever rows follow. *)
Theorem short_row_aborts_run (E : Pdf.env) (argv : list string)
    (cfg : gmap string pyval) (qr dir csv : string)
    (before after : list (gmap string (option string)))
    (row : gmap string (option string)) :
  Pdf.load_json E (Pdf.config_file argv) = Loaded cfg ->
  Cfg.str_at cfg "qr_code_path" = Ok qr ->
  cfg !! "output_directory" = Some (VStr dir) ->
  cfg !! "input_csv" = Some (VStr csv) ->
  Pdf.read_csv E (Pdf.base_dir E csv) = Some (before ++ row :: after) ->
  Forall complete_row before ->
  short_row row ->
  Pdf.main E argv = Uncaught AttributeError /\
  exit_status (Pdf.main E argv) = 1.
Proof.
  intros Hload Hqr Hdir Hcsv Hread Hrows Hshort.
  assert (Hmain : Pdf.main E argv = Uncaught AttributeError).
  { unfold Pdf.main. rewrite Hload. unfold Pdf.generate_all_cards.
    rewrite Hdir, Hcsv, Hread, cards_loop_app.
    destruct (cards_loop_counts E cfg qr (Pdf.base_dir E dir) Hqr before 0 0 [] Hrows)
      as (s & f & w & -> & _).
    now rewrite short_row_raises. }
  split; [exact Hmain|]. now rewrite Hmain.
Qed.

Lemma short_row_aborts_run_witness :
  let rows := [Sample.person "Ann Lee" "ann.png"; short_person "Bo";
               Sample.person "Cy" "cy.png"] in
  Pdf.main (Sample.pdf_env Sample.cfg rows (200, 100)) ["generate_cards.py"]
  = Uncaught AttributeError.
Proof.
  intros rows.
  apply (short_row_aborts_run (Sample.pdf_env Sample.cfg rows (200, 100))
           ["generate_cards.py"] Sample.cfg "qr.png" "out" "people.csv"
           [Sample.person "Ann Lee" "ann.png"] [Sample.person "Cy" "cy.png"]
           (short_person "Bo")
           ltac:(reflexivity) ltac:(reflexivity) ltac:(reflexivity) ltac:(reflexivity)
           ltac:(reflexivity)).
  - repeat constructor; vm_compute; discriminate.
  - right. reflexivity.
Defined.

Lemma cards_loop_written (E : Pdf.env) cfg dir (all data : list (gmap string (option string))) :
  (forall row, In row data -> In row all) ->
  forall s f w s' f' w',
    Forall (written_for E cfg dir all) w ->
    Pdf.cards_loop E cfg dir data s f w = Returned (s', f', w') ->
    Forall (written_for E cfg dir all) w'.
Proof.
  induction data as [|row data IH]; intros Hall s f w s' f' w' Hw Hrun.
  - cbn in Hrun. inversion Hrun; subst. exact Hw.
  - cbn [Pdf.cards_loop] in Hrun.
    assert (Hrest : forall r, In r data -> In r all) by (intros; apply Hall; now right).
    destruct (row_field row "name") as [n| |] eqn:Hn; [|discriminate|discriminate].
    destruct (row_field row "image") as [i| |] eqn:Hi; [|discriminate|discriminate].
    destruct (negb (Py.truthy n) || negb (Py.truthy i)) eqn:Hskip;
      [exact (IH Hrest _ _ _ _ _ _ Hw Hrun)|].
    apply orb_false_iff in Hskip as [Tn Ti].
    apply negb_false_iff in Tn. apply negb_false_iff in Ti.
    destruct (result (Pdf.generate_card E cfg n i _)) as [[|]|e] eqn:Hcard;
      [|exact (IH Hrest _ _ _ _ _ _ Hw Hrun)|discriminate].
    refine (IH Hrest _ _ _ _ _ _ _ Hrun).
    apply Forall_app. split; [exact Hw|]. constructor; [|constructor].
    exists row, n, i. split; [apply Hall; now left|].
    repeat (split; [assumption|]).
    split; [|split; [reflexivity|exact Hcard]].
    destruct (Pdf.valid_image E (Pdf.base_dir E i)) eqn:Hv; [reflexivity|].
    rewrite generate_card_bad_photo in Hcard by assumption. discriminate.
Qed.

(** X12.  When [generate_all_cards] returns, every file written belongs
    to a row of the CSV file whose name and image are not empty once
    stripped and whose photo is valid, and for which [generate_card]
    returned [True].  Its path is the output directory, a slash, the
    sanitised name and [.pdf]; the sanitised name is not empty and holds no
    slash, so the file lies in the output directory itself. *)
Theorem files_written_for_rows (E : Pdf.env) (cfg : gmap string pyval) (dir csv : string)
    (data : list (gmap string (option string))) (r : report) :
  cfg !! "output_directory" = Some (VStr dir) ->
  cfg !! "input_csv" = Some (VStr csv) ->
  Pdf.read_csv E (Pdf.base_dir E csv) = Some data ->
  Pdf.generate_all_cards E cfg = Returned r ->
  Forall (written_for E cfg (Pdf.base_dir E dir) data) (written r) /\
  Forall (fun p => exists stem,
            p = Pdf.base_dir E dir +:+ "/" +:+ stem +:+ ".pdf" /\
            ~ In "/"%char (chars stem) /\ stem <> "") (written r).
Proof.
  intros Hdir Hcsv Hread Hrun. unfold Pdf.generate_all_cards in Hrun.
  rewrite Hdir, Hcsv, Hread in Hrun.
  destruct (Pdf.cards_loop E cfg (Pdf.base_dir E dir) data 0 0 []) as [[[s f] w]| |] eqn:Hloop;
    [|discriminate|discriminate].
  inversion Hrun; subst. cbn [written].
  assert (H : Forall (written_for E cfg (Pdf.base_dir E dir) data) w).
  { eapply cards_loop_written; [|constructor|exact Hloop]. auto. }
  split; [exact H|].
  eapply Forall_impl; [exact H|].
  intros p (row & n & i & _ & Hn & _ & Tn & _ & _ & -> & _).
  exists (Text._sanitize_filename n). split; [reflexivity|].
  pose proof (sanitize_chars n) as Hchars.
  split; [apply has_no; [reflexivity|exact Hchars]|].
  destruct (row_field_stripped row "name" n Hn) as [raw ->].
  intros Hempty.
  assert (Hlen : Py.len (Text._sanitize_filename (Py.strip raw)) = Py.len (Py.strip raw)).
  { apply len_sanitize_stripped; unfold Py.strip.
    - apply rstrip_head, lstrip_head.
    - apply rstrip_last. }
  rewrite Hempty in Hlen. apply truthy_len in Tn. simpl in Hlen. lia.
Qed.

Lemma files_written_for_rows_witness :
  Forall (fun p => exists stem,
            p = "/app/out" +:+ "/" +:+ stem +:+ ".pdf" /\
            ~ In "/"%char (chars stem) /\ stem <> "")
    ["/app/out/ann_lee.pdf"].
Proof.
  apply (files_written_for_rows (Sample.pdf_env Sample.cfg Sample.people (200, 100))
           Sample.cfg "out" "people.csv" Sample.people
           {| total := 2; success_count := 1; fail_count := 1;
              written := ["/app/out/ann_lee.pdf"] |}
           ltac:(reflexivity) ltac:(reflexivity) ltac:(reflexivity) ltac:(reflexivity)).
Defined.

(** The process ends with [sys.exit] only from [_load_config] and
    [_read_csv_data], and then with status 1. *)
Lemma main_exit (E : Pdf.env) (argv : list string) (code : Z) :
  Pdf.main E argv = SysExit code ->
  code = 1 /\
  (Pdf.load_json E (Pdf.config_file argv) = FileNotFoundError \/
   Pdf.load_json E (Pdf.config_file argv) = JSONDecodeError \/
   exists cfg csv,
     Pdf.load_json E (Pdf.config_file argv) = Loaded cfg /\
     cfg !! "input_csv" = Some (VStr csv) /\
     Pdf.read_csv E (Pdf.base_dir E csv) = None).
Proof.
  unfold Pdf.main.
  destruct (Pdf.load_json E (Pdf.config_file argv)) as [cfg| |] eqn:Hload.
  - unfold Pdf.generate_all_cards.
    destruct (cfg !! "output_directory") as [[| |dir|]|]; try discriminate.
    destruct (cfg !! "input_csv") as [[| |csv|]|] eqn:Hcsv; try discriminate.
    destruct (Pdf.read_csv E (Pdf.base_dir E csv)) as [data|] eqn:Hread.
    + destruct (Pdf.cards_loop E cfg (Pdf.base_dir E dir) data 0 0 [])
        as [[[s f] w]| |c] eqn:Hloop; try discriminate.
      exfalso. exact (cards_loop_no_exit E cfg _ data 0 0 [] c Hloop).
    + intros H. inversion H. split; [reflexivity|]. right. right. eauto.
  - intros H. inversion H. auto.
  - intros H. inversion H. auto.
Qed.

(** X13.  The exit status of a run of [generate_cards.py] is 0 or 1.
    [sys.exit] is reached only with status 1, and only from [_load_config]
    (the configuration file is missing or is not valid JSON) or from
    [_read_csv_data] (there is no CSV file): no card ends the process.  The
    status is 0 exactly when [main] returns. *)
Theorem run_exit_status (E : Pdf.env) (argv : list string) :
  (exit_status (Pdf.main E argv) = 0 \/ exit_status (Pdf.main E argv) = 1) /\
  (forall code, Pdf.main E argv = SysExit code ->
     code = 1 /\
     (Pdf.load_json E (Pdf.config_file argv) = FileNotFoundError \/
      Pdf.load_json E (Pdf.config_file argv) = JSONDecodeError \/
      exists cfg csv,
        Pdf.load_json E (Pdf.config_file argv) = Loaded cfg /\
        cfg !! "input_csv" = Some (VStr csv) /\
        Pdf.read_csv E (Pdf.base_dir E csv) = None)) /\
  (Pdf.load_json E (Pdf.config_file argv) = FileNotFoundError \/
   Pdf.load_json E (Pdf.config_file argv) = JSONDecodeError ->
   Pdf.main E argv = SysExit 1) /\
  (exit_status (Pdf.main E argv) = 0 <-> exists r, Pdf.main E argv = Returned r).
Proof.
  split; [|split; [|split]].
  - destruct (Pdf.main E argv) as [r|e|code] eqn:Hmain; cbn; auto.
    destruct (main_exit E argv code Hmain) as [-> _]. auto.
  - intros code. apply main_exit.
  - unfold Pdf.main. intros [-> | ->]; reflexivity.
  - destruct (Pdf.main E argv) as [r|e|code] eqn:Hmain; cbn.
    + split; eauto.
    + split; [discriminate|intros [r Hr]; discriminate].
    + destruct (main_exit E argv code Hmain) as [-> _].
      split; [discriminate|intros [r Hr]; discriminate].
Qed.

(** ** Symmetry of the page *)

Section Symmetry.
Local Open Scope Q_scope.

Lemma pdf_image_centred_run E p x y w h mw mh u t :
  Pdf._draw_centered_image E p x y w h mw mh = (Ok u, t) ->
  exists x' w' h', t = [Pdf.drawImage p x' y w' h'] /\ x' + w' / 2 == x + w / 2.
Proof.
  unfold Pdf._draw_centered_image, Pdf.fill_placement.
  destruct (Pdf.image_size E p) as [iw ih]. intros Hr.
  unfold Pdf.div in Hr.
  destruct (Qeq_bool (inject_Z ih) 0); [discriminate|].
  destruct (Qeq_bool (inject_Z iw) 0); [discriminate|].
  cbn in Hr. inversion Hr. do 3 eexists. split; [reflexivity|]. field.
Qed.

End Symmetry.

Lemma png_image_centred_run G p x y w h u t :
  Png._paste_centered_image G p x y w h = (Ok u, t) ->
  exists w' h' x', t = [Png.paste p w' h' x' y] /\ 0 <= (2 * x + w) - (2 * x' + w') <= 1.
Proof.
  unfold Png._paste_centered_image, Png.fill_placement.
  destruct (Png.image_size G p) as [iw ih]. intros Hr.
  unfold Png.div in Hr.
  destruct (ih =? 0); [discriminate|].
  destruct (iw =? 0); [discriminate|].
  cbn in Hr. inversion Hr. do 3 eexists. split; [reflexivity|].
  match goal with
  | |- context [(w - ?fw) / 2] =>
      pose proof (Z.div_mod (w - fw) 2 ltac:(lia));
      pose proof (Z.mod_pos_bound (w - fw) 2 ltac:(lia))
  end. lia.
Qed.

Ltac centred_facts :=
  repeat match goal with
  | R : Pdf._draw_centered_text _ _ _ _ _ _ _ _ _ _ _ _ = _ |- _ =>
      apply pdf_text_silent in R
  | R : Pdf.draw_borders _ _ _ _ _ = _ |- _ => apply pdf_borders_silent in R
  | R : Pdf._draw_wrapped_text _ _ _ _ _ _ _ _ = _ |- _ => apply pdf_wrapped_silent in R
  | R : Pdf._draw_centered_image _ _ _ _ _ _ _ _ = _ |- _ =>
      apply pdf_image_centred_run in R as (? & ? & ? & -> & ?)
  | R : Png._draw_centered_text _ _ _ _ _ _ _ _ _ _ _ _ = _ |- _ =>
      apply png_text_silent in R
  | R : Png.draw_borders _ _ _ _ _ _ _ = _ |- _ => apply png_borders_silent in R
  | R : Png._draw_wrapped_text _ _ _ _ _ _ _ _ = _ |- _ => apply png_wrapped_silent in R
  | R : Png._paste_centered_image _ _ _ _ _ _ = _ |- _ =>
      apply png_image_centred_run in R as (? & ? & ? & -> & ?)
  end.

Ltac open_bottom_box :=
  match goal with
  | B : Pdf.when ?b _ = _ |- _ => unfold Pdf.when in B; destruct b
  | B : Png.when ?b _ = _ |- _ => unfold Png.when in B; destruct b
  end.

(** X14.  On a vector card that succeeds, every filled rectangle (the
    page, the name box, the QR section, the message box, the bottom box)
    and both images (the photo and the QR code) are centred horizontally on
    the page: [x + width / 2 = page_width / 2]. *)
Theorem vector_card_is_symmetric (E : Pdf.env) (cfg : gmap string pyval)
    (person_name person_image output_path : string) (page_width page_height : Q)
    (t : list Pdf.op) :
  Cfg.num_at cfg "page_width_pt" = Ok page_width ->
  Pdf.generate_card E cfg person_name person_image output_path = (Ok true, t) ->
  Forall (pdf_middle page_width) (pdf_boxes page_height t) /\
  Forall (pdf_middle page_width) (map snd (pdf_images page_height t)).
Proof.
  intros Hpage Hv.
  apply pdf_card_true in Hv as [qr Hv].
  unfold Pdf.card_body in Hv. cbv beta zeta in Hv.
  run_inv. same_reads. centred_facts. open_bottom_box.
  all: run_inv; same_reads.
  all: rewrite !pdf_boxes_app, !pdf_images_app.
  all: forget_empty.
  all: cbn [pdf_boxes pdf_images flat_map pdf_box pdf_image app map snd].
  all: split; repeat (apply List.Forall_cons); try apply List.Forall_nil.
  all: unfold pdf_middle; try field.
  all: match goal with H : (_ == _)%Q |- _ => rewrite H; field end.
Qed.

Lemma vector_card_is_symmetric_witness :
  exists t,
    Pdf.generate_card (Sample.pdf_env Sample.cfg Sample.people (200, 100)) Sample.cfg
      "Ann Lee" "ann.png" "/app/out/ann_lee.pdf" = (Ok true, t) /\
    Forall (pdf_middle 216) (pdf_boxes 504 t).
Proof.
  eexists. split; [reflexivity|].
  apply (vector_card_is_symmetric (Sample.pdf_env Sample.cfg Sample.people (200, 100))
           Sample.cfg "Ann Lee" "ann.png" "/app/out/ann_lee.pdf" 216 504);
    reflexivity.
Defined.

(** X15.  On a raster card that succeeds, the image and every box filled
    in white are symmetric about the middle of the page to the pixel,
    [2 * x + width = page_width], and each pasted image is so within one
    pixel. *)
Theorem raster_card_is_symmetric (G : Png.env) (scale_factor : Z) (cfg : gmap string pyval)
    (person_name person_image output_path : string) (page_width_pt : Q)
    (t : list Png.op) :
  Cfg.num_at cfg "page_width_pt" = Ok page_width_pt ->
  Png.generate_card G scale_factor cfg person_name person_image output_path = (Ok true, t) ->
  let page_width := Png.scale scale_factor page_width_pt in
  Forall (png_middle page_width) (png_boxes t) /\
  Forall (png_near_middle page_width) (map snd (png_images t)).
Proof.
  intros Hpage Hr.
  apply png_card_true in Hr as [qr Hr].
  unfold Png.card_body in Hr. cbv beta zeta in Hr.
  run_inv. same_reads. centred_facts. open_bottom_box.
  all: run_inv; same_reads.
  all: rewrite !png_boxes_app, !png_images_app.
  all: forget_empty.
  all: cbn [png_boxes png_images flat_map png_box png_image app map snd].
  all: split; repeat (apply List.Forall_cons); try apply List.Forall_nil.
  all: unfold png_middle, png_near_middle; try lia.
  all: match goal with
       | |- context [(?a - ?b) / 2] =>
           pose proof (Z.div_mod (a - b) 2 ltac:(lia));
           pose proof (Z.mod_pos_bound (a - b) 2 ltac:(lia)); lia
       end.
Qed.

Lemma raster_card_is_symmetric_witness :
  exists t,
    Png.generate_card (Sample.png_env Sample.cfg (200, 100)) 4 Sample.cfg
      "Ann Lee" "ann.png" "/app/out/ann_lee.png" = (Ok true, t) /\
    Forall (png_middle 864) (png_boxes t).
Proof.
  eexists. split; [reflexivity|].
  apply (raster_card_is_symmetric (Sample.png_env Sample.cfg (200, 100)) 4
           Sample.cfg "Ann Lee" "ann.png" "/app/out/ann_lee.png" 216);
    reflexivity.
Defined.

(** ** The raster card from creation to saving *)

Lemma png_ews_bind {A} out (m : M Png.op A) (f : A -> M Png.op bool) :
  only png_no_save A m -> (forall a, png_ends_with_save out (f a)) ->
  png_ends_with_save out (bind m f).
Proof.
  unfold png_ends_with_save, only. intros Hm Hf.
  rewrite result_bind, trace_bind.
  destruct (result m) as [a|e]; [|exact Hm].
  specialize (Hf a). destruct (result (f a)) as [[|]|e'].
  - destruct Hf as (t & -> & Ht). exists (trace m ++ t).
    split; [apply app_assoc|]. apply Forall_app. auto.
  - apply Forall_app. auto.
  - apply Forall_app. auto.
Qed.

Lemma png_ews_final out :
  png_ends_with_save out (bind (call (Png.save out)) (fun _ => ret true)).
Proof. exists []. split; [reflexivity|constructor]. Qed.

Lemma png_only_tier (P : Png.op -> Prop) cfg name :
  only P (Z * Q * Q * bool) (Png.name_tier cfg name).
Proof. rewrite png_tier_of. apply only_lift. Qed.

Lemma png_only_canvas (P : Png.op -> Prop) w h bg :
  (forall background, P (Png.new_image w h background)) ->
  only P unit (Png.new_canvas w h bg).
Proof.
  intros HP. unfold Png.new_canvas. cbv zeta.
  apply only_if; [apply only_call, HP|].
  apply only_bind; [apply png_only_hex|intros _; apply only_call, HP].
Qed.

Ltac png_quiet :=
  first
    [ apply only_lift
    | apply only_call; reflexivity
    | apply png_only_canvas; intros; reflexivity
    | apply png_only_image; intros; reflexivity
    | apply png_only_text; intros; reflexivity
    | apply png_only_wrapped; intros; reflexivity
    | apply png_only_borders; intros; reflexivity
    | apply png_only_tier
    | apply png_only_when; apply only_bind; [apply only_lift|intros ?];
      apply only_call; reflexivity ].

(** The [try] block of the raster [generate_card] saves only as its last
    call. *)
Lemma png_body_ends_with_save G s cfg name img qr out :
  png_ends_with_save out (Png.card_body G s cfg name img qr out).
Proof.
  unfold Png.card_body.
  repeat (cbv beta zeta;
    first [ apply png_ews_final
          | apply png_ews_bind; [ png_quiet | intros ? ]
          | match goal with
            | |- png_ends_with_save _ (match ?x with _ => _ end) => destruct x
            end ]).
Qed.

Lemma png_generate_card_split G s cfg name img out :
  (exists e, Png.generate_card G s cfg name img out = (Raise e, [])) \/
  Png.generate_card G s cfg name img out = (Ok false, []) \/
  exists qr,
    let body := Png.card_body G s cfg name (Png.base_dir G img) (Png.base_dir G qr) out in
    trace (Png.generate_card G s cfg name img out) = trace body /\
    result (Png.generate_card G s cfg name img out) =
      match result body with Ok b => Ok b | Raise _ => Ok false end.
Proof.
  unfold Png.generate_card.
  destruct (negb (Png.valid_image G (Png.base_dir G img))); [right; left; reflexivity|].
  unfold Cfg.str. destruct (Cfg.str_at cfg "qr_code_path") as [qr|e]; [|left; eauto].
  cbn [bind lift].
  destruct (negb (Png.valid_image G (Png.base_dir G qr))); [right; left; reflexivity|].
  right. right. exists qr. unfold try_except.
  destruct (Png.card_body G s cfg name (Png.base_dir G img) (Png.base_dir G qr) out)
    as [[b|e] t]; cbn; rewrite ?app_nil_r; split; reflexivity.
Qed.

Lemma png_generate_card_ends_with_save G s cfg name img out :
  png_ends_with_save out (Png.generate_card G s cfg name img out).
Proof.
  destruct (png_generate_card_split G s cfg name img out) as [[e ->]|[->|(qr & Ht & Hr)]].
  - constructor.
  - constructor.
  - cbv zeta in Ht, Hr.
    pose proof (png_body_ends_with_save G s cfg name (Png.base_dir G img)
                  (Png.base_dir G qr) out) as H.
    unfold png_ends_with_save in *. rewrite Hr, Ht.
    destruct (result (Png.card_body G s cfg name (Png.base_dir G img) (Png.base_dir G qr) out))
      as [[|]|e]; exact H.
Qed.

Lemma png_text_rest G z x y w h fs bold pad multi ml thr r t :
  Png._draw_centered_text G z x y w h fs bold pad multi ml thr = (r, t) ->
  Forall png_no_new_image t.
Proof. apply only_trace, png_only_text; intros; reflexivity. Qed.

Lemma png_borders_rest sides color x y w h bw r t :
  Png.draw_borders sides color x y w h bw = (r, t) -> Forall png_no_new_image t.
Proof. apply only_trace, png_only_borders; intros; reflexivity. Qed.

Lemma png_wrapped_rest G z x y w h fs pad r t :
  Png._draw_wrapped_text G z x y w h fs pad = (r, t) -> Forall png_no_new_image t.
Proof. apply only_trace, png_only_wrapped; intros; reflexivity. Qed.

Ltac rest_facts :=
  repeat match goal with
  | R : Png._draw_centered_text _ _ _ _ _ _ _ _ _ _ _ _ = _ |- _ =>
      apply png_text_rest in R
  | R : Png.draw_borders _ _ _ _ _ _ _ = _ |- _ => apply png_borders_rest in R
  | R : Png._draw_wrapped_text _ _ _ _ _ _ _ _ = _ |- _ => apply png_wrapped_rest in R
  | R : Png._paste_centered_image _ _ _ _ _ _ = _ |- _ =>
      apply png_image_run in R as (? & ? & ? & ->)
  end.

(** A raster card that succeeds starts by creating the image, of the
    scaled page size and with the configured background. *)
Lemma png_card_starts G s cfg name img out t :
  Png.generate_card G s cfg name img out = (Ok true, t) ->
  exists page_width_pt page_height_pt bg_color_str rest,
    Cfg.num_at cfg "page_width_pt" = Ok page_width_pt /\
    Cfg.num_at cfg "page_height_pt" = Ok page_height_pt /\
    Cfg.str_or cfg "background_color" "#8DC5FE" = Ok bg_color_str /\
    t = Png.new_image (Png.scale s page_width_pt) (Png.scale s page_height_pt)
          (png_background bg_color_str) :: rest /\
    Forall png_no_new_image rest.
Proof.
  intros Hr. apply png_card_true in Hr as [qr Hr].
  unfold Png.card_body in Hr. cbv beta zeta in Hr.
  run_inv. rest_facts. open_bottom_box.
  all: run_inv.
  all: do 4 eexists.
  all: split; [eassumption|]; split; [eassumption|]; split; [eassumption|].
  all: cbn [app]; split; [reflexivity|].
  all: repeat first [ apply List.Forall_nil
                    | apply List.Forall_cons; [reflexivity|]
                    | apply Forall_app_2; [assumption|] ].
Qed.

Lemma png_paints_iff (o : Png.op) :
  png_no_save o -> png_no_new_image o -> Png.paints o = true.
Proof. unfold png_no_save, png_no_new_image. destruct o; cbn; intros; congruence. Qed.

(** X16.  A raster card that returns [True] has created the image first,
    then only pasted images, filled rectangles and written text, and has
    saved to [output_path] as its very last call.  A card that does not
    return [True] has not saved at all. *)
Theorem raster_card_saves_last (G : Png.env) (scale_factor : Z) (cfg : gmap string pyval)
    (person_name person_image output_path : string) :
  let card := Png.generate_card G scale_factor cfg person_name person_image output_path in
  (result card = Ok true ->
   exists width height background drawn,
     trace card = Png.new_image width height background :: drawn
                  ++ [Png.save output_path] /\
     Forall (fun o => Png.paints o = true) drawn) /\
  (result card <> Ok true -> Forall (fun o => png_is_save o = false) (trace card)).
Proof.
  intros card.
  pose proof (png_generate_card_ends_with_save G scale_factor cfg person_name person_image
                output_path) as Hend.
  fold card in Hend. unfold png_ends_with_save in Hend.
  split.
  - intros Hres. rewrite Hres in Hend. destruct Hend as (t' & Ht' & Hns).
    destruct (png_card_starts G scale_factor cfg person_name person_image output_path
                (trace card)) as (pw & ph & bg & rest & _ & _ & _ & Ht & Hnn).
    { fold card. destruct card as [r t]. cbn in *. now subst. }
    rewrite Ht in Ht'.
    destruct t' as [|o mid]; [inversion Ht'; subst; inversion Hnn as [|? ? Hbad]; discriminate|].
    cbn [app] in Ht'. inversion Ht'; subst o rest.
    exists (Png.scale scale_factor pw), (Png.scale scale_factor ph), (png_background bg), mid.
    split; [rewrite Ht; reflexivity|].
    apply Forall_app in Hnn as [Hmid _]. inversion Hns as [|? ? _ Hns']; subst.
    clear - Hmid Hns'. induction mid as [|o mid IH]; [constructor|].
    inversion Hmid; inversion Hns'; subst.
    constructor; [now apply png_paints_iff|now apply IH].
  - intros Hres. destruct (result card) as [[|]|e]; [congruence|exact Hend|exact Hend].
Qed.

(** ** The background colour *)

Lemma str_or_absent cfg key default :
  cfg !! key = None -> Cfg.str_or cfg key default = Ok default.
Proof. intros H. unfold Cfg.str_or, Cfg.get. now rewrite H. Qed.

Lemma str_or_present cfg key default value :
  cfg !! key = Some (VStr value) -> Cfg.str_or cfg key default = Ok value.
Proof. intros H. unfold Cfg.str_or, Cfg.get. now rewrite H. Qed.

(** X17.  [background_color] is required by the vector backend and
    optional for the raster one.  Without the key, the vector
    [generate_card] returns [False], and the raster one, when it succeeds,
    has created the image in the default colour [#8DC5FE].  With the key, a
    raster card that succeeds has a transparent image when the value is
    [transparent], [none] or the empty string in any letter case, and the
    configured colour otherwise. *)
Theorem background_colour_by_backend (E : Pdf.env) (G : Png.env) (scale_factor : Z)
    (cfg : gmap string pyval) (person_name person_image out_pdf out_png qr : string) :
  Cfg.str_at cfg "qr_code_path" = Ok qr ->
  let raster := Png.generate_card G scale_factor cfg person_name person_image out_png in
  (cfg !! "background_color" = None ->
   result (Pdf.generate_card E cfg person_name person_image out_pdf) = Ok false /\
   (result raster = Ok true ->
    exists width height rest,
      trace raster = Png.new_image width height (Some "#8DC5FE") :: rest)) /\
  (forall colour,
     cfg !! "background_color" = Some (VStr colour) ->
     result raster = Ok true ->
     exists width height rest,
       trace raster =
         Png.new_image width height
           (if Py.contains (Py.lower colour) ["transparent"; ""; "none"]
            then None else Some colour) :: rest).
Proof.
  intros Hqr raster.
  assert (Hstart : forall c, Cfg.str_or cfg "background_color" "#8DC5FE" = Ok c ->
            result raster = Ok true ->
            exists width height rest,
              trace raster = Png.new_image width height (png_background c) :: rest).
  { intros c Hc Hres.
    destruct (png_card_starts G scale_factor cfg person_name person_image out_png
                (trace raster)) as (pw & ph & bg & rest & _ & _ & Hbg & Ht & _).
    { fold raster. destruct raster as [r t]. cbn in *. now subst. }
    rewrite Hc in Hbg. inversion Hbg; subst bg. eauto. }
  split.
  - intros Hnone. split.
    + destruct (generate_card_split E cfg person_name person_image out_pdf qr Hqr)
        as [->|[_ Hr]]; [reflexivity|].
      rewrite Hr.
      destruct (body_fails E cfg person_name (Pdf.base_dir E person_image)
                  (Pdf.base_dir E qr) out_pdf "background_color"
                  ltac:(cbn; tauto) Hnone) as [e ->].
      reflexivity.
    + intros Hres.
      apply (Hstart "#8DC5FE"); [now apply str_or_absent|exact Hres].
  - intros colour Hc Hres.
    apply (Hstart colour); [now apply str_or_present|exact Hres].
Qed.

Lemma background_colour_by_backend_witness :
  let cfg := delete "background_color" Sample.cfg in
  result (Pdf.generate_card (Sample.pdf_env cfg Sample.people (200, 100)) cfg
            "Ann Lee" "ann.png" "/app/out/ann_lee.pdf") = Ok false /\
  exists width height rest,
    trace (Png.generate_card (Sample.png_env cfg (200, 100)) 4 cfg
             "Ann Lee" "ann.png" "/app/out/ann_lee.png")
    = Png.new_image width height (Some "#8DC5FE") :: rest.
Proof.
  intros cfg.
  destruct (background_colour_by_backend (Sample.pdf_env cfg Sample.people (200, 100))
              (Sample.png_env cfg (200, 100)) 4 cfg "Ann Lee" "ann.png"
              "/app/out/ann_lee.pdf" "/app/out/ann_lee.png" "qr.png" ltac:(reflexivity))
    as [Habsent _].
  destruct (Habsent ltac:(reflexivity)) as [Hv Hr].
  split; [exact Hv|]. apply Hr. reflexivity.
Defined.

(** ** The raster batch *)

Lemma png_generate_card_returns G s cfg name img out qr :
  Cfg.str_at cfg "qr_code_path" = Ok qr ->
  exists b, result (Png.generate_card G s cfg name img out) = Ok b.
Proof.
  intros Hqr. unfold Png.generate_card.
  destruct (negb (Png.valid_image G (Png.base_dir G img))); [eexists; reflexivity|].
  unfold Cfg.str. rewrite Hqr. cbn [bind lift].
  destruct (negb (Png.valid_image G (Png.base_dir G qr))); [eexists; reflexivity|].
  unfold try_except.
  destruct (Png.card_body G s cfg name (Png.base_dir G img) (Png.base_dir G qr) out)
    as [[b|e] t]; eexists; reflexivity.
Qed.

Lemma png_cards_loop_counts G scale cfg qr output_dir
    (all : list (gmap string (option string))) :
  Cfg.str_at cfg "qr_code_path" = Ok qr ->
  forall data success_count fail_count written,
    (forall row, In row data -> In row all) ->
    Forall complete_row data ->
    Forall (png_written_for G scale cfg output_dir all) written ->
    exists s f w,
      Png.cards_loop G scale cfg output_dir data success_count fail_count written
        = Returned (s, f, w) /\
      s + f = success_count + fail_count + Z.of_nat (length data) /\
      success_count <= s /\ fail_count <= f /\
      Z.of_nat (length w) = Z.of_nat (length written) + (s - success_count) /\
      Forall (png_written_for G scale cfg output_dir all) w.
Proof.
  intros Hqr. induction data as [|row rest IH]; intros s f w Hall Hrows Hw.
  - exists s, f, w. simpl. repeat split; try lia. exact Hw.
  - inversion Hrows as [|? ? Hrow Hrest]; subst.
    assert (Hin : forall r, In r rest -> In r all) by (intros; apply Hall; now right).
    destruct (complete_row_fields row Hrow) as (name & img & Hn & Hi).
    cbn [Png.cards_loop]. rewrite Hn, Hi.
    destruct (negb (Py.truthy name) || negb (Py.truthy img)) eqn:Hskip.
    + destruct (IH s (f + 1) w Hin Hrest Hw) as (s' & f' & w' & -> & H1 & H2 & H3 & H4 & H5).
      exists s', f', w'. cbn [length]. repeat split; try lia. exact H5.
    + apply orb_false_iff in Hskip as [Tn Ti].
      apply negb_false_iff in Tn. apply negb_false_iff in Ti.
      set (out := output_dir +:+ "/" +:+ Text._sanitize_filename name +:+ ".png").
      destruct (png_generate_card_returns G scale cfg name img out qr Hqr) as [[|] Hcard];
        rewrite Hcard.
      * destruct (IH (s + 1) f (w ++ [out]) Hin Hrest) as
          (s' & f' & w' & -> & H1 & H2 & H3 & H4 & H5).
        { apply Forall_app. split; [exact Hw|]. constructor; [|constructor].
          exists row, name, img. split; [apply Hall; now left|].
          repeat (split; [assumption|]). split; [reflexivity|exact Hcard]. }
        exists s', f', w'. rewrite length_app in H4. cbn [length] in *.
        repeat split; try lia. exact H5.
      * destruct (IH s (f + 1) w Hin Hrest Hw) as (s' & f' & w' & -> & H1 & H2 & H3 & H4 & H5).
        exists s', f', w'. cbn [length]. repeat split; try lia. exact H5.
Qed.

(** X18.  A run of [generate_png_cards.py] whose configuration loads and
    holds [qr_code_path], [output_directory] and [input_csv], over a CSV
    file with complete rows, processes every record at scale factor 4: the
    success and failure counts add up to the number of records, one file is
    written per success, each under the sanitised name of a row with the
    extension [.png], and the exit status is 0 whatever the failure
    count. *)
Theorem raster_batch_summary (G : Png.env) (argv : list string)
    (cfg : gmap string pyval) (qr dir csv : string)
    (data : list (gmap string (option string))) :
  Png.load_json G (Png.config_file argv) = Loaded cfg ->
  Cfg.str_at cfg "qr_code_path" = Ok qr ->
  cfg !! "output_directory" = Some (VStr dir) ->
  cfg !! "input_csv" = Some (VStr csv) ->
  Png.read_csv G (Png.base_dir G csv) = Some data ->
  Forall complete_row data ->
  exists r,
    Png.main G argv = Returned r /\
    total r = Z.of_nat (length data) /\
    success_count r + fail_count r = total r /\
    0 <= success_count r /\ 0 <= fail_count r /\
    Z.of_nat (length (written r)) = success_count r /\
    Forall (png_written_for G 4 cfg (Png.base_dir G dir) data) (written r) /\
    exit_status (Png.main G argv) = 0.
Proof.
  intros Hload Hqr Hdir Hcsv Hread Hrows.
  unfold Png.main. cbv zeta. rewrite Hload. unfold Png.generate_all_cards.
  rewrite Hdir, Hcsv, Hread.
  destruct (png_cards_loop_counts G 4 cfg qr (Png.base_dir G dir) data Hqr data 0 0 []
              ltac:(auto) Hrows ltac:(constructor))
    as (s & f & w & -> & H1 & H2 & H3 & H4 & H5).
  eexists. split; [reflexivity|]. cbn [total success_count fail_count written exit_status].
  simpl in H4. repeat split; try lia. exact H5.
Qed.

Lemma raster_batch_summary_witness :
  exists r,
    Png.main (png_batch_env Sample.cfg Sample.people) ["generate_png_cards.py"]
      = Returned r /\
    total r = 2 /\ success_count r + fail_count r = 2.
Proof.
  destruct (raster_batch_summary (png_batch_env Sample.cfg Sample.people)
              ["generate_png_cards.py"] Sample.cfg "qr.png" "out" "people.csv"
              Sample.people
              ltac:(reflexivity) ltac:(reflexivity) ltac:(reflexivity) ltac:(reflexivity)
              ltac:(reflexivity) sample_rows_complete)
    as (r & Hr & Ht & Hs & _).
  exists r. split; [exact Hr|]. split; [exact Ht|]. rewrite Hs. exact Ht.
Defined.

(** ** Fonts *)

Lemma first_font_step F p rest size :
  Png.first_font F (p :: rest) size =
  if usable F size p then Png.truetype p size else Png.first_font F rest size.
Proof.
  cbn [Png.first_font]. unfold usable.
  destruct (Png.path_exists F p); [|reflexivity].
  destruct (Png.truetype_loads F p size); reflexivity.
Qed.

Lemma first_font_spec F size (paths : list string) :
  (Png.first_font F paths size = Png.load_default /\
   Forall (fun p => usable F size p = false) paths) \/
  (exists before p after,
     paths = before ++ p :: after /\
     Forall (fun q => usable F size q = false) before /\
     usable F size p = true /\
     Png.first_font F paths size = Png.truetype p size).
Proof.
  induction paths as [|p rest IH].
  - left. split; [reflexivity|constructor].
  - rewrite first_font_step. destruct (usable F size p) eqn:Hp.
    + right. exists [], p, rest. repeat split; try reflexivity; [constructor|exact Hp].
    + destruct IH as [[Hd Hall]|(before & q & after & -> & Hb & Hq & Hf)].
      * left. split; [exact Hd|]. constructor; assumption.
      * right. exists (p :: before), q, after.
        split; [reflexivity|]. split; [constructor; assumption|]. split; assumption.
Qed.

(** X19.  [_get_font] returns the first of its three candidate files
    that exists and loads at the size asked for, and the default font
    exactly when none does.  When neither Liberation Sans nor DejaVu Sans is
    usable, in either weight, a bold and a regular request return the same
    font: the bold is silently lost. *)
Theorem get_font_falls_back (F : Png.font_files) (size : Z) (bold : bool) :
  let found := Png._get_font F size bold in
  (found = Png.load_default <->
   Forall (fun p => usable F size p = false) (Png.font_paths bold)) /\
  (forall p s, found = Png.truetype p s ->
     s = size /\
     exists before after,
       Png.font_paths bold = before ++ p :: after /\
       Forall (fun q => usable F size q = false) before /\
       usable F size p = true) /\
  (Forall (fun p => usable F size p = false) (take 2 (Png.font_paths true)) ->
   Forall (fun p => usable F size p = false) (take 2 (Png.font_paths false)) ->
   Png._get_font F size true = Png._get_font F size false).
Proof.
  intros found. unfold found, Png._get_font.
  split; [|split].
  - destruct (first_font_spec F size (Png.font_paths bold))
      as [[Hd Hall]|(before & p & after & Hp & Hb & Hu & Hf)].
    + rewrite Hd. split; auto.
    + rewrite Hf. split; [discriminate|].
      intros Hall. rewrite Hp in Hall. apply Forall_app in Hall as [_ Hall].
      inversion Hall; subst. congruence.
  - intros p s Hfound.
    destruct (first_font_spec F size (Png.font_paths bold))
      as [[Hd Hall]|(before & q & after & Hp & Hb & Hu & Hf)].
    + rewrite Hd in Hfound. discriminate.
    + rewrite Hf in Hfound. inversion Hfound; subst. split; [reflexivity|eauto].
  - intros Ht Hf. cbn in Ht, Hf.
    inversion Ht as [|? ? Ht1 Ht']; subst. inversion Ht' as [|? ? Ht2 _]; subst.
    inversion Hf as [|? ? Hf1 Hf']; subst. inversion Hf' as [|? ? Hf2 _]; subst.
    unfold Png.font_paths. rewrite !first_font_step.
    cbn [Png.first_font]. rewrite Ht1, Ht2, Hf1, Hf2. reflexivity.
Qed.

(** ** Colours *)

Lemma component_listed (n : Z) : 0 <= n <= 255 -> In n components.
Proof.
  intros Hn. unfold components. rewrite <- (Z2Nat.id n) by lia.
  apply in_map, in_seq. lia.
Qed.

Lemma int16_hex2 (upper : bool) (n : Z) :
  0 <= n <= 255 -> Png.int16 (hex2 upper n) = Some n.
Proof.
  intros Hn.
  assert (H : forallb (fun n => match Png.int16 (hex2 upper n) with
                                | Some v => v =? n
                                | None => false
                                end) components = true).
  { destruct upper; vm_compute; reflexivity. }
  rewrite forallb_forall in H. specialize (H n (component_listed n Hn)).
  destruct (Png.int16 (hex2 upper n)) as [v|]; [|discriminate].
  apply Z.eqb_eq in H. now subst.
Qed.

Lemma hex2_head (upper : bool) (n : Z) :
  0 <= n <= 255 ->
  exists a b, hex2 upper n = String a (String b "") /\ Ascii.eqb a "#" = false.
Proof.
  intros Hn. unfold hex2. do 2 eexists. split; [reflexivity|].
  assert (H : forallb (fun n => negb (Ascii.eqb (hex_char upper (n / 16)) "#"))
                components = true).
  { destruct upper; vm_compute; reflexivity. }
  rewrite forallb_forall in H. specialize (H n (component_listed n Hn)).
  now apply negb_true_iff.
Qed.

Lemma lstrip_hashes (n : nat) (s : string) :
  Png.lstrip_hash (hashes n +:+ s) = Png.lstrip_hash s.
Proof.
  induction n as [|n IH]; [reflexivity|].
  cbn [hashes]. rewrite append_cons. cbn [Png.lstrip_hash]. exact IH.
Qed.

Lemma substring_short (n m : nat) (s : string) :
  (String.length s <= n)%nat -> substring n m s = "".
Proof.
  revert n. induction s as [|c s IH]; intros n Hn.
  - destruct n, m; reflexivity.
  - destruct n as [|n]; [simpl in Hn; lia|]. simpl. apply IH. simpl in Hn. lia.
Qed.

Lemma substring_none (s : string) : substring 0 0 s = "".
Proof. destruct s; reflexivity. Qed.

Lemma hex_digit_range (c : ascii) (x : Z) :
  Png.hex_digit c = Some x -> 0 <= x <= 15.
Proof.
  revert c x.
  assert (H : forall c, match Png.hex_digit c with
                        | Some x => (0 <=? x) && (x <=? 15)
                        | None => true
                        end = true).
  { apply every_ascii. vm_compute. reflexivity. }
  intros c x Hc. specialize (H c). rewrite Hc in H.
  apply andb_prop in H as [H1 H2]. apply Z.leb_le in H1. apply Z.leb_le in H2. lia.
Qed.

Lemma int16_range (s : string) (v : Z) : Png.int16 s = Some v -> -15 <= v <= 255.
Proof.
  unfold Png.int16.
  destruct s as [|a [|b [|c s]]]; try discriminate.
  - intros H. apply hex_digit_range in H. lia.
  - destruct (Png.hex_digit a) as [x|] eqn:Ha; destruct (Png.hex_digit b) as [y|] eqn:Hb;
      try discriminate;
      try (apply hex_digit_range in Ha); try (apply hex_digit_range in Hb).
    + intros H. inversion H. lia.
    + destruct (Png.int_space b); [|discriminate]. intros H. inversion H. lia.
    + destruct (Png.int_space a || Ascii.eqb a "+").
      * intros H. inversion H. lia.
      * destruct (Ascii.eqb a "-"); [|discriminate]. intros H. inversion H. lia.
Qed.

(** X20.  [_hex_to_rgb] reads back the three components of a colour
    written with two hexadecimal digits each, in upper or in lower case.
    Any number of leading [#] is skipped, and whatever follows the sixth
    digit (an alpha channel, say) is ignored. *)
Theorem hex_to_rgb_reads_six_digits (upper : bool) (r g b : Z) (n : nat) (rest : string) :
  0 <= r <= 255 -> 0 <= g <= 255 -> 0 <= b <= 255 ->
  Png._hex_to_rgb (hashes n +:+ hex2 upper r +:+ hex2 upper g +:+ hex2 upper b +:+ rest)
  = Some (r, g, b).
Proof.
  intros Hr Hg Hb. unfold Png._hex_to_rgb. rewrite lstrip_hashes.
  pose proof (int16_hex2 upper r Hr) as Ir.
  pose proof (int16_hex2 upper g Hg) as Ig.
  pose proof (int16_hex2 upper b Hb) as Ib.
  destruct (hex2_head upper r Hr) as (r1 & r2 & Er & Hhash).
  destruct (hex2_head upper g Hg) as (g1 & g2 & Eg & _).
  destruct (hex2_head upper b Hb) as (b1 & b2 & Eb & _).
  rewrite Er, Eg, Eb in *. rewrite !append_cons, !append_nil_l.
  cbn [Png.lstrip_hash]. rewrite Hhash. cbn [substring].
  rewrite ?substring_none, Ir, Ig, Ib. reflexivity.
Qed.

Lemma hex_to_rgb_reads_six_digits_witness :
  Png._hex_to_rgb "#8DC5FE" = Some (141, 197, 254) /\
  Png._hex_to_rgb "#8dc5fe80" = Some (141, 197, 254).
Proof.
  split.
  - apply (hex_to_rgb_reads_six_digits true 141 197 254 1 ""); lia.
  - apply (hex_to_rgb_reads_six_digits false 141 197 254 1 "80"); lia.
Defined.

(** X21.  [_hex_to_rgb] raises [ValueError] when fewer than five
    characters are left after the leading [#], so for the short form
    [#FFF].  When it returns, each component lies between -15 and 255: a
    sign is accepted where a digit is expected, as in [#-1-1-1]. *)
Theorem hex_to_rgb_rejects_and_bounds (hex_color : string) :
  ((String.length (Png.lstrip_hash hex_color) <= 4)%nat ->
   Png._hex_to_rgb hex_color = None) /\
  (forall r g b, Png._hex_to_rgb hex_color = Some (r, g, b) ->
     -15 <= r <= 255 /\ -15 <= g <= 255 /\ -15 <= b <= 255) /\
  Png._hex_to_rgb "#FFF" = None /\
  Png._hex_to_rgb "#-1-1-1" = Some (-1, -1, -1).
Proof.
  split; [|split; [|split; reflexivity]].
  - intros Hlen. unfold Png._hex_to_rgb.
    rewrite (substring_short 4 2 _ Hlen).
    destruct (Png.int16 (substring 0 2 _)); [|reflexivity].
    destruct (Png.int16 (substring 2 2 _)); reflexivity.
  - intros r g b. unfold Png._hex_to_rgb.
    destruct (Png.int16 (substring 0 2 _)) as [r'|] eqn:Hr; [|discriminate].
    destruct (Png.int16 (substring 2 2 _)) as [g'|] eqn:Hg; [|discriminate].
    destruct (Png.int16 (substring 4 2 _)) as [b'|] eqn:Hb; [|discriminate].
    intros H. inversion H; subst.
    apply int16_range in Hr. apply int16_range in Hg. apply int16_range in Hb. auto.
Qed.

(** ** The strings of a card *)

Lemma pdf_texts_app t1 t2 : pdf_texts (t1 ++ t2) = pdf_texts t1 ++ pdf_texts t2.
Proof. apply flat_map_app. Qed.

Lemma pdf_paragraphs_app t1 t2 :
  pdf_paragraphs (t1 ++ t2) = pdf_paragraphs t1 ++ pdf_paragraphs t2.
Proof. apply flat_map_app. Qed.

Lemma png_texts_app t1 t2 : png_texts (t1 ++ t2) = png_texts t1 ++ png_texts t2.
Proof. apply flat_map_app. Qed.

Lemma pdf_lines_texts (E : Pdf.env) (font : string) (size x width start_y line_height : Q)
    (lines : list string) :
  forall i : Z,
    let m := for_enumerate lines i (fun i line =>
               let line_width := Pdf.stringWidth E line font size in
               let text_x := (x + (width - line_width) / 2)%Q in
               let text_y := (start_y - inject_Z i * line_height)%Q in
               call (Pdf.drawString text_x text_y line)) in
    pdf_texts (trace m) = lines /\ pdf_paragraphs (trace m) = [].
Proof.
  induction lines as [|line lines IH]; intros i; cbn zeta; [split; reflexivity|].
  cbn [for_enumerate]. specialize (IH (i + 1)). cbn zeta in IH. destruct IH as [IH1 IH2].
  rewrite trace_bind. cbn [call result trace fst snd].
  rewrite pdf_texts_app, pdf_paragraphs_app, IH1, IH2. split; reflexivity.
Qed.

(** What [_draw_centered_text] writes when it returns. *)
Lemma pdf_name_texts E text x y w h fs bold pad multi ml thr u t :
  Pdf._draw_centered_text E text x y w h fs bold pad multi ml thr = (Ok u, t) ->
  pdf_texts t = name_lines text multi ml thr /\ pdf_paragraphs t = [].
Proof.
  unfold Pdf._draw_centered_text, name_lines. intros H.
  apply bind_ok in H as (v & t1 & t2 & R & K & ->). apply call_ok in R as ->.
  rewrite pdf_texts_app, pdf_paragraphs_app. cbn [pdf_texts pdf_paragraphs flat_map
    pdf_text pdf_paragraph app].
  destruct (negb multi || (ml =? 1)).
  - apply bind_ok in K as ([size width] & t3 & t4 & R & K & ->).
    apply call_ok in K as ->. unfold Pdf.fit_single_line in R.
    destruct (Py.gt _ _).
    + apply bind_ok in R as (q & t5 & t6 & R & K & ->).
      unfold Pdf.float_div in R. destruct (Qeq_bool _ 0); [discriminate|].
      apply lift_ok in R as [_ ->].
      apply bind_ok in K as (q' & t7 & t8 & R & K & ->).
      apply call_ok in R as ->. apply lift_ok in K as [_ ->]. split; reflexivity.
    + apply lift_ok in R as [_ ->]. split; reflexivity.
  - match type of K with
    | for_enumerate ?l 0 _ = _ =>
        pose proof (pdf_lines_texts E (if bold then "Helvetica-Bold" else "Helvetica") fs x w
                      (y + (h - inject_Z (Z.of_nat (length l)) * (fs * 1.2)) / 2
                       + (inject_Z (Z.of_nat (length l)) - 1) * (fs * 1.2))%Q
                      (fs * 1.2)%Q l 0) as Hl
    end.
    cbn zeta in Hl. rewrite K in Hl. exact Hl.
Qed.

Lemma pdf_borders_texts sides x y w h r t :
  Pdf.draw_borders sides x y w h = (r, t) -> pdf_texts t = [] /\ pdf_paragraphs t = [].
Proof.
  intros H.
  assert (Hall : Forall (fun o => pdf_text o = [] /\ pdf_paragraph o = []) t).
  { revert H. apply only_trace, only_borders. intros; split; reflexivity. }
  clear H. induction Hall as [|o t [H1 H2] _ [IH1 IH2]]; [split; reflexivity|].
  unfold pdf_texts, pdf_paragraphs in *. cbn [flat_map]. rewrite H1, H2, IH1, IH2.
  split; reflexivity.
Qed.

Lemma pdf_wrapped_texts E text x y w h fs pad u t :
  Pdf._draw_wrapped_text E text x y w h fs pad = (Ok u, t) ->
  pdf_texts t = [] /\ pdf_paragraphs t = [text].
Proof.
  unfold Pdf._draw_wrapped_text. destruct (Pdf.paragraph_wrap _ _ _ _ _).
  intros H. apply call_ok in H as ->. split; reflexivity.
Qed.

Lemma png_name_texts G s x y w h fs bold pad multi ml thr u t :
  Png._draw_centered_text G s x y w h fs bold pad multi ml thr = (Ok u, t) ->
  map png_string_text (png_texts t) = name_lines s multi ml thr.
Proof.
  unfold Png._draw_centered_text, name_lines. intros H.
  destruct (negb multi || (ml =? 1)).
  - apply bind_ok in H as ([[size width] height] & t3 & t4 & R & K & ->).
    apply call_ok in K as ->. unfold Png.fit_single_line in R.
    destruct (_ <? _).
    + apply bind_ok in R as (q & t5 & t6 & R & K & ->).
      unfold Png.div in R. destruct (_ =? 0); [discriminate|].
      apply lift_ok in R as [_ ->]. apply lift_ok in K as [_ ->]. reflexivity.
    + apply lift_ok in R as [_ ->]. reflexivity.
  - match type of H with
    | for_enumerate ?l 0 (fun i line => call (Png.text _ (?sy + _) _ _ _)) = _ =>
        pose proof (png_lines_drawn G fs bold x w sy (Py.int (inject_Z fs * 1.2)%Q) l 0)
          as (_ & _ & Hl & _)
    end.
    cbn zeta in Hl. rewrite H in Hl. exact Hl.
Qed.

Lemma png_wrapped_texts G s x y w h fs pad u t :
  Png._draw_wrapped_text G s x y w h fs pad = (Ok u, t) ->
  map png_string_text (png_texts t) = message_lines s.
Proof.
  unfold Png._draw_wrapped_text, message_lines. intros H.
  match type of H with
  | for_enumerate ?l 0 (fun i line => call (Png.text _ (?sy + _) _ _ _)) = _ =>
      pose proof (png_lines_drawn G fs false x w sy (Py.int (inject_Z fs * 1.25)%Q) l 0)
        as (_ & _ & Hl & _)
  end.
  cbn zeta in Hl. rewrite H in Hl. exact Hl.
Qed.

Lemma png_borders_texts sides color x y w h bw r t :
  Png.draw_borders sides color x y w h bw = (r, t) -> png_texts t = [].
Proof.
  intros H.
  assert (Hall : Forall (fun o => png_text o = []) t).
  { revert H. apply only_trace, png_only_borders. intros; reflexivity. }
  clear H. induction Hall as [|o t H1 _ IH]; [reflexivity|].
  unfold png_texts in *. cbn [flat_map]. now rewrite H1, IH.
Qed.

Ltac text_facts :=
  repeat match goal with
  | R : Pdf._draw_centered_text _ _ _ _ _ _ _ _ _ _ _ _ = _ |- _ =>
      apply pdf_name_texts in R as [? ?]
  | R : Pdf.draw_borders _ _ _ _ _ = _ |- _ => apply pdf_borders_texts in R as [? ?]
  | R : Pdf._draw_wrapped_text _ _ _ _ _ _ _ _ = _ |- _ =>
      apply pdf_wrapped_texts in R as [? ?]
  | R : Pdf._draw_centered_image _ _ _ _ _ _ _ _ = _ |- _ =>
      apply pdf_image_run in R as (? & ? & ? & ->)
  | R : Png._draw_centered_text _ _ _ _ _ _ _ _ _ _ _ _ = _ |- _ =>
      apply png_name_texts in R
  | R : Png.draw_borders _ _ _ _ _ _ _ = _ |- _ => apply png_borders_texts in R
  | R : Png._draw_wrapped_text _ _ _ _ _ _ _ _ = _ |- _ => apply png_wrapped_texts in R
  | R : Png._paste_centered_image _ _ _ _ _ _ = _ |- _ =>
      apply png_image_run in R as (? & ? & ? & ->)
  end.

Ltac use_texts :=
  repeat match goal with
  | H : pdf_texts ?t = _ |- _ => rewrite H; clear H
  | H : pdf_paragraphs ?t = _ |- _ => rewrite H; clear H
  | H : png_texts ?t = _ |- _ => rewrite H; clear H
  | H : map png_string_text (png_texts ?t) = _ |- _ => rewrite H; clear H
  end.

(** X22.  On a card that succeeds, the strings drawn are the name and the
    message and nothing else.  The name is drawn on one line when it is not
    longer than [name_length_threshold] or when [name_max_lines] is 1, and
    otherwise as the lines that [_optimal_line_break] makes of it at that
    threshold for [name_max_lines] lines.  The vector card draws the message
    as one paragraph; the raster card draws it after the name, cut at every
    [<br/>] and newline. *)
Theorem card_texts (E : Pdf.env) (G : Png.env) (scale_factor : Z)
    (cfg : gmap string pyval) (person_name person_image out_pdf out_png : string)
    (tv : list Pdf.op) (tr : list Png.op) :
  (Pdf.generate_card E cfg person_name person_image out_pdf = (Ok true, tv) ->
   exists threshold height font_size multiline max_lines message_text,
     tier_of cfg person_name = Ok (threshold, height, font_size, multiline) /\
     Cfg.int_or cfg "name_max_lines" 2 = Ok max_lines /\
     Cfg.str_at cfg "message_text" = Ok message_text /\
     pdf_texts tv = name_lines person_name multiline max_lines threshold /\
     pdf_paragraphs tv = [message_text]) /\
  (Png.generate_card G scale_factor cfg person_name person_image out_png = (Ok true, tr) ->
   exists threshold height font_size multiline max_lines message_text,
     tier_of cfg person_name = Ok (threshold, height, font_size, multiline) /\
     Cfg.int_or cfg "name_max_lines" 2 = Ok max_lines /\
     Cfg.str_at cfg "message_text" = Ok message_text /\
     map png_string_text (png_texts tr)
     = name_lines person_name multiline max_lines threshold ++ message_lines message_text).
Proof.
  split.
  - intros Hv. apply pdf_card_true in Hv as [qr Hv].
    unfold Pdf.card_body in Hv. cbv beta zeta in Hv.
    run_inv. text_facts. open_bottom_box.
    all: run_inv.
    all: do 6 eexists.
    all: split; [eassumption|]; split; [eassumption|]; split; [eassumption|].
    all: rewrite !pdf_texts_app, !pdf_paragraphs_app.
    all: use_texts.
    all: cbn [pdf_texts pdf_paragraphs flat_map pdf_text pdf_paragraph app].
    all: rewrite ?app_nil_r; split; reflexivity.
  - intros Hr. apply png_card_true in Hr as [qr Hr].
    unfold Png.card_body in Hr. cbv beta zeta in Hr.
    run_inv. text_facts. open_bottom_box.
    all: run_inv.
    all: do 6 eexists.
    all: split; [eassumption|]; split; [eassumption|]; split; [eassumption|].
    all: rewrite !png_texts_app, !map_app.
    all: use_texts.
    all: cbn [png_texts flat_map png_text app map].
    all: rewrite ?app_nil_r; reflexivity.
Qed.

(** ** The vector card from creation to saving *)

Lemma pdf_text_rest E text x y w h fs bold pad multi ml thr r t :
  Pdf._draw_centered_text E text x y w h fs bold pad multi ml thr = (r, t) ->
  Forall pdf_no_canvas t.
Proof. apply only_trace, only_text; intros; reflexivity. Qed.

Lemma pdf_borders_rest sides x y w h r t :
  Pdf.draw_borders sides x y w h = (r, t) -> Forall pdf_no_canvas t.
Proof. apply only_trace, only_borders; intros; reflexivity. Qed.

Lemma pdf_wrapped_rest E text x y w h fs pad r t :
  Pdf._draw_wrapped_text E text x y w h fs pad = (r, t) -> Forall pdf_no_canvas t.
Proof. apply only_trace, only_wrapped; intros; reflexivity. Qed.

Ltac pdf_rest_facts :=
  repeat match goal with
  | R : Pdf._draw_centered_text _ _ _ _ _ _ _ _ _ _ _ _ = _ |- _ =>
      apply pdf_text_rest in R
  | R : Pdf.draw_borders _ _ _ _ _ = _ |- _ => apply pdf_borders_rest in R
  | R : Pdf._draw_wrapped_text _ _ _ _ _ _ _ _ = _ |- _ => apply pdf_wrapped_rest in R
  | R : Pdf._draw_centered_image _ _ _ _ _ _ _ _ = _ |- _ =>
      apply pdf_image_run in R as (? & ? & ? & ->)
  end.

(** A vector card that succeeds starts by creating the canvas and painting
    the whole page with the background colour. *)
Lemma pdf_card_starts E cfg name img out t :
  Pdf.generate_card E cfg name img out = (Ok true, t) ->
  exists page_width page_height background_color rest,
    Cfg.num_at cfg "page_width_pt" = Ok page_width /\
    Cfg.num_at cfg "page_height_pt" = Ok page_height /\
    Cfg.str_at cfg "background_color" = Ok background_color /\
    t = Pdf.Canvas out page_width page_height
        :: Pdf.setFillColor background_color
        :: Pdf.rect 0 0 page_width page_height :: rest /\
    Forall pdf_no_canvas rest.
Proof.
  intros Hv. apply pdf_card_true in Hv as [qr Hv].
  unfold Pdf.card_body in Hv. cbv beta zeta in Hv.
  run_inv. pdf_rest_facts. open_bottom_box.
  all: run_inv.
  all: do 4 eexists.
  all: split; [eassumption|]; split; [eassumption|]; split; [eassumption|].
  all: cbn [app]; split; [reflexivity|].
  all: repeat first [ apply List.Forall_nil
                    | apply List.Forall_cons; [reflexivity|]
                    | apply Forall_app_2; [assumption|] ].
Qed.

Lemma generate_card_ends_with_save E cfg name img out qr :
  Cfg.str_at cfg "qr_code_path" = Ok qr ->
  ends_with_save (Pdf.generate_card E cfg name img out).
Proof.
  intros Hqr.
  destruct (generate_card_split E cfg name img out qr Hqr) as [->|[Ht Hr]]; [constructor|].
  cbv zeta in Ht, Hr.
  pose proof (body_ends_with_save E cfg name (Pdf.base_dir E img) (Pdf.base_dir E qr) out) as H.
  unfold ends_with_save in *. rewrite Hr, Ht.
  destruct (result (Pdf.card_body E cfg name (Pdf.base_dir E img) (Pdf.base_dir E qr) out))
    as [[|]|e]; exact H.
Qed.

(** X23.  A vector card that returns [True] has created the canvas for
    [output_path] with the configured page size, has painted the whole page
    in the background colour before anything else, and has saved as its
    very last call, once. *)
Theorem vector_card_saves_last (E : Pdf.env) (cfg : gmap string pyval)
    (person_name person_image output_path : string) (t : list Pdf.op) :
  Pdf.generate_card E cfg person_name person_image output_path = (Ok true, t) ->
  exists page_width page_height background_color drawn,
    Cfg.num_at cfg "page_width_pt" = Ok page_width /\
    Cfg.num_at cfg "page_height_pt" = Ok page_height /\
    Cfg.str_at cfg "background_color" = Ok background_color /\
    t = Pdf.Canvas output_path page_width page_height
        :: Pdf.setFillColor background_color
        :: Pdf.rect 0 0 page_width page_height :: drawn ++ [Pdf.save] /\
    Forall (fun o => pdf_is_canvas o = false /\ Pdf.is_save o = false) drawn.
Proof.
  intros Hv.
  destruct (pdf_card_starts E cfg person_name person_image output_path t Hv)
    as (pw & ph & bg & rest & Hpw & Hph & Hbg & Ht & Hrest).
  assert (Hqr : exists qr, Cfg.str_at cfg "qr_code_path" = Ok qr).
  { unfold Pdf.generate_card in Hv.
    destruct (negb (Pdf.valid_image E (Pdf.base_dir E person_image))); [discriminate|].
    unfold Cfg.str in Hv. destruct (Cfg.str_at cfg "qr_code_path") as [qr|]; [eauto|].
    discriminate. }
  destruct Hqr as [qr Hqr].
  pose proof (generate_card_ends_with_save E cfg person_name person_image output_path qr Hqr)
    as Hend.
  unfold ends_with_save in Hend. rewrite Hv in Hend. cbn [result trace fst snd] in Hend.
  destruct Hend as (t' & Ht' & Hns).
  exists pw, ph, bg.
  rewrite Ht in Ht'.
  destruct t' as [|o1 [|o2 [|o3 mid]]]; try (inversion Ht'; fail).
  cbn [app] in Ht'. inversion Ht'; subst o1 o2 o3 rest.
  exists mid. repeat (split; [assumption|]).
  apply Forall_app in Hrest as [Hmid _].
  inversion Hns as [|? ? _ Hns1]; subst. inversion Hns1 as [|? ? _ Hns2]; subst.
  inversion Hns2 as [|? ? _ Hns3]; subst.
  clear - Hmid Hns3. induction mid as [|o mid IH]; [constructor|].
  inversion Hmid; inversion Hns3; subst. constructor; [split; assumption|now apply IH].
Qed.

Lemma vector_card_saves_last_witness :
  exists t page_width page_height background_color drawn,
    Pdf.generate_card (Sample.pdf_env Sample.cfg Sample.people (200, 100)) Sample.cfg
      "Ann Lee" "ann.png" "/app/out/ann_lee.pdf" = (Ok true, t) /\
    Cfg.num_at Sample.cfg "page_width_pt" = Ok page_width /\
    Cfg.str_at Sample.cfg "background_color" = Ok background_color /\
    t = Pdf.Canvas "/app/out/ann_lee.pdf" page_width page_height
        :: Pdf.setFillColor background_color
        :: Pdf.rect 0 0 page_width page_height :: drawn ++ [Pdf.save].
Proof.
  eexists.
  destruct (vector_card_saves_last (Sample.pdf_env Sample.cfg Sample.people (200, 100))
              Sample.cfg "Ann Lee" "ann.png" "/app/out/ann_lee.pdf" _ ltac:(reflexivity))
    as (pw & ph & bg & drawn & Hpw & _ & Hbg & Ht & _).
  exists pw, ph, bg, drawn. split; [reflexivity|]. split; [exact Hpw|].
  split; [exact Hbg|exact Ht].
Defined.

(** ** Borders *)

Section Borders.
Local Open Scope Q_scope.

Lemma pdf_borders_along sides x y width height :
  only (along_box x y width height) unit (Pdf.draw_borders sides x y width height).
Proof.
  unfold Pdf.draw_borders.
  repeat first [ apply only_bind; [|intros ?]
               | apply only_when
               | apply only_call; cbn; unfold box_corner; cbn; tauto ].
Qed.

End Borders.

Lemma png_borders_inside sides color x y width height border_width :
  0 <= border_width <= width -> border_width <= height ->
  only (inside_box x y width height) unit
    (Png.draw_borders sides color x y width height border_width).
Proof.
  intros Hw Hh. unfold Png.draw_borders. apply png_only_when. cbv zeta.
  repeat first [ apply only_bind; [|intros ?]
               | apply png_only_hex
               | apply png_only_when
               | apply only_call; cbn; lia ].
Qed.

(** X24.  [generate_card] strokes one border for each of [left],
    [right], [top] and [bottom] that the configured list names, whatever
    the order, the repetitions and the other names in the list.  The four
    tests of the vector backend always return, and each line joins two
    corners of the box along one edge.  The raster block converts the
    border colour first when the list is not empty: it returns, with one
    rectangle for each side named, when the list is empty or
    [_hex_to_rgb] accepts the colour, and it raises [ValueError] without
    drawing when the list is not empty and the colour is malformed.  Each
    raster border is a rectangle inside the box, provided the border is not
    wider than the box is wide and high. *)
Theorem borders_follow_the_box (sides : list string) (color : string)
    (x y width height : Q) (px py pwidth pheight border_width : Z) :
  let vector := Pdf.draw_borders sides x y width height in
  let raster := Png.draw_borders sides color px py pwidth pheight border_width in
  result vector = Ok tt /\
  length (trace vector) = length (sides_drawn sides) /\
  Forall (along_box x y width height) (trace vector) /\
  (sides = [] \/ Png._hex_to_rgb color <> None ->
   result raster = Ok tt /\ length (trace raster) = length (sides_drawn sides)) /\
  (sides <> [] -> Png._hex_to_rgb color = None -> raster = raise ValueError) /\
  (0 <= border_width <= pwidth -> border_width <= pheight ->
   Forall (inside_box px py pwidth pheight) (trace raster)) /\
  Png.draw_borders ["left"] "#FFF" px py pwidth pheight border_width = raise ValueError.
Proof.
  intros vector raster.
  assert (Hv : result vector = Ok tt /\
               length (trace vector) = length (sides_drawn sides)).
  { unfold vector, Pdf.draw_borders, sides_drawn. cbn [List.filter].
    destruct (Py.contains "left" sides), (Py.contains "right" sides),
      (Py.contains "top" sides), (Py.contains "bottom" sides); split; reflexivity. }
  destruct Hv as [Hv1 Hv2].
  split; [exact Hv1|]. split; [exact Hv2|]. split; [apply pdf_borders_along|].
  split; [|split; [|split]].
  - intros Hok. unfold raster, Png.draw_borders, sides_drawn. cbn [List.filter].
    destruct sides as [|side sides]; [split; reflexivity|]. cbn [Py.nonempty Png.when].
    unfold Png.hex_to_rgb.
    destruct (Png._hex_to_rgb color) as [c|].
    + destruct (Py.contains "left" (side :: sides)), (Py.contains "right" (side :: sides)),
        (Py.contains "top" (side :: sides)), (Py.contains "bottom" (side :: sides));
        split; reflexivity.
    + exfalso. destruct Hok as [Hnil|Hsome]; [discriminate Hnil|now apply Hsome].
  - intros Hsides Hbad. unfold raster, Png.draw_borders.
    destruct sides as [|side sides]; [contradiction|]. cbn [Py.nonempty Png.when].
    unfold Png.hex_to_rgb. rewrite Hbad. reflexivity.
  - intros Hw Hh. now apply png_borders_inside.
  - reflexivity.
Qed.
